(** * The CEO access gate (src/components/ceo/CEOPinAuth.tsx)

    A shallow embedding of the React component [CEOPinAuth]: its four pieces
    of [useState] state, its event handlers and the asynchronous flows they
    start ([verifyPin], [handleBiometricAuth], [registerBiometric],
    [authenticateBiometric]), together with the parts of the outside world
    the handlers talk to: the [ceo_access_credentials] table, the platform's
    WebAuthn calls, the toast and console output and the timer that delivers
    [onSuccess].

    Strings are Rocq strings read as sequences of code units below 256.

    Before the gate come the definitions for four other parts of the
    application, each in a module of its own: the document viewer, the two
    backend functions and the hiring flow.  Their properties follow those of
    the gate. *)

From Stdlib Require Import NArith ZArith QArith Ascii String.
From stdpp Require Import base decidable option list strings gmap.

Open Scope string_scope.
Open Scope list_scope.

(** * The other parts of the application

    The document viewer of the restaurant verification screens, the two
    backend functions [get-equity-dashboard] and [create-executive-user], and
    the hiring flow of the personnel screen.  Each has a module of its own for
    its definitions; their properties come after those of the gate. *)

(** ** What an awaited call settles to, and computations that log and throw *)

Module Async.

(** An awaited promise: fulfilled with a value, or rejected with an error of
    which the [message] is kept. *)
Inductive settles (A : Type) : Type :=
| Fulfils (x : A)
| RejectsWith (message : string).
Arguments Fulfils {A} x.
Arguments RejectsWith {A} message.

(** The body of an [async] function: it appends to a log of effects of type
    [E], and returns a value or throws an error message. *)
Inductive result (A : Type) : Type :=
| Returns (x : A)
| Throws (message : string).
Arguments Returns {A} x.
Arguments Throws {A} message.

Definition io (E A : Type) : Type := list E -> result A * list E.

#[global] Instance io_ret {E : Type} : MRet (io E) :=
  fun A x log => (Returns x, log).

#[global] Instance io_bind {E : Type} : MBind (io E) :=
  fun A B k m log =>
    match m log with
    | (Returns x, log') => k x log'
    | (Throws msg, log') => (Throws msg, log')
    end.

Definition throws {E A : Type} (message : string) : io E A :=
  fun log => (Throws message, log).

(** [try { body } catch (error) { handler }] *)
Definition catch {E A : Type} (body : io E A) (handler : string -> io E A) : io E A :=
  fun log =>
    match body log with
    | (Returns x, log') => (Returns x, log')
    | (Throws msg, log') => handler msg log'
    end.

Definition perform {E : Type} (e : E) : io E unit :=
  fun log => (Returns tt, log ++ [e]).

(** [await p] *)
Definition awaits {E A : Type} (p : settles A) : io E A :=
  match p with
  | Fulfils x => mret x
  | RejectsWith msg => throws msg
  end.

(** A handler started on an empty log: what it returns and what it did. *)
Definition started {E A : Type} (m : io E A) : result A * list E := m [].

(** What a query to the backend runs into.  [Served]: it is answered from the
    tables.  [Refused]: the awaited call resolves with an [error] in its
    result, an object with that [message].  [Dropped]: the awaited promise
    rejects, with an [Error] that prints as that [text] (its name and its
    message). *)
Inductive reply : Type :=
| Served
| Refused (message : string)
| Dropped (text : string).

(** The [{ data, error }] a query resolves to; of the error its [message]
    is kept. *)
Record answer (A : Type) : Type := {
  data : option A;
  error : option string }.
Arguments data {A} _.
Arguments error {A} _.
Arguments Build_answer {A} _ _.

End Async.

(** ** The document viewer
    (src/components/admin/restaurant-onboarding/verification/components/DocumentImageViewer.tsx) *)

Module DocumentImageViewer.

(** A document as the viewer reads it; the remaining fields of the interface
    ([icon], [required], [description], [color], [bgColor]) only style it. *)
Record document : Type := {
  key : string;
  label : string;
  url : option string }.

#[global] Instance document_eq_dec : EqDecision document.
Proof. solve_decision. Defined.

Inductive view_mode : Type := Grid | Single.

Record state : Type := {
  viewMode : view_mode;
  selectedDoc : option document;
  zoom : Z;
  rotation : Z;
  fullscreenDoc : option document }.

(** The five [useState] initial values. *)
Definition initial : state :=
  {| viewMode := Grid; selectedDoc := None; zoom := 100; rotation := 0;
     fullscreenDoc := None |}.

(** [d.url] as a condition: [null] and the empty string are falsy. *)
Definition has_url (d : document) : bool :=
  match url d with
  | Some u => negb (String.eqb u "")
  | None => false
  end.

(** [documents.filter(d => d.url)] *)
Definition uploadedDocs (documents : list document) : list document :=
  List.filter has_url documents.

Definition setViewMode (m : view_mode) (st : state) : state :=
  {| viewMode := m; selectedDoc := selectedDoc st; zoom := zoom st;
     rotation := rotation st; fullscreenDoc := fullscreenDoc st |}.

Definition setSelectedDoc (d : option document) (st : state) : state :=
  {| viewMode := viewMode st; selectedDoc := d; zoom := zoom st;
     rotation := rotation st; fullscreenDoc := fullscreenDoc st |}.

Definition setFullscreenDoc (d : option document) (st : state) : state :=
  {| viewMode := viewMode st; selectedDoc := selectedDoc st; zoom := zoom st;
     rotation := rotation st; fullscreenDoc := d |}.

Definition setZoom (f : Z -> Z) (st : state) : state :=
  {| viewMode := viewMode st; selectedDoc := selectedDoc st; zoom := f (zoom st);
     rotation := rotation st; fullscreenDoc := fullscreenDoc st |}.

Definition setRotation (f : Z -> Z) (st : state) : state :=
  {| viewMode := viewMode st; selectedDoc := selectedDoc st; zoom := zoom st;
     rotation := f (rotation st); fullscreenDoc := fullscreenDoc st |}.

(** [setZoom(prev => Math.min(prev + 25, 200))] *)
Definition handleZoomIn : state -> state :=
  setZoom (fun prev => Z.min (prev + 25) 200).

(** [setZoom(prev => Math.max(prev - 25, 50))] *)
Definition handleZoomOut : state -> state :=
  setZoom (fun prev => Z.max (prev - 25) 50).

(** [setRotation(prev => (prev + 90) % 360)]; [%] takes the sign of the
    dividend, as [Z.rem] does. *)
Definition handleRotate : state -> state :=
  setRotation (fun prev => Z.rem (prev + 90) 360).

(** [setZoom(100); setRotation(0)] *)
Definition handleReset (st : state) : state :=
  setRotation (fun _ => 0%Z) (setZoom (fun _ => 100%Z) st).

(** What can be clicked. *)
Inductive event : Type :=
| ClickGrid
| ClickSingle
| ClickZoomOut
| ClickZoomIn
| ClickRotate
| ClickReset
| ClickSelector (d : document)
| ClickMaximize (d : document)
| CloseDialog.

(** The zoom and rotate buttons are rendered under
    [viewMode === 'single' && selectedDoc]. *)
Definition controls_rendered (st : state) : bool :=
  match viewMode st, selectedDoc st with
  | Single, Some _ => true
  | _, _ => false
  end.

Definition in_uploaded (documents : list document) (d : document) : bool :=
  bool_decide (d ∈ uploadedDocs documents).

(** One event on what is rendered for [documents]; an event on a control that
    is not rendered changes nothing.  With no uploaded document the component
    returns its empty notice and renders no control at all. *)
Definition step (documents : list document) (st : state) (ev : event) : state :=
  match uploadedDocs documents with
  | [] => st
  | _ :: _ =>
      match ev with
      | ClickGrid => setViewMode Grid st
      | ClickSingle => setViewMode Single st
      | ClickZoomOut => if controls_rendered st then handleZoomOut st else st
      | ClickZoomIn => if controls_rendered st then handleZoomIn st else st
      | ClickRotate => if controls_rendered st then handleRotate st else st
      | ClickReset => if controls_rendered st then handleReset st else st
      | ClickSelector d =>
          match viewMode st with
          | Single =>
              if in_uploaded documents d
              then handleReset (setSelectedDoc (Some d) st) else st
          | Grid => st
          end
      | ClickMaximize d =>
          match viewMode st with
          | Grid =>
              if in_uploaded documents d then setFullscreenDoc (Some d) st else st
          | Single => st
          end
      | CloseDialog => setFullscreenDoc None st
      end
  end.

Definition run (documents : list document) (st : state) (evs : list event) : state :=
  foldl (step documents) st evs.

(** The document the single view displays: [selectedDoc || uploadedDocs[0]]. *)
Definition displayed (documents : list document) (st : state) : option document :=
  match selectedDoc st with
  | Some d => Some d
  | None => head (uploadedDocs documents)
  end.

(** The zoom levels and the quarter turns. *)
Definition zoom_level (z : Z) : Prop :=
  (50 <= z <= 200)%Z /\ (25 | z)%Z.

Definition quarter_turn (r : Z) : Prop :=
  r = 0%Z \/ r = 90%Z \/ r = 180%Z \/ r = 270%Z.

(** What every event keeps. *)
Definition kept (documents : list document) (st : state) : Prop :=
  zoom_level (zoom st) /\ quarter_turn (rotation st)
  /\ (selectedDoc st = None -> zoom st = 100%Z /\ rotation st = 0%Z)
  /\ (forall d, selectedDoc st = Some d -> d ∈ uploadedDocs documents)
  /\ (forall d, fullscreenDoc st = Some d -> d ∈ uploadedDocs documents).

End DocumentImageViewer.
(** ** The equity dashboard (supabase/functions/get-equity-dashboard/index.ts) *)

(** [Array.from(new Set(l))]: the elements in the order of their first
    occurrence. *)
Fixpoint distinct {A : Type} `{EqDecision A} (seen l : list A) : list A :=
  match l with
  | [] => []
  | x :: r =>
      if decide (x ∈ seen) then distinct seen r else x :: distinct (x :: seen) r
  end.

Definition from_Set {A : Type} `{EqDecision A} (l : list A) : list A :=
  distinct [] l.

(** [.filter(Boolean)] on ids: [null] and the empty string go. *)
Definition filter_Boolean (l : list (option string)) : list string :=
  omap (fun x =>
          match x with
          | Some s => if String.eqb s "" then None else Some s
          | None => None
          end) l.

(** [x || ''] on a nullable string. *)
Definition or_empty (x : option string) : string := default "" x.

Module EquityDashboard.

Import Async.

Section Grants.

(** The values of the four grant columns; the function copies them unread. *)
Context {value : Type}.

Record grant : Type := {
  shares_percentage : value;
  shares_total : value;
  equity_type : value;
  grant_date : value }.

(** One row of [employee_equity], as selected: the employee and the four
    grant columns. *)
Record equity_row : Type := {
  employee_id : option string;
  columns : grant }.

(** One row of [employees], as selected. *)
Record employee : Type := {
  id : string;
  first_name : option string;
  last_name : option string;
  position : option string;
  email : option string }.

Record world : Type := {
  employee_equity_table : list equity_row;
  employees_table : list employee }.

Record env : Type := {
  equity_reply : reply;
  employees_reply : reply }.

Inductive effect : Type :=
| SelectEquity
| SelectEmployees (ids : list string).

(** One element of [shareholders]. *)
Record shareholder : Type := {
  holder_id : option string;
  holder_first_name : string;
  holder_last_name : string;
  holder_position : string;
  holder_email : string;
  employee_equity : list grant }.

Inductive body : Type :=
| Empty
| Shareholders (shareholders : list shareholder)
| Failure (text : string).

Record response : Type := {
  status : Z;
  content : body }.

(** [await supabase.from('employee_equity').select(...)] *)
Definition select_equity (w : world) (r : reply) : io effect (answer (list equity_row)) :=
  perform SelectEquity ;;
  match r with
  | Served => mret {| data := Some (employee_equity_table w); error := None |}
  | Refused message => mret {| data := None; error := Some message |}
  | Dropped text => throws text
  end.

(** [await supabase.from('employees').select(...).in('id', ids)] *)
Definition select_employees (w : world) (ids : list string) (r : reply) :
    io effect (answer (list employee)) :=
  perform (SelectEmployees ids) ;;
  match r with
  | Served =>
      mret {| data := Some (List.filter (fun e => bool_decide (id e ∈ ids))
                              (employees_table w));
              error := None |}
  | Refused message => mret {| data := None; error := Some message |}
  | Dropped text => throws text
  end.

(** [(employees || []).reduce((acc, e) => { acc[e.id] = e; return acc; }, {})] *)
Definition index_by_id (employees : list employee) : gmap string employee :=
  foldl (fun acc e => <[id e := e]> acc) ∅ employees.

(** The property key an employee id is read with: [null] is the key
    ["null"]. *)
Definition property_key (i : option string) : string := default "null" i.

(** [employeesById[eq.employee_id]?.field || ''].  A key that was never
    assigned may still be answered by something inherited from
    [Object.prototype]; nothing inherited has one of the four fields read
    here, so such a key reads as an absent one. *)
Definition field_of (employeesById : gmap string employee)
    (field : employee -> option string) (i : option string) : string :=
  or_empty (employeesById !! property_key i ≫= field).

Definition shareholder_of (employeesById : gmap string employee)
    (eq : equity_row) : shareholder :=
  {| holder_id := employee_id eq;
     holder_first_name := field_of employeesById first_name (employee_id eq);
     holder_last_name := field_of employeesById last_name (employee_id eq);
     holder_position := field_of employeesById position (employee_id eq);
     holder_email := field_of employeesById email (employee_id eq);
     employee_equity := [columns eq] |}.

(** What [String(e)] makes of the [error] of a query result once it is
    thrown and caught.  In the client the function imports (supabase-js
    2.39.3) that error is a plain object with the fields [message],
    [details], [hint] and [code], and a plain object prints as
    ["[object Object]"], whatever its message. *)
Definition String_of_error (message : string) : string := "[object Object]".

(** The function [serve] is given.  What is thrown is kept as the text the
    [catch] makes of it with [String(e)]: for the reason of a rejected
    promise the text [Dropped] carries, for the [error] of a result
    [String_of_error]. *)
Definition handler (method : string) (w : world) (e : env) : io effect response :=
  if String.eqb method "OPTIONS" then mret {| status := 200; content := Empty |}
  else
    catch
      (r ← select_equity w (equity_reply e);
       match error r with
       | Some err => throws (String_of_error err)
       | None =>
           let equityRows := default [] (data r) in
           let employeeIds :=
             filter_Boolean (from_Set (map employee_id equityRows)) in
           employeesById ←
             (if (0 <? length employeeIds)%nat then
                r' ← select_employees w employeeIds (employees_reply e);
                match error r' with
                | Some empErr => throws (String_of_error empErr)
                | None => mret (index_by_id (default [] (data r')))
                end
              else mret ∅);
           mret {| status := 200;
                   content := Shareholders
                                (map (shareholder_of employeesById) equityRows) |}
       end)
      (fun text => mret {| status := 500; content := Failure text |}).

(** The employee a lookup by [i] should name: the row of [employees] whose
    id is the key of [i], the last one should there be several. *)
Definition employee_with (w : world) (i : option string) : option employee :=
  last (List.filter (fun e => String.eqb (id e) (property_key i)) (employees_table w)).

(** [i] names an employee: it is neither [null] nor empty. *)
Definition names_employee (i : option string) : bool :=
  match i with
  | Some s => negb (String.eqb s "")
  | None => false
  end.

(** A shareholder with none of the employee's fields. *)
Definition anonymous (s : shareholder) : Prop :=
  holder_first_name s = "" /\ holder_last_name s = ""
  /\ holder_position s = "" /\ holder_email s = "".

End Grants.

Arguments grant : clear implicits.
Arguments equity_row : clear implicits.
Arguments world : clear implicits.
Arguments shareholder : clear implicits.
Arguments body : clear implicits.
Arguments response : clear implicits.
Arguments effect : clear implicits.

(** Data of a scenario: two grants of one employee, one grant without an
    employee, and one of an employee that is not in [employees]. *)
Definition a_grant (percentage : string) : grant string :=
  {| shares_percentage := percentage; shares_total := "1000";
     equity_type := "common_stock"; grant_date := "2025-01-01" |}.

Definition ledger : world string :=
  {| employee_equity_table :=
       [ {| employee_id := Some "e-1"; columns := a_grant "10" |};
         {| employee_id := None; columns := a_grant "5" |};
         {| employee_id := Some "e-1"; columns := a_grant "2" |};
         {| employee_id := Some "e-9"; columns := a_grant "1" |} ];
     employees_table :=
       [ {| id := "e-1"; first_name := Some "Ada"; last_name := Some "King";
            position := Some "CTO"; email := None |};
         {| id := "e-2"; first_name := Some "Bo"; last_name := Some "Lee";
            position := None; email := Some "bo@example.com" |} ] |}.

(** A ledger none of whose rows names an employee. *)
Definition unnamed_ledger : world string :=
  {| employee_equity_table :=
       [ {| employee_id := None; columns := a_grant "5" |};
         {| employee_id := Some ""; columns := a_grant "1" |} ];
     employees_table := employees_table ledger |}.

Definition both_served : env :=
  {| equity_reply := Served; employees_reply := Served |}.

(** The employees query resolves with an error in its result, or its
    promise rejects. *)
Definition employees_refused : env :=
  {| equity_reply := Served; employees_reply := Refused "permission denied" |}.

Definition employees_dropped : env :=
  {| equity_reply := Served;
     employees_reply := Dropped "TypeError: error sending request" |}.

End EquityDashboard.

(** ** Creating an executive user (supabase/functions/create-executive-user) *)

(** [s.slice(from, to)] for [0 <= from <= to]. *)
Definition slice (s : string) (from to : nat) : string :=
  substring from (to - from) s.

Module CreateExecutiveUser.

Import Async.

(** The request body, [CreateExecutiveUserRequest]. *)
Record request : Type := {
  firstName : string;
  lastName : string;
  email : string;
  position : string;
  department : string;
  role : string }.

(** What [auth.admin.createUser] resolves to: an error, or [data] whose
    [user] may be missing. *)
Inductive created : Type :=
| AuthError (message : string)
| AuthData (user_id : option string).

(** What the insert into [exec_users] with [.select().single()] resolves to:
    an error, or the row, of which the [id] is read. *)
Inductive inserted : Type :=
| ExecError (message : string)
| ExecUser (id : string).

(** Everything the world answers during one request. *)
Record env : Type := {
  json : settles request;
  random36 : string;
  createUser_result : settles created;
  now : string;
  insert_result : settles inserted;
  deleteUser_result : settles unit }.

Inductive effect : Type :=
| CreateUser (email password first_name last_name position department : string)
| InsertExecUser (user_id role title department approved_at : string)
| DeleteUser (user_id : string)
| ConsoleError (label message : string)
| ConsoleLog (label exec_user_id : string).

Inductive body : Type :=
| Empty
| Success (userId execUserId tempPassword : string)
| Failure (message : string).

Record response : Type := {
  status : Z;
  content : body }.

(** [Math.random().toString(36).slice(2, 10) + 'A1!'] *)
Definition tempPassword (e : env) : string :=
  (slice (random36 e) 2 10 ++ "A1!")%string.

(** The function [serve] is given. *)
Definition handler (method : string) (e : env) : io effect response :=
  if String.eqb method "OPTIONS" then mret {| status := 200; content := Empty |}
  else
    catch
      (r ← awaits (json e);
       let tempPassword := tempPassword e in
       a ← (perform (CreateUser (email r) tempPassword (firstName r) (lastName r)
                       (position r) (department r)) ;;
            awaits (createUser_result e));
       match a with
       | AuthError authError => throws authError
       | AuthData None => throws "Failed to create auth user"
       | AuthData (Some user_id) =>
           x ← (perform (InsertExecUser user_id (role r) (position r)
                           (department r) (now e)) ;;
                awaits (insert_result e));
           match x with
           | ExecError execError =>
               perform (ConsoleError "Error creating exec_users:" execError) ;;
               (perform (DeleteUser user_id) ;; awaits (deleteUser_result e)) ;;
               throws execError
           | ExecUser execUserId =>
               perform (ConsoleLog "Executive user created successfully:" execUserId) ;;
               mret {| status := 200;
                       content := Success user_id execUserId tempPassword |}
           end
       end)
      (fun message =>
         perform (ConsoleError "Error creating executive user:" message) ;;
         mret {| status := 500; content := Failure message |}).

Definition is_DeleteUser (x : effect) : bool :=
  match x with DeleteUser _ => true | _ => false end.

Definition is_CreateUser (x : effect) : bool :=
  match x with CreateUser _ _ _ _ _ _ => true | _ => false end.

(** The password a [createUser] call was given. *)
Definition password_of (x : effect) : option string :=
  match x with
  | CreateUser _ password _ _ _ _ => Some password
  | _ => None
  end.

(** Data of a scenario: a request that goes through, and one during which
    the random number drawn is zero, whose base-36 text is ["0"]. *)
Definition a_request : request :=
  {| firstName := "Ada"; lastName := "King"; email := "ada@example.com";
     position := "Chief Technology Officer"; department := "Engineering";
     role := "cto" |}.

Definition goes_through : env :=
  {| json := Fulfils a_request;
     random36 := "0.4fzyo82mvyr";
     createUser_result := Fulfils (AuthData (Some "user-1"));
     now := "2025-01-01T00:00:00.000Z";
     insert_result := Fulfils (ExecUser "exec-1");
     deleteUser_result := Fulfils tt |}.

Definition zero_drawn : env :=
  {| json := Fulfils a_request;
     random36 := "0";
     createUser_result := Fulfils (AuthData (Some "user-1"));
     now := "2025-01-01T00:00:00.000Z";
     insert_result := Fulfils (ExecUser "exec-1");
     deleteUser_result := Fulfils tt |}.

End CreateExecutiveUser.
(** ** Hiring (src/components/ceo/PersonnelManager.tsx) *)

(** [toLowerCase] on one code unit below 256: the letters A to Z, and the
    capital letters of the upper half (all of 192 to 222 but the
    multiplication sign). *)
Definition lower (c : ascii) : ascii :=
  let n := N_of_ascii c in
  if ((65 <=? n) && (n <=? 90) || (192 <=? n) && (n <=? 222) && negb (n =? 215))%N
  then ascii_of_N (n + 32) else c.

Fixpoint toLowerCase (s : string) : string :=
  match s with
  | EmptyString => EmptyString
  | String c r => String (lower c) (toLowerCase r)
  end.

(** [s.includes(p)] *)
Fixpoint includes (s p : string) : bool :=
  String.prefix p s
  || match s with
     | EmptyString => false
     | String _ r => includes r p
     end.

(** [x || d] on an optional string: [undefined] and the empty string give
    [d]. *)
Definition or_default (x : option string) (d : string) : string :=
  match x with
  | Some s => if String.eqb s "" then d else s
  | None => d
  end.

Module PersonnelManager.

Import Async.

(** The values of the hire form, as far as [handleHire] decides by them or
    the modelled effects carry them; the other fields are copied into the
    rows and letters. *)
Record values : Type := {
  first_name : string;
  last_name : string;
  email : string;
  position : string;
  equity : option Q;
  equity_type : option string;
  vesting_schedule : option string }.

(** [/chief|ceo|cfo|cto|coo|president/i.test(position)]: with the [i] flag a
    letter of the pattern matches its two cases and no other character. *)
Definition isCLevel (position : string) : bool :=
  existsb (includes (toLowerCase position))
    ["chief"; "ceo"; "cfo"; "cto"; "coo"; "president"].

(** [values.position.toLowerCase().includes('ceo')] *)
Definition isCEO (position : string) : bool :=
  includes (toLowerCase position) "ceo".

(** [values.equity && values.equity > 0] *)
Definition equity_given (equity : option Q) : bool :=
  match equity with
  | Some q => negb (Qle_bool q 0)
  | None => false
  end.

Record vesting : Type := {
  type : string;
  duration_months : Z;
  cliff_months : Z }.

(** [vestingJson] *)
Definition vestingJson (vesting_schedule : option string) : vesting :=
  let vestingSchedule := or_default vesting_schedule "4_year_1_cliff" in
  {| type := vestingSchedule;
     duration_months :=
       if String.eqb vestingSchedule "immediate" then 0
       else if String.eqb vestingSchedule "2_year_1_cliff" then 24
       else if String.eqb vestingSchedule "3_year_1_cliff" then 36 else 48;
     cliff_months := if String.eqb vestingSchedule "immediate" then 0 else 12 |}.

(** [boardResolution.required_documents] *)
Definition required_documents (position : string) : list string :=
  if isCLevel position then
    if isCEO position then
      ["board_resolution"; "founders_equity_insurance_agreement";
       "equity_offer_agreement"; "offer_letter"]
    else ["board_resolution"; "equity_offer_agreement"; "offer_letter"]
  else ["offer_letter"].

(** [documentsSent] *)
Definition documentsSent (position : string) : string :=
  if isCLevel position then
    if isCEO position then
      "Board Resolution, Offer Letter, Equity Agreement, and Founders Agreement"
    else "Board Resolution, Offer Letter, and Equity Agreement"
  else "Board Resolution and Offer Letter".

(** The toast of a hire: with the documents it reports as sent, or, with
    [None], with its note that some documents failed to send. *)
Inductive toast : Type :=
| Hired (first_name last_name : string) (sent : option string).

Inductive effect : Type :=
| GetUser
| InsertEmployee (first_name last_name email position : string)
| InsertEquity (employee_id : string) (shares_percentage : Q)
    (equity_type : string) (vesting_schedule : vesting)
| InsertHistory (employee_id : string)
| InsertResolution (required_documents : list string)
| Invoke (function_name : string)
| MessageSuccess (t : toast)
| MessageError (text : string)
| ConsoleError (label : string)
| SetIsModalVisible (visible : bool)
| ResetFields
| FetchEmployees.

(** Everything the world answers while [handleHire] runs: the signed-in
    user's id, the inserted rows' ids, what the unread results of the later
    writes and of the four invocations settle to, and the message of the
    engine's [TypeError]. *)
Record env : Type := {
  getUser : settles (option string);
  insert_employee : settles (answer (list string));
  insert_equity : settles unit;
  insert_history : settles unit;
  insert_resolution : settles unit;
  board_resolution_sent : settles unit;
  offer_letter_sent : settles unit;
  equity_agreement_sent : settles unit;
  founders_agreement_sent : settles unit;
  type_error : string }.

(** The [try] block within [handleHire] that sends the documents. *)
Definition send_documents (v : values) (e : env) : io effect unit :=
  let isCLevel := isCLevel (position v) in
  catch
    (perform (Invoke "send-board-resolution") ;;
     awaits (board_resolution_sent e) ;;
     perform (Invoke "send-executive-offer-letter") ;;
     awaits (offer_letter_sent e) ;;
     (if isCLevel && equity_given (equity v) then
        perform (Invoke "send-equity-offer-agreement") ;;
        awaits (equity_agreement_sent e)
      else mret tt) ;;
     (if isCEO (position v) then
        perform (Invoke "send-founders-equity-insurance-agreement") ;;
        awaits (founders_agreement_sent e)
      else mret tt) ;;
     perform (MessageSuccess
                (Hired (first_name v) (last_name v)
                   (Some (documentsSent (position v))))))
    (fun emailError =>
       perform (ConsoleError "Error sending documents:") ;;
       perform (MessageSuccess (Hired (first_name v) (last_name v) None))).

Definition handleHire (v : values) (e : env) : io effect unit :=
  catch
    (user ← (perform GetUser ;; awaits (getUser e));
     r ← (perform (InsertEmployee (first_name v) (last_name v) (email v)
                     (position v)) ;;
          awaits (insert_employee e));
     match error r with
     | Some err => throws err
     | None =>
         let isCLevel := isCLevel (position v) in
         (if isCLevel && equity_given (equity v) then
            match data r, equity v with
            | Some (employee_id :: _), Some shares =>
                perform (InsertEquity employee_id shares
                           (or_default (equity_type v) "common_stock")
                           (vestingJson (vesting_schedule v))) ;;
                awaits (insert_equity e)
            | _, _ => throws (type_error e)
            end
          else mret tt) ;;
         match data r with
         | Some (employee_id :: _) =>
             perform (InsertHistory employee_id) ;; awaits (insert_history e)
         | _ => mret tt
         end ;;
         perform (InsertResolution (required_documents (position v))) ;;
         awaits (insert_resolution e) ;;
         send_documents v e ;;
         perform (SetIsModalVisible false) ;;
         perform ResetFields ;;
         perform FetchEmployees
     end)
    (fun text =>
       perform (ConsoleError "Error hiring employee:") ;;
       perform (MessageError (or_default (Some text) "Failed to hire employee"))).

Definition is_Invoke (x : effect) : bool :=
  match x with Invoke _ => true | _ => false end.

Definition is_MessageSuccess (x : effect) : bool :=
  match x with MessageSuccess _ => true | _ => false end.

Definition is_MessageError (x : effect) : bool :=
  match x with MessageError _ => true | _ => false end.

(** Every awaited call up to the board resolution record resolves, the
    employee insert with a row. *)
Definition recorded (e : env) : Prop :=
  (exists user, getUser e = Fulfils user)
  /\ (exists employee_id rest,
        insert_employee e =
          Fulfils {| data := Some (employee_id :: rest); error := None |})
  /\ insert_equity e = Fulfils tt
  /\ insert_history e = Fulfils tt
  /\ insert_resolution e = Fulfils tt.

(** Each of the four invocations resolves. *)
Definition documents_go_out (e : env) : Prop :=
  board_resolution_sent e = Fulfils tt
  /\ offer_letter_sent e = Fulfils tt
  /\ equity_agreement_sent e = Fulfils tt
  /\ founders_agreement_sent e = Fulfils tt.

(** The documents a toast reports as sent name the equity agreement. *)
Definition names_equity_agreement (x : effect) : bool :=
  match x with
  | MessageSuccess (Hired _ _ (Some sent)) => includes sent "Equity Agreement"
  | _ => false
  end.

(** Data of a scenario: a C-level hire without equity, every call
    resolving, and the same with the first invocation rejecting. *)
Definition a_hire : values :=
  {| first_name := "Ada"; last_name := "King"; email := "ada@example.com";
     position := "Chief Technology Officer"; equity := None;
     equity_type := None; vesting_schedule := None |}.

Definition all_resolve : env :=
  {| getUser := Fulfils (Some "ceo-1");
     insert_employee := Fulfils {| data := Some ["emp-1"]; error := None |};
     insert_equity := Fulfils tt;
     insert_history := Fulfils tt;
     insert_resolution := Fulfils tt;
     board_resolution_sent := Fulfils tt;
     offer_letter_sent := Fulfils tt;
     equity_agreement_sent := Fulfils tt;
     founders_agreement_sent := Fulfils tt;
     type_error := "Cannot read properties of null" |}.

Definition mail_down : env :=
  {| getUser := Fulfils (Some "ceo-1");
     insert_employee := Fulfils {| data := Some ["emp-1"]; error := None |};
     insert_equity := Fulfils tt;
     insert_history := Fulfils tt;
     insert_resolution := Fulfils tt;
     board_resolution_sent := RejectsWith "Failed to send a request";
     offer_letter_sent := Fulfils tt;
     equity_agreement_sent := Fulfils tt;
     founders_agreement_sent := Fulfils tt;
     type_error := "Cannot read properties of null" |}.

End PersonnelManager.

(** * The gate *)

(** ** JavaScript values the component handles *)

(** One element of the [pin] array.  The array is declared [string[]], but an
    assignment past its end leaves holes behind, and the copy [[...pin]]
    turns holes into [undefined]; both are kept apart from strings. *)
Inductive slot : Type :=
| Hole
| Undefined
| Str (s : string).

#[global] Instance slot_eq_dec : EqDecision slot.
Proof. solve_decision. Defined.

(** [[...a]]: the iterator reads a hole as [undefined]. *)
Definition spread (a : list slot) : list slot :=
  map (fun x => match x with Hole => Undefined | _ => x end) a.

(** [a[i] = v]: in range the element is replaced, past the end the array
    grows and the skipped indices are holes. *)
Definition assign (a : list slot) (i : nat) (v : string) : list slot :=
  if decide (i < length a) then <[i := Str v]> a
  else a ++ replicate (i - length a) Hole ++ [Str v].

(** [digit !== ''] on an element the callback is called with. *)
Definition nonempty (x : slot) : bool :=
  match x with
  | Str s => negb (String.eqb s "")
  | _ => true
  end.

(** [a.every(digit => digit !== '')]; [every] skips holes. *)
Definition every_nonempty (a : list slot) : bool := forallb nonempty a.

(** [a.join('')]: holes and [undefined] contribute the empty string. *)
Fixpoint join (a : list slot) : string :=
  match a with
  | [] => ""
  | Str s :: r => (s ++ join r)%string
  | _ :: r => join r
  end.

(** [/^\d$/.test(value)]: exactly one character, and it is in [0-9]. *)
Definition is_digit (c : ascii) : bool :=
  (48 <=? N_of_ascii c)%N && (N_of_ascii c <=? 57)%N.

Definition test_digit (value : string) : bool :=
  match value with
  | String c EmptyString => is_digit c
  | _ => false
  end.

(** The value [useState] starts [pin] with, and [verifyPin] resets it to. *)
Definition empty_pin : list slot := replicate 6 (Str "").

(** ** Base64, as [btoa] and [atob] compute it *)

Definition b64_alphabet : string :=
  "ABCDEFGHIJKLMNOPQRSTUVWXYZabcdefghijklmnopqrstuvwxyz0123456789+/".

Definition b64_char (n : N) : ascii :=
  match String.get (N.to_nat n) b64_alphabet with
  | Some c => c
  | None => "="%char
  end.

Fixpoint index_of (c : ascii) (s : string) (i : N) : option N :=
  match s with
  | EmptyString => None
  | String d r => if Ascii.eqb c d then Some i else index_of c r (N.succ i)
  end.

Definition b64_value (c : ascii) : option N := index_of c b64_alphabet 0%N.

Fixpoint b64_encode (l : list N) : string :=
  match l with
  | [] => ""
  | [a] =>
      String (b64_char (a / 4)) (String (b64_char ((a mod 4) * 16)) "==")
  | [a; b] =>
      String (b64_char (a / 4)) (String (b64_char ((a mod 4) * 16 + b / 16))
        (String (b64_char ((b mod 16) * 4)) "="))
  | a :: b :: c :: r =>
      String (b64_char (a / 4)) (String (b64_char ((a mod 4) * 16 + b / 16))
        (String (b64_char ((b mod 16) * 4 + c / 64))
          (String (b64_char (c mod 64)) (b64_encode r))))
  end%N.

(** [btoa(s)] on a string of code units below 256 (where it never throws). *)
Definition btoa (s : string) : string :=
  b64_encode (map N_of_ascii (list_ascii_of_string s)).

(** [String.fromCharCode(...new Uint8Array(buf))]: one code unit per byte. *)
Definition fromCharCode (buf : list Byte.byte) : string :=
  string_of_list_ascii (map ascii_of_byte buf).

Definition is_ascii_whitespace (c : ascii) : bool :=
  let n := N_of_ascii c in
  ((n =? 9) || (n =? 10) || (n =? 12) || (n =? 13) || (n =? 32))%N.

(** Drops one or two [=] from the end of the reversed input. *)
Definition strip_padding (rev_cs : list ascii) : list ascii :=
  match rev_cs with
  | "="%char :: "="%char :: r => r
  | "="%char :: r => r
  | _ => rev_cs
  end.

Fixpoint b64_decode (vs : list N) : list N :=
  match vs with
  | a :: b :: c :: d :: r =>
      (a * 4 + b / 16) :: ((b mod 16) * 16 + c / 4) :: ((c mod 4) * 64 + d)
        :: b64_decode r
  | [a; b; c] => [a * 4 + b / 16; (b mod 16) * 16 + c / 4]
  | [a; b] => [a * 4 + b / 16]
  | _ => []
  end%N.

(** [atob(s)], the forgiving decoder: whitespace is dropped, padding is
    removed when the length is a multiple of four, a length of one modulo four
    or a character outside the alphabet throws ([None]). *)
Definition atob (s : string) : option string :=
  let cs := filter (fun c => negb (is_ascii_whitespace c)) (list_ascii_of_string s) in
  let cs := if decide (length cs mod 4 = 0) then rev (strip_padding (rev cs)) else cs in
  if decide (length cs mod 4 = 1) then None
  else
    match mapM b64_value cs with
    | Some vs => Some (string_of_list_ascii (map ascii_of_N (b64_decode vs)))
    | None => None
    end.

(** ** The outside world *)

(** One row of [ceo_access_credentials]; nullable columns are options. *)
Record cred_row : Type := {
  user_email : string;
  pin_hash : option string;
  biometric_credential_id : option string;
  biometric_public_key : option string;
  last_access_at : option string;
  access_count : N }.

(** What a request to the backend runs into.  [Delivered]: it reaches the
    table, is applied and answered.  [Failed]: the awaited call resolves with
    an [error] in its result and nothing is applied.  [Rejected]: the awaited
    promise rejects. *)
Inductive net : Type := Delivered | Failed | Rejected.

(** The object handed to [.update(...)].  In [AuditFields] the second
    component stands for what line 91 gives as [access_count]: the builder
    [supabase.rpc('increment', { x })], which is not awaited, so the remote
    call it describes is never sent. *)
Inductive payload : Type :=
| AuditFields (last_access_at_new : string) (increment_x : N)
| BiometricFields (credential_id public_key : string).

(** What a platform promise settles to. *)
Inductive promise (A : Type) : Type :=
| Resolves (x : A)
| Rejects.
Arguments Resolves {A} x.
Arguments Rejects {A}.

(** What [navigator.credentials.create] resolves to, as far as it is read:
    [credential.id] and [credential.response.attestationObject]. *)
Record credential : Type := {
  id : string;
  attestationObject : list Byte.byte }.

(** The assertion [navigator.credentials.get] resolves to is only tested for
    being non-null. *)
Inductive assertion : Type := Assertion.

(** Everything the world answers while one handler runs. *)
Record env : Type := {
  select_net : net;
  update_net : net;
  now : string;
  create_result : promise (option credential);
  get_result : promise (option assertion) }.

(** What the component does to the world, in order. *)
Inductive effect : Type :=
| Select (columns email : string)
| Update (p : payload) (email : string)
| CredentialsCreate (user_name : string)
| CredentialsGet (allow_id : string)
| MessageSuccess (text : string)
| ConsoleError (label : string)
| SetTimeout
| OnSuccess.

(** ** State *)

(** The four [useState] cells, the input that last received [focus()], the
    table, the effects so far, and whether the caller still has the component
    mounted. *)
Record state : Type := {
  pin : list slot;
  error : string;
  loading : bool;
  biometricAvailable : bool;
  focused : option nat;
  table : list cred_row;
  trace : list effect;
  mounted : bool }.

Definition with_pin (p : list slot) (st : state) : state :=
  {| pin := p; error := error st; loading := loading st;
     biometricAvailable := biometricAvailable st; focused := focused st;
     table := table st; trace := trace st; mounted := mounted st |}.

Definition with_error (e : string) (st : state) : state :=
  {| pin := pin st; error := e; loading := loading st;
     biometricAvailable := biometricAvailable st; focused := focused st;
     table := table st; trace := trace st; mounted := mounted st |}.

Definition with_loading (b : bool) (st : state) : state :=
  {| pin := pin st; error := error st; loading := b;
     biometricAvailable := biometricAvailable st; focused := focused st;
     table := table st; trace := trace st; mounted := mounted st |}.

Definition with_biometricAvailable (b : bool) (st : state) : state :=
  {| pin := pin st; error := error st; loading := loading st;
     biometricAvailable := b; focused := focused st;
     table := table st; trace := trace st; mounted := mounted st |}.

Definition with_focused (i : nat) (st : state) : state :=
  {| pin := pin st; error := error st; loading := loading st;
     biometricAvailable := biometricAvailable st; focused := Some i;
     table := table st; trace := trace st; mounted := mounted st |}.

Definition with_table (t : list cred_row) (st : state) : state :=
  {| pin := pin st; error := error st; loading := loading st;
     biometricAvailable := biometricAvailable st; focused := focused st;
     table := t; trace := trace st; mounted := mounted st |}.

Definition with_mounted (b : bool) (st : state) : state :=
  {| pin := pin st; error := error st; loading := loading st;
     biometricAvailable := biometricAvailable st; focused := focused st;
     table := table st; trace := trace st; mounted := b |}.

Definition log (e : effect) (st : state) : state :=
  {| pin := pin st; error := error st; loading := loading st;
     biometricAvailable := biometricAvailable st; focused := focused st;
     table := table st; trace := trace st ++ [e];
     mounted := mounted st |}.

(** ** Handlers as state transformers that may throw *)

Inductive outcome (A : Type) : Type :=
| Done (a : A)
| Thrown.
Arguments Done {A} a.
Arguments Thrown {A}.

Definition M (A : Type) : Type := state -> outcome A * state.

#[global] Instance M_ret : MRet M := fun A a st => (Done a, st).

#[global] Instance M_bind : MBind M := fun A B f m st =>
  match m st with
  | (Done a, st') => f a st'
  | (Thrown, st') => (Thrown, st')
  end.

(** [try { body } catch (err) { handler }] *)
Definition try_catch {A : Type} (body handler : M A) : M A := fun st =>
  match body st with
  | (Done a, st') => (Done a, st')
  | (Thrown, st') => handler st'
  end.

Definition modify (f : state -> state) : M unit := fun st => (Done tt, f st).
Definition gets {A : Type} (f : state -> A) : M A := fun st => (Done (f st), st).

Definition setPin (p : list slot) : M unit := modify (with_pin p).
Definition setError (e : string) : M unit := modify (with_error e).
Definition setLoading (b : bool) : M unit := modify (with_loading b).
Definition setBiometricAvailable (b : bool) : M unit :=
  modify (with_biometricAvailable b).
Definition emit (e : effect) : M unit := modify (log e).

(** An input exists for every index [pin.map] calls its callback on. *)
Definition has_input (rendered : list slot) (i : nat) : bool :=
  match rendered !! i with
  | Some Hole | None => false
  | Some _ => true
  end.

(** [inputRefs.current[i]?.focus()] on enabled inputs, the refs being those
    of the inputs of the last render.  This is the call as the mount effect
    and the handlers of an input's own events make it: an input delivers
    events only while it is enabled. *)
Definition focus (rendered : list slot) (i : nat) : M unit :=
  if has_input rendered i then modify (with_focused i) else mret tt.

(** [inputRefs.current[i]?.focus()] where the inputs of the last render may
    be [disabled]: a disabled input does not take the focus, and the call
    changes nothing. *)
Definition focus_unless (disabled : bool) (rendered : list slot) (i : nat) :
    M unit :=
  if disabled then mret tt else focus rendered i.

(** ** Requests to the table *)

Definition matches (email : string) (r : cred_row) : bool :=
  String.eqb (user_email r) email.

(** The [{ data, error }] a request resolves to. *)
Record response (A : Type) : Type := {
  data : option A;
  fetchError : bool }.
Arguments data {A} _.
Arguments fetchError {A} _.
Arguments Build_response {A} _ _.

(** [.single()]: exactly one row, or an error. *)
Definition single {A : Type} (rows : list A) : response A :=
  match rows with
  | [r] => {| data := Some r; fetchError := false |}
  | _ => {| data := None; fetchError := true |}
  end.

(** [await supabase.from('ceo_access_credentials').select(columns)
      .eq('user_email', email).single()] *)
Definition select_single {A : Type} (columns : string) (project : cred_row -> A)
    (email : string) (n : net) : M (response A) :=
  emit (Select columns email) ;;
  match n with
  | Delivered =>
      t ← gets table;
      mret (single (map project (List.filter (matches email) t)))
  | Failed => mret {| data := None; fetchError := true |}
  | Rejected => fun st => (Thrown, st)
  end.

(** What a delivered update makes of a record.  The audit fields carry a
    timestamp and, for [access_count], a builder object instead of a number:
    no increment reaches the table, and the count stays what it was.  (A
    backend that refuses the whole update for that value is the [Failed]
    case of [net].) *)
Definition apply_payload (p : payload) (r : cred_row) : cred_row :=
  match p with
  | AuditFields t _ =>
      {| user_email := user_email r; pin_hash := pin_hash r;
         biometric_credential_id := biometric_credential_id r;
         biometric_public_key := biometric_public_key r;
         last_access_at := Some t; access_count := access_count r |}
  | BiometricFields i k =>
      {| user_email := user_email r; pin_hash := pin_hash r;
         biometric_credential_id := Some i;
         biometric_public_key := Some k;
         last_access_at := last_access_at r; access_count := access_count r |}
  end.

(** [await supabase.from('ceo_access_credentials').update(p)
      .eq('user_email', email)]; the result is not looked at by any caller. *)
Definition update_where (p : payload) (email : string) (n : net) : M unit :=
  emit (Update p email) ;;
  match n with
  | Delivered =>
      modify (fun st =>
        with_table
          (map (fun r => if matches email r then apply_payload p r else r)
               (table st)) st)
  | Failed => mret tt
  | Rejected => fun st => (Thrown, st)
  end.

(** [await p] for a platform promise. *)
Definition await {A : Type} (p : promise A) : M A :=
  match p with
  | Resolves x => mret x
  | Rejects => fun st => (Thrown, st)
  end.

(** ** Sessions: their events, their start, and counting effects *)

(** What [window.PublicKeyCredential] offers: nothing, or the promise
    [isUserVerifyingPlatformAuthenticatorAvailable()] returns. *)
Definition platform : Type := option (promise bool).

(** The state a handler leaves behind. *)
Definition exec {A : Type} (m : M A) (st : state) : state := snd (m st).

(** The first render: the initial values of the [useState] cells, nothing
    focused yet, nothing done yet, over a table [t]. *)
Definition init (t : list cred_row) : state :=
  {| pin := empty_pin; error := ""; loading := false;
     biometricAvailable := false; focused := None;
     table := t; trace := []; mounted := true |}.

(** What can happen to a mounted component: [onChange] and [onKeyDown] of the
    input at [index], a click on the biometric button, the alert's close
    button, a timer set by [setTimeout] running, and the caller unmounting
    the component.  The events that start an asynchronous flow carry what the
    world answers during it. *)
Inductive event : Type :=
| Change (index : nat) (value : string) (e : env)
| KeyDown (index : nat) (key : string)
| ClickBiometric (e : env)
| CloseAlert
| TimerFires
| Unmount.

(** How many effects of a kind a trace holds. *)
Definition count (p : effect -> bool) (l : list effect) : nat :=
  length (List.filter p l).

Definition is_SetTimeout (x : effect) : bool :=
  match x with SetTimeout => true | _ => false end.

Definition is_OnSuccess (x : effect) : bool :=
  match x with OnSuccess => true | _ => false end.

(** A [verifyPin] call is counted by the lookup it opens with. *)
Definition is_pin_lookup (x : effect) : bool :=
  match x with Select columns _ => String.eqb columns "pin_hash" | _ => false end.

Definition verification_calls (st : state) : nat :=
  count is_pin_lookup (trace st).

Definition is_create (x : effect) : bool :=
  match x with CredentialsCreate _ => true | _ => false end.

Definition is_get (x : effect) : bool :=
  match x with CredentialsGet _ => true | _ => false end.

Definition is_ceremony (x : effect) : bool := is_create x || is_get x.

(** A grant is announced by a success toast. *)
Definition is_grant (x : effect) : bool :=
  match x with MessageSuccess _ => true | _ => false end.

(** Timers set and not yet run. *)
Definition pending (st : state) : nat :=
  count is_SetTimeout (trace st) - count is_OnSuccess (trace st).

Definition is_console_error (x : effect) : bool :=
  match x with ConsoleError _ => true | _ => false end.

(** ** Data of the scenarios *)

(** The identifier of the scenarios; a stand-in for bcrypt whose hash of a
    PIN is the PIN itself, so that [String.eqb] is its [compare]; a record
    whose hash was generated from "123456"; an environment in which every
    request is delivered and both ceremonies succeed. *)
Definition ceo : string := "ceo@example.com".

Definition record_of (credential_id public_key : option string) : cred_row :=
  {| user_email := ceo; pin_hash := Some "123456";
     biometric_credential_id := credential_id;
     biometric_public_key := public_key;
     last_access_at := None; access_count := 0 |}.

Definition fresh_record : cred_row := record_of None None.

Definition all_well : env :=
  {| select_net := Delivered; update_net := Delivered;
     now := "2026-01-01T00:00:00.000Z";
     create_result :=
       Resolves (Some {| id := "AQID"; attestationObject := [Byte.x01; Byte.x02] |});
     get_result := Resolves (Some Assertion) |}.

Definition audit_fails : env :=
  {| select_net := Delivered; update_net := Failed;
     now := now all_well;
     create_result := create_result all_well;
     get_result := get_result all_well |}.

Definition audit_rejects : env :=
  {| select_net := Delivered; update_net := Rejected;
     now := now all_well;
     create_result := create_result all_well;
     get_result := get_result all_well |}.

(** The state once [digits] stand in the six inputs. *)
Definition holding (digits : list string) (t : list cred_row) : state :=
  with_pin (map Str digits) (init t).

(** Six digits entered in order, then the last one deleted and typed again
    before the first timer runs; the caller unmounts the component when the
    callback first arrives. *)
Definition granted_twice : list event :=
  [Change 0 "1" all_well; Change 1 "2" all_well; Change 2 "3" all_well;
   Change 3 "4" all_well; Change 4 "5" all_well; Change 5 "6" all_well;
   Change 5 "" all_well; Change 5 "6" all_well;
   TimerFires; Unmount; TimerFires].

Definition is_audit_update (x : effect) : bool :=
  match x with Update (AuditFields _ _) _ => true | _ => false end.

Definition is_biometric_update (x : effect) : bool :=
  match x with Update (BiometricFields _ _) _ => true | _ => false end.

(** The keystrokes that enter [vs] from the first position on. *)
Definition typed (vs : list string) (e : env) : list event :=
  imap (fun i v => Change i v e) vs.

(** A record that already holds a credential id and a public key. *)
Definition registered_record : cred_row := record_of (Some "AQID") (Some "o2M=").

(** A record whose credential id is written in the URL-safe alphabet. *)
Definition url_safe_record : cred_row := record_of (Some "q83-_w") (Some "o2M=").

(** Environments in which the lookup fails, or its promise rejects. *)
Definition lookup_fails : env :=
  {| select_net := Failed; update_net := Delivered;
     now := now all_well;
     create_result :=
       Resolves (Some {| id := "BAUG"; attestationObject := [Byte.x03] |});
     get_result := get_result all_well |}.

Definition lookup_rejects : env :=
  {| select_net := Rejected; update_net := Delivered;
     now := now all_well;
     create_result := create_result all_well;
     get_result := get_result all_well |}.

(** An environment in which the user cancels the registration ceremony. *)
Definition ceremony_cancelled : env :=
  {| select_net := Delivered; update_net := Delivered;
     now := now all_well;
     create_result := Rejects;
     get_result := get_result all_well |}.

(** ** The component *)

Section CEOPinAuth.

(** The prop [userEmail] and the library function [bcrypt.compare] on two
    strings.  The prop [onSuccess] is the effect [OnSuccess]. *)
Variable userEmail : string.
Variable bcrypt_compare : string -> string -> bool.

Definition throw {A : Type} : M A := fun st => (Thrown, st).

(** [await bcrypt.compare(s, hash)] rejects when [hash] is not a string. *)
Definition compare (s : string) (hash : option string) : M bool :=
  match hash with
  | Some h => mret (bcrypt_compare s h)
  | None => throw
  end.

(** [setTimeout(() => onSuccess(), 500)] *)
Definition setTimeout_onSuccess : M unit := emit SetTimeout.

Definition checkBiometricAvailability (w : platform) : M unit :=
  match w with
  | Some probe =>
      available ← await probe;
      setBiometricAvailable available
  | None => mret tt
  end.

(** The body of [verifyPin]'s [try]; the result says whether it left the
    function through [return].  The inputs are rendered with
    [disabled={loading}], and the render that followed [setLoading(true)]
    was committed while the lookup was awaited: at the [focus()] of the
    mismatch branch they are disabled as [loading] says. *)
Definition verifyPin_try (pinValue : string) (e : env) : M bool :=
  r ← select_single "pin_hash" pin_hash userEmail (select_net e);
  match fetchError r, data r with
  | false, Some credentials_pin_hash =>
      isValid ← compare pinValue credentials_pin_hash;
      if (isValid : bool) then
        update_where (AuditFields (now e) 1) userEmail (update_net e) ;;
        emit (MessageSuccess "Access Granted") ;;
        setTimeout_onSuccess ;;
        mret false
      else
        rendered ← gets pin;
        disabled ← gets loading;
        setError "Invalid PIN. Access Denied." ;;
        setPin empty_pin ;;
        focus_unless disabled rendered 0 ;;
        mret false
  | _, _ =>
      setError "Access credentials not found" ;;
      setLoading false ;;
      mret true
  end.

Definition verifyPin (pinValue : string) (e : env) : M unit :=
  setLoading true ;;
  setError "" ;;
  returned ← try_catch (verifyPin_try pinValue e)
    (emit (ConsoleError "PIN verification error:") ;;
     setError "Authentication error" ;;
     mret false);
  if (returned : bool) then mret tt else setLoading false.

(** The synchronous part of [handlePinChange]: the result is the argument of
    the call to [verifyPin], if the handler makes one. *)
Definition handlePinChange_sync (index : nat) (value : string) : M (option string) :=
  if decide (1 < String.length value) then mret None
  else if negb (String.eqb value "") && negb (test_digit value) then mret None
  else
    rendered ← gets pin;
    let newPin := assign (spread rendered) index value in
    setPin newPin ;;
    setError "" ;;
    (if negb (String.eqb value "") && (index <? 5)%nat
     then focus rendered (index + 1) else mret tt) ;;
    if every_nonempty newPin && (index =? 5)%nat
    then mret (Some (join newPin)) else mret None.

Definition handlePinChange (index : nat) (value : string) (e : env) : M unit :=
  call ← handlePinChange_sync index value;
  match call with
  | Some pinValue => verifyPin pinValue e
  | None => mret tt
  end.

Definition handleKeyDown (index : nat) (key : string) : M unit :=
  rendered ← gets pin;
  if String.eqb key "Backspace"
     && bool_decide (rendered !! index = Some (Str ""))
     && (0 <? index)%nat
  then focus rendered (index - 1) else mret tt.

Definition registerBiometric (e : env) : M unit :=
  try_catch
    (emit (CredentialsCreate userEmail) ;;
     credential ← await (create_result e);
     match credential with
     | Some c =>
         update_where
           (BiometricFields (id c) (btoa (fromCharCode (attestationObject c))))
           userEmail (update_net e) ;;
         emit (MessageSuccess "Biometric registered successfully") ;;
         setTimeout_onSuccess
     | None => mret tt
     end)
    (emit (ConsoleError "Biometric registration error:") ;;
     setError "Failed to register biometric") ;;
  setLoading false.

Definition authenticateBiometric (credentialId : string) (e : env) : M unit :=
  try_catch
    (match atob credentialId with
     | Some allow_id =>
         emit (CredentialsGet allow_id) ;;
         a ← await (get_result e);
         match a with
         | Some _ =>
             emit (MessageSuccess "Biometric verified") ;;
             setTimeout_onSuccess
         | None => mret tt
         end
     | None => throw
     end)
    (emit (ConsoleError "Biometric authentication error:") ;;
     setError "Biometric verification failed") ;;
  setLoading false.

(** The two columns [handleBiometricAuth] selects. *)
Record biometric_columns : Type := {
  sel_biometric_credential_id : option string;
  sel_biometric_public_key : option string }.

Definition select_biometric (r : cred_row) : biometric_columns :=
  {| sel_biometric_credential_id := biometric_credential_id r;
     sel_biometric_public_key := biometric_public_key r |}.

(** [credentials?.biometric_credential_id] when it is truthy. *)
Definition credential_on_file (credentials : option biometric_columns) : option string :=
  match credentials with
  | Some c =>
      match sel_biometric_credential_id c with
      | Some i => if String.eqb i "" then None else Some i
      | None => None
      end
  | None => None
  end.

(** The credential id a delivered lookup finds on file for the user. *)
Definition on_file (st : state) : option string :=
  credential_on_file
    (data (single (map select_biometric
                     (List.filter (matches userEmail) (table st))))).

Definition handleBiometricAuth (e : env) : M unit :=
  setLoading true ;;
  setError "" ;;
  try_catch
    (r ← select_single "biometric_credential_id, biometric_public_key"
           select_biometric userEmail (select_net e);
     match credential_on_file (data r) with
     | None => registerBiometric e
     | Some credentialId => authenticateBiometric credentialId e
     end)
    (emit (ConsoleError "Biometric auth error:") ;;
     setError "Biometric authentication failed" ;;
     setLoading false).

(** ** What is rendered *)

Record view : Type := {
  alert : option (string * string);
  inputs : list (option (slot * bool));
  biometric_button : option bool }.

(** The JSX: the alert is there when [error] is non-empty, one input per
    element [pin.map] visits (its value, and whether it is disabled), the
    biometric block when [biometricAvailable]. *)
Definition render (st : state) : view :=
  {| alert :=
       if String.eqb (error st) "" then None
       else Some ("Access Denied", error st);
     inputs :=
       map (fun x => match x with
                     | Hole => None
                     | _ => Some (x, loading st)
                     end) (pin st);
     biometric_button :=
       if biometricAvailable st then Some (loading st) else None |}.

(** ** A session *)

(** The [useEffect] that runs once after the first render. *)
Definition mount (w : platform) (st : state) : state :=
  let st1 := exec (checkBiometricAvailability w) st in
  exec (focus (pin st) 0) st1.

(** An event reaches its handler only through an element that is rendered
    and enabled; timers run whether or not the component is still mounted.
    A handler runs to its end before the next event: while one is in flight
    [loading] is true, which disables the inputs and the button, and the alert
    is not rendered because the flow starts with [setError('')]. *)
Definition step (st : state) (ev : event) : state :=
  match ev with
  | Change index value e =>
      if mounted st && has_input (pin st) index && negb (loading st)
      then exec (handlePinChange index value e) st else st
  | KeyDown index key =>
      if mounted st && has_input (pin st) index && negb (loading st)
      then exec (handleKeyDown index key) st else st
  | ClickBiometric e =>
      if mounted st && biometricAvailable st && negb (loading st)
      then exec (handleBiometricAuth e) st else st
  | CloseAlert =>
      if mounted st && negb (String.eqb (error st) "")
      then exec (setError "") st else st
  | TimerFires =>
      if decide (0 < pending st) then log OnSuccess st else st
  | Unmount => with_mounted false st
  end.

Definition run (st : state) (evs : list event) : state := foldl step st evs.

Definition session (w : platform) (t : list cred_row) (evs : list event) : state :=
  run (mount w (init t)) evs.

(** ** Predicates the properties are stated with *)

(** [h] is a hash of [p]: [bcrypt.compare] answers true on [p] and on nothing
    else. *)
Definition generated_from (h p : string) : Prop :=
  forall q, bcrypt_compare q h = true <-> q = p.

(** The table holds exactly one record for the user, with hash [h]. *)
Definition stored_hash (st : state) (h : string) : Prop :=
  exists r, List.filter (matches userEmail) (table st) = [r] /\ pin_hash r = Some h.

(** The lookup [handleBiometricAuth] opens with. *)
Definition biometric_lookup : effect :=
  Select "biometric_credential_id, biometric_public_key" userEmail.

(** A handler does not touch [biometricAvailable] or the mounting, runs no
    callback itself, and announces at most one grant, setting one timer for
    it. *)
Definition handler_frame (st st' : state) : Prop :=
  biometricAvailable st' = biometricAvailable st
  /\ mounted st' = mounted st
  /\ count is_OnSuccess (trace st') = count is_OnSuccess (trace st)
  /\ exists k, k <= 1
     /\ count is_SetTimeout (trace st') = count is_SetTimeout (trace st) + k
     /\ count is_grant (trace st') = count is_grant (trace st) + k.

(** Timers are set once per grant, and callbacks come from timers only. *)
Definition callbacks_accounted (st : state) : Prop :=
  count is_SetTimeout (trace st) = count is_grant (trace st)
  /\ count is_OnSuccess (trace st) <= count is_grant (trace st).

(** A record, and a state, with the stored public key blanked. *)
Definition forget_public_key (r : cred_row) : cred_row :=
  {| user_email := user_email r; pin_hash := pin_hash r;
     biometric_credential_id := biometric_credential_id r;
     biometric_public_key := None;
     last_access_at := last_access_at r; access_count := access_count r |}.

Definition forget (st : state) : state :=
  with_table (map forget_public_key (table st)) st.

(** What the assertion path adds to the trace once the lookup has found
    [credentialId]. *)
Definition assertion_effects (credentialId : string) (e : env) : list effect :=
  match atob credentialId with
  | Some allow_id =>
      CredentialsGet allow_id ::
      match get_result e with
      | Resolves (Some _) => [MessageSuccess "Biometric verified"; SetTimeout]
      | Resolves None => []
      | Rejects => [ConsoleError "Biometric authentication error:"]
      end
  | None => [ConsoleError "Biometric authentication error:"]
  end.

Definition is_text (x : slot) : bool :=
  match x with Str _ => true | _ => false end.

(** Six positions, each holding a string: what the six inputs show. *)
Definition six_inputs (p : list slot) : Prop :=
  length p = 6 /\ forallb is_text p = true.

(** A position holding the empty string or one digit. *)
Definition digit_or_empty (x : slot) : bool :=
  match x with
  | Str s => String.eqb s "" || test_digit s
  | _ => false
  end.

(** Six positions, each empty or holding one digit. *)
Definition entry_ok (p : list slot) : Prop :=
  length p = 6 /\ forallb digit_or_empty p = true.

(** A string of six decimal digits. *)
Definition six_digits (p : string) : Prop :=
  String.length p = 6
  /\ Forall (fun c => is_digit c = true) (list_ascii_of_string p).

(** The records of everyone but the user. *)
Definition other_users (t : list cred_row) : list cred_row :=
  List.filter (fun r => negb (matches userEmail r)) t.

(** What no flow changes in the table: which records there are and in which
    order, whose they are, the PIN hashes, and the records of other users. *)
Definition table_kept (t t' : list cred_row) : Prop :=
  map user_email t' = map user_email t
  /\ map pin_hash t' = map pin_hash t
  /\ other_users t' = other_users t.

(** [.update(p).eq('user_email', userEmail)] on the rows of a table. *)
Definition updated (p : payload) (t : list cred_row) : list cred_row :=
  map (fun r => if matches userEmail r then apply_payload p r else r) t.

Definition biometric_fields (r : cred_row) : option string * option string :=
  (biometric_credential_id r, biometric_public_key r).

Definition audit_fields (r : cred_row) : option string * N :=
  (last_access_at r, access_count r).

(** The six-bit groups of an encoding, and the padding that follows them. *)
Fixpoint sextets (l : list N) : list N :=
  match l with
  | [] => []
  | [a] => [a / 4; (a mod 4) * 16]
  | [a; b] => [a / 4; (a mod 4) * 16 + b / 16; (b mod 16) * 4]
  | a :: b :: c :: r =>
      (a / 4) :: ((a mod 4) * 16 + b / 16) :: ((b mod 16) * 4 + c / 64)
        :: (c mod 64) :: sextets r
  end%N.

Fixpoint padding (l : list N) : list ascii :=
  match l with
  | [] => []
  | [_] => ["="; "="]
  | [_; _] => ["="]
  | _ :: _ :: _ :: r => padding r
  end%char.

(** Mounted, not loading, and all six positions empty. *)
Definition idle (st : state) : Prop :=
  mounted st = true /\ loading st = false /\ pin st = empty_pin.

(** Six entries, each one digit. *)
Definition six_keys (vs : list string) : Prop :=
  length vs = 6 /\ Forall (fun v => test_digit v = true) vs.

(** * Properties *)

(** ** Unfolding the handlers *)

Ltac run_M :=
  unfold handlePinChange, handlePinChange_sync, handleKeyDown, verifyPin,
    verifyPin_try, handleBiometricAuth, registerBiometric,
    authenticateBiometric, checkBiometricAvailability, select_single,
    update_where, compare, await, throw, focus_unless, focus,
    setTimeout_onSuccess, setPin,
    setError, setLoading, setBiometricAvailable, emit, try_catch, gets,
    modify, exec, mbind, M_bind, mret, M_ret in *;
  cbn in *.

(** ** C1: the PIN scenario *)

(** C1. The code in the scenario of C1.  With a stored hash generated from
    "123456" and a backend that answers the lookup and does not reject the
    audit write: submitting "123456" is granted (toast, no error, callback
    scheduled) and issues exactly one audit update and no other request after
    the lookup.  That update carries the timestamp and, for the access count,
    the builder of an increment that is never sent: once it is delivered the
    user's record has the timestamp, and its access count is what it was
    before, not one more.  Submitting "000000" is denied, the input is
    cleared, and the lookup is the only request issued. *)
Theorem C1_pin_scenario (st : state) (e : env) (h : string) :
  generated_from h "123456" ->
  stored_hash st h ->
  select_net e = Delivered ->
  update_net e <> Rejected ->
  let granted := exec (verifyPin "123456" e) st in
  let denied := exec (verifyPin "000000" e) st in
  (trace granted =
     trace st ++ [Select "pin_hash" userEmail;
                  Update (AuditFields (now e) 1) userEmail;
                  MessageSuccess "Access Granted";
                  SetTimeout]
   /\ error granted = "" /\ loading granted = false
   /\ (update_net e = Delivered ->
       forall r, List.filter (matches userEmail) (table st) = [r] ->
       exists r', List.filter (matches userEmail) (table granted) = [r']
                  /\ last_access_at r' = Some (now e)
                  /\ access_count r' = access_count r))
  /\ (trace denied = trace st ++ [Select "pin_hash" userEmail]
      /\ error denied = "Invalid PIN. Access Denied."
      /\ pin denied = empty_pin
      /\ table denied = table st
      /\ loading denied = false).
Proof.
  intros Hgen (r & Hrows & Hhash) Hsel Hupd.
  assert (Hyes : bcrypt_compare "123456" h = true) by (by apply Hgen).
  assert (Hno : bcrypt_compare "000000" h = false).
  { destruct (bcrypt_compare "000000" h) eqn:E; [|done].
    apply Hgen in E. discriminate. }
  assert (Hnone : forall t, List.filter (matches userEmail) t = [] ->
    List.filter (matches userEmail)
      (map (fun x => if matches userEmail x
                     then apply_payload (AuditFields (now e) 1) x else x) t)
    = []).
  { induction t as [|x t IH]; [done|]. cbn [map List.filter].
    destruct (matches userEmail x) eqn:Hx; [done|].
    rewrite Hx. apply IH. }
  assert (Htable : forall t r0,
    List.filter (matches userEmail) t = [r0] ->
    List.filter (matches userEmail)
      (map (fun x => if matches userEmail x
                     then apply_payload (AuditFields (now e) 1) x else x) t)
    = [apply_payload (AuditFields (now e) 1) r0]).
  { induction t as [|x t IH]; intros r0; [done|].
    cbn [map List.filter].
    destruct (matches userEmail x) eqn:Hx.
    - intros [= <- Ht].
      assert (matches userEmail (apply_payload (AuditFields (now e) 1) x) = true)
        as -> by exact Hx.
      by rewrite Hnone.
    - rewrite Hx. apply IH. }
  run_M. rewrite Hsel. cbn. rewrite Hrows. cbn. rewrite Hhash. cbn.
  rewrite Hyes, Hno. cbn.
  destruct (update_net e) eqn:Hnet; [| |done]; cbn;
    rewrite <- !app_assoc; cbn; (split; [|done]).
  - split_and!; try done. intros _ r0 [= <-].
    eexists. split; [by apply Htable|]. done.
  - split_and!; done.
Qed.

(** ** C2: what a denial shows *)

(** C2. For every submitted PIN, the denial shown when no record
    exists for the identifier differs from the one shown on a hash mismatch:
    both appear under the alert title "Access Denied", but the description is
    "Access credentials not found" in the first case, with the input left as
    entered, and "Invalid PIN. Access Denied." in the second, with the input
    cleared. *)
Theorem C2_denials_differ (st1 st2 : state) (e : env) (pinValue h : string) :
  select_net e = Delivered ->
  List.filter (matches userEmail) (table st1) = [] ->
  stored_hash st2 h ->
  bcrypt_compare pinValue h = false ->
  let not_found := exec (verifyPin pinValue e) st1 in
  let invalid := exec (verifyPin pinValue e) st2 in
  alert (render not_found) = Some ("Access Denied", "Access credentials not found")
  /\ pin not_found = pin st1
  /\ alert (render invalid) = Some ("Access Denied", "Invalid PIN. Access Denied.")
  /\ pin invalid = empty_pin
  /\ alert (render not_found) <> alert (render invalid).
Proof.
  intros Hsel Hnone (r & Hrows & Hhash) Hcmp.
  run_M. rewrite Hsel. cbn. rewrite Hnone, Hrows. cbn. rewrite Hhash. cbn.
  rewrite Hcmp. cbn.
  destruct (has_input (pin st2) 0); cbn; repeat split; done.
Qed.

(** ** C3: what an attempt leaves in the entry state *)

(** C3. When a record is found: on a hash mismatch the entry state
    is reset to six empty positions; on a match the entered digits and the
    focus are left as they are. *)
Theorem C3_reset_on_mismatch_only (st : state) (e : env) (pinValue h : string) :
  select_net e = Delivered ->
  stored_hash st h ->
  let after := exec (verifyPin pinValue e) st in
  (bcrypt_compare pinValue h = false -> pin after = empty_pin)
  /\ (bcrypt_compare pinValue h = true ->
     pin after = pin st /\ focused after = focused st).
Proof.
  intros Hsel (r & Hrows & Hhash).
  run_M. rewrite Hsel. cbn. rewrite Hrows. cbn. rewrite Hhash. cbn.
  split; intros ->; cbn.
  - done.
  - by destruct (update_net e).
Qed.

(** The [focus()] of the mismatch branch is made on a disabled input:
    whatever the outcome, [verifyPin] leaves the focus where it was. *)
Lemma verifyPin_focused (st : state) (e : env) (pinValue : string) :
  focused (exec (verifyPin pinValue e) st) = focused st.
Proof.
  run_M.
  destruct (select_net e); cbn; [|done..].
  destruct (List.filter (matches userEmail) (table st)) as [|r [|? ?]];
    cbn; [done| |done].
  destruct (pin_hash r); cbn; [|done].
  destruct (bcrypt_compare pinValue _); cbn; [|done].
  by destruct (update_net e).
Qed.

(** ** C6: a failing audit write *)

(** C6. For every PIN that matches the stored hash: an audit write
    that fails with an error in its result is not logged and not surfaced, and
    the success callback is still scheduled; an audit write whose promise
    rejects is logged, is surfaced as "Authentication error", and the success
    callback is not scheduled. *)
Theorem C6_audit_write_failure (st : state) (e : env) (pinValue h : string) :
  select_net e = Delivered ->
  stored_hash st h ->
  bcrypt_compare pinValue h = true ->
  let after := exec (verifyPin pinValue e) st in
  (update_net e = Failed ->
     trace after =
       trace st ++ [Select "pin_hash" userEmail;
                    Update (AuditFields (now e) 1) userEmail;
                    MessageSuccess "Access Granted";
                    SetTimeout]
     /\ error after = "")
  /\ (update_net e = Rejected ->
     trace after =
       trace st ++ [Select "pin_hash" userEmail;
                    Update (AuditFields (now e) 1) userEmail;
                    ConsoleError "PIN verification error:"]
     /\ error after = "Authentication error").
Proof.
  intros Hsel (r & Hrows & Hhash) Hcmp.
  run_M. rewrite Hsel. cbn. rewrite Hrows. cbn. rewrite Hhash. cbn.
  rewrite Hcmp. cbn.
  split; intros ->; cbn; by rewrite <- !app_assoc.
Qed.

(** ** C9: one keystroke *)

Lemma assign_lookup (a : list slot) (i : nat) (v : string) :
  assign a i v !! i = Some (Str v).
Proof.
  unfold assign. case_decide as Hi.
  - by apply list_lookup_insert_eq.
  - rewrite lookup_app_r by lia.
    rewrite lookup_app_r by (rewrite length_replicate; lia).
    rewrite length_replicate.
    by replace (i - length a - (i - length a)) with 0 by lia.
Qed.

Lemma length_spread (a : list slot) : length (spread a) = length a.
Proof. unfold spread. by rewrite length_map. Qed.

(** The handler on a value it accepts, in one equation. *)
Lemma handlePinChange_sync_accepted (st : state) (index : nat) (value : string) :
  value = "" \/ test_digit value = true ->
  handlePinChange_sync index value st =
    let newPin := assign (spread (pin st)) index value in
    let st1 := with_error "" (with_pin newPin st) in
    (Done (if every_nonempty newPin && (index =? 5)%nat
           then Some (join newPin) else None),
     if negb (String.eqb value "") && (index <? 5)%nat
        && has_input (pin st) (index + 1)
     then with_focused (index + 1) st1 else st1).
Proof.
  intros Hok. unfold handlePinChange_sync.
  assert (Hlen : ~ 1 < String.length value).
  { destruct Hok as [-> | Hd]; [cbn; lia|].
    destruct value as [|c [|]]; try done. cbn. lia. }
  destruct (decide (1 < String.length value)) as [|_]; [done|].
  assert (Hrej : negb (String.eqb value "") && negb (test_digit value) = false).
  { destruct Hok as [-> | ->]; [done|]. apply andb_false_r. }
  rewrite Hrej.
  unfold focus, setPin, setError, gets, modify, mbind, M_bind, mret, M_ret.
  destruct (negb (String.eqb value "")), (index <? 5)%nat,
    (has_input (pin st) (index + 1)),
    (every_nonempty (assign (spread (pin st)) index value) && (index =? 5)%nat);
    reflexivity.
Qed.

(** The handler on a value it rejects. *)
Lemma handlePinChange_rejected (st : state) (index : nat) (value : string) (e : env) :
  1 < String.length value \/ (String.length value = 1 /\ test_digit value = false) ->
  handlePinChange index value e st = (Done tt, st).
Proof.
  intros [Hlong | [Hone Hnot]]; run_M.
  - by case_decide.
  - case_decide; [done|]. rewrite Hnot.
    destruct value; [done|]. done.
Qed.

(** C9. An input value longer than one character, or a single character that
    is not a digit, is rejected silently: the handler changes nothing, so the
    position keeps its value and no error appears.  An accepted digit is
    stored at its position, and before the last position focus moves to the
    next input. *)
Theorem C9_keystroke (st : state) (index : nat) (value : string) (e : env) :
  (1 < String.length value \/ (String.length value = 1 /\ test_digit value = false) ->
     handlePinChange index value e st = (Done tt, st))
  /\ (test_digit value = true ->
      let entered := exec (handlePinChange_sync index value) st in
      pin entered !! index = Some (Str value)
      /\ (index < 5 -> has_input (pin st) (index + 1) = true ->
          exec (handlePinChange index value e) st = entered
          /\ focused entered = Some (index + 1))).
Proof.
  split.
  - apply handlePinChange_rejected.
  - intros Hdigit.
    assert (Hne : String.eqb value "" = false) by (by destruct value).
    unfold exec, handlePinChange, mbind, M_bind.
    rewrite handlePinChange_sync_accepted by (by right).
    rewrite Hne. cbn zeta. split.
    + repeat case_match; cbn; apply assign_lookup.
    + intros Hlt Hnext.
      destruct (Nat.ltb_spec index 5); [|lia].
      destruct (Nat.eqb_spec index 5); [lia|].
      rewrite Hnext, andb_false_r. done.
Qed.

(** The empty string, which an input reports when its digit is deleted, is
    accepted and empties the position. *)
Lemma handlePinChange_delete (st : state) (index : nat) :
  pin (exec (handlePinChange_sync index "") st) !! index = Some (Str "").
Proof.
  unfold exec. rewrite handlePinChange_sync_accepted by (by left).
  cbn. apply assign_lookup.
Qed.

(** ** C4: when verification is called *)

Lemma count_app (p : effect -> bool) (l1 l2 : list effect) :
  count p (l1 ++ l2) = count p l1 + count p l2.
Proof. unfold count. by rewrite List.filter_app, length_app. Qed.

Ltac count_trace :=
  unfold verification_calls, count; cbn;
  rewrite ?List.filter_app, ?length_app; cbn; try lia.

Lemma verifyPin_one_call (pinValue : string) (e : env) (st : state) :
  verification_calls (exec (verifyPin pinValue e) st) = verification_calls st + 1.
Proof.
  run_M.
  destruct (select_net e); cbn; [|count_trace..].
  destruct (List.filter (matches userEmail) (table st)) as [|r [|]]; cbn;
    [count_trace| |count_trace].
  destruct (pin_hash r) as [h|]; cbn; [|count_trace].
  destruct (bcrypt_compare pinValue h); cbn.
  - destruct (update_net e); cbn; count_trace.
  - destruct (has_input (pin st) 0); cbn; count_trace.
Qed.

Lemma every_nonempty_lookup (a : list slot) (i : nat) :
  a !! i = Some (Str "") -> every_nonempty a = false.
Proof.
  unfold every_nonempty.
  revert i. induction a as [|x a IH]; intros [|i] H; cbn in *; simplify_eq.
  - done.
  - rewrite (IH i H). apply andb_false_r.
Qed.

Lemma every_nonempty_filled (a : list slot) (i : nat) (s : string) :
  every_nonempty a = true -> a !! i = Some (Str s) -> s <> "".
Proof.
  intros Hall Hi ->. apply every_nonempty_lookup in Hi. congruence.
Qed.

Lemma value_cases (value : string) :
  value = "" \/ test_digit value = true
  \/ (1 < String.length value \/ (String.length value = 1 /\ test_digit value = false)).
Proof.
  destruct value as [|c [|d r]]; cbn.
  - by left.
  - destruct (is_digit c); [right; by left | right; right; by right].
  - right; right; left. lia.
Qed.

(** C4. One keystroke issues one verification call exactly when a
    digit is accepted at the last position and every position is then filled,
    and issues none otherwise: never with an unfilled position, and not when
    the sequence is completed at another position. *)
Theorem C4_verification_calls (st : state) (index : nat) (value : string) (e : env) :
  let entered := exec (handlePinChange_sync index value) st in
  let after := exec (handlePinChange index value e) st in
  verification_calls after =
    verification_calls st +
    (if test_digit value && (index =? 5)%nat && every_nonempty (pin entered)
     then 1 else 0).
Proof.
  destruct (value_cases value) as [-> | [Hd | Hrej]].
  - cbn zeta. unfold exec, handlePinChange, mbind, M_bind.
    rewrite handlePinChange_sync_accepted by (by left).
    cbn. rewrite (every_nonempty_lookup _ index) by apply assign_lookup.
    unfold mret, M_ret. count_trace.
  - assert (Hne : String.eqb value "" = false) by (by destruct value).
    cbn zeta. unfold exec at 1 2, handlePinChange, mbind, M_bind.
    rewrite handlePinChange_sync_accepted by (by right).
    rewrite Hd, Hne. cbn zeta.
    set (newPin := assign (spread (pin st)) index value).
    set (st1 := with_error "" (with_pin newPin st)).
    set (moved := negb false && (index <? 5)%nat && has_input (pin st) (index + 1)).
    cbn [snd].
    replace (pin (if moved then with_focused (index + 1) st1 else st1))
      with newPin by (by destruct moved).
    cbn [andb]. rewrite (andb_comm (index =? 5)%nat).
    destruct (every_nonempty newPin && (index =? 5)%nat) eqn:Hgo.
    + change (verification_calls
                (exec (verifyPin (join newPin) e)
                   (if moved then with_focused (index + 1) st1 else st1))
              = verification_calls st + 1).
      rewrite verifyPin_one_call. by destruct moved.
    + unfold mret, M_ret. destruct moved; count_trace.
  - pose proof (handlePinChange_rejected st index value e Hrej) as Hnop.
    cbn zeta. unfold exec. rewrite Hnop. cbn [snd].
    assert (test_digit value = false) as ->.
    { destruct Hrej as [Hl | [_ Hn]]; [|done].
      destruct value as [|c [|]]; cbn in *; try lia; done. }
    count_trace.
Qed.

(** ** What every handler leaves alone *)

Ltac frame_solve :=
  unfold handler_frame, count; cbn;
  rewrite ?List.filter_app, ?length_app; cbn;
  repeat split; try lia;
  first [ exists 0; repeat split; lia | exists 1; repeat split; lia ].

Lemma handler_frame_refl (st : state) : handler_frame st st.
Proof. frame_solve. Qed.

Lemma verifyPin_frame (pinValue : string) (e : env) (st : state) :
  handler_frame st (exec (verifyPin pinValue e) st).
Proof.
  run_M.
  destruct (select_net e); cbn; [|frame_solve..].
  destruct (List.filter (matches userEmail) (table st)) as [|r [|]]; cbn;
    [frame_solve| |frame_solve].
  destruct (pin_hash r) as [h|]; cbn; [|frame_solve].
  destruct (bcrypt_compare pinValue h); cbn.
  - destruct (update_net e); cbn; frame_solve.
  - destruct (has_input (pin st) 0); cbn; frame_solve.
Qed.

Lemma handler_frame_from (st st1 st2 : state) :
  trace st1 = trace st ->
  biometricAvailable st1 = biometricAvailable st ->
  mounted st1 = mounted st ->
  handler_frame st1 st2 -> handler_frame st st2.
Proof. unfold handler_frame. by intros -> -> ->. Qed.

Lemma handlePinChange_frame (index : nat) (value : string) (e : env) (st : state) :
  handler_frame st (exec (handlePinChange index value e) st).
Proof.
  destruct (value_cases value) as [Hok | [Hok | Hrej]].
  3: { unfold exec. rewrite handlePinChange_rejected by done.
       apply handler_frame_refl. }
  all: unfold exec, handlePinChange, mbind, M_bind;
    (rewrite handlePinChange_sync_accepted by tauto); cbn zeta;
    destruct (every_nonempty _ && _);
    destruct (negb _ && _ && _);
    first [ eapply handler_frame_from; [| | |apply verifyPin_frame]; done
          | frame_solve ].
Qed.

Lemma handleKeyDown_frame (index : nat) (key : string) (st : state) :
  handler_frame st (exec (handleKeyDown index key) st).
Proof. run_M. repeat case_match; frame_solve. Qed.

Lemma registerBiometric_run (e : env) (st : state) :
  registerBiometric e st =
    let st0 := log (CredentialsCreate userEmail) st in
    let failed s :=
      with_error "Failed to register biometric"
        (log (ConsoleError "Biometric registration error:") s) in
    match create_result e with
    | Resolves (Some c) =>
        let fields :=
          BiometricFields (id c) (btoa (fromCharCode (attestationObject c))) in
        let st1 := log (Update fields userEmail) st0 in
        let granted s :=
          log SetTimeout
            (log (MessageSuccess "Biometric registered successfully") s) in
        match update_net e with
        | Delivered =>
            (Done tt,
             with_loading false
               (granted
                  (with_table
                     (map (fun r => if matches userEmail r
                                    then apply_payload fields r else r)
                          (table st1)) st1)))
        | Failed => (Done tt, with_loading false (granted st1))
        | Rejected => (Done tt, with_loading false (failed st1))
        end
    | Resolves None => (Done tt, with_loading false st0)
    | Rejects => (Done tt, with_loading false (failed st0))
    end.
Proof.
  run_M. destruct (create_result e) as [[c|]|]; cbn; try done.
  by destruct (update_net e).
Qed.

Lemma authenticateBiometric_run (credentialId : string) (e : env) (st : state) :
  authenticateBiometric credentialId e st =
    let failed s :=
      with_error "Biometric verification failed"
        (log (ConsoleError "Biometric authentication error:") s) in
    match atob credentialId with
    | Some allow_id =>
        let st0 := log (CredentialsGet allow_id) st in
        match get_result e with
        | Resolves (Some _) =>
            (Done tt,
             with_loading false
               (log SetTimeout (log (MessageSuccess "Biometric verified") st0)))
        | Resolves None => (Done tt, with_loading false st0)
        | Rejects => (Done tt, with_loading false (failed st0))
        end
    | None => (Done tt, with_loading false (failed st))
    end.
Proof.
  run_M. destruct (atob credentialId); cbn; try done.
  by destruct (get_result e) as [[a|]|].
Qed.

Lemma handleBiometricAuth_run (e : env) (st : state) :
  handleBiometricAuth e st =
    let st0 := log biometric_lookup (with_error "" (with_loading true st)) in
    match select_net e with
    | Delivered =>
        match credential_on_file
                (data (single (map select_biometric
                                 (List.filter (matches userEmail) (table st)))))
        with
        | Some credentialId => authenticateBiometric credentialId e st0
        | None => registerBiometric e st0
        end
    | Failed => registerBiometric e st0
    | Rejected =>
        (Done tt,
         with_loading false
           (with_error "Biometric authentication failed"
              (log (ConsoleError "Biometric auth error:") st0)))
    end.
Proof.
  unfold handleBiometricAuth, try_catch, select_single, biometric_lookup.
  unfold mbind, M_bind, setLoading, setError, emit, modify, gets, mret, M_ret.
  cbn.
  destruct (select_net e); cbn; try done.
  - destruct (credential_on_file _) as [i|].
    + rewrite authenticateBiometric_run. cbn.
      destruct (atob i); [|done]. by destruct (get_result e) as [[a|]|].
    + rewrite registerBiometric_run. cbn.
      destruct (create_result e) as [[c|]|]; try done.
      by destruct (update_net e).
  - rewrite registerBiometric_run. cbn.
    destruct (create_result e) as [[c|]|]; try done.
    by destruct (update_net e).
Qed.

Lemma registerBiometric_frame (e : env) (st : state) :
  handler_frame st (exec (registerBiometric e) st).
Proof.
  unfold exec. rewrite registerBiometric_run. cbn zeta.
  destruct (create_result e) as [[c|]|]; [|frame_solve..].
  destruct (update_net e); frame_solve.
Qed.

Lemma authenticateBiometric_frame (credentialId : string) (e : env) (st : state) :
  handler_frame st (exec (authenticateBiometric credentialId e) st).
Proof.
  unfold exec. rewrite authenticateBiometric_run. cbn zeta.
  destruct (atob credentialId); [|frame_solve].
  destruct (get_result e) as [[a|]|]; frame_solve.
Qed.

Lemma handleBiometricAuth_frame (e : env) (st : state) :
  handler_frame st (exec (handleBiometricAuth e) st).
Proof.
  unfold exec. rewrite handleBiometricAuth_run. cbn zeta.
  set (st0 := log _ (with_error "" (with_loading true st))).
  assert (Hst0 : forall st2, handler_frame st0 st2 -> handler_frame st st2).
  { intros st2. unfold handler_frame, count. subst st0. cbn.
    rewrite !List.filter_app, !length_app. cbn. by rewrite !Nat.add_0_r. }
  destruct (select_net e).
  - destruct (credential_on_file _) as [i|]; apply Hst0.
    + apply authenticateBiometric_frame.
    + apply registerBiometric_frame.
  - apply Hst0, registerBiometric_frame.
  - apply Hst0. frame_solve.
Qed.

(** ** Sessions *)

Lemma step_cases (st : state) (ev : event) :
  handler_frame st (step st ev)
  \/ (ev = TimerFires /\ 0 < pending st /\ step st ev = log OnSuccess st)
  \/ (ev = Unmount /\ step st ev = with_mounted false st).
Proof.
  destruct ev as [index value e|index key|e| | |]; cbn.
  - left. case_match; [apply handlePinChange_frame | apply handler_frame_refl].
  - left. case_match; [apply handleKeyDown_frame | apply handler_frame_refl].
  - left. case_match; [apply handleBiometricAuth_frame | apply handler_frame_refl].
  - left. case_match; [frame_solve | apply handler_frame_refl].
  - case_decide; [right; left; done | left; apply handler_frame_refl].
  - right; right; done.
Qed.

Lemma step_biometricAvailable (st : state) (ev : event) :
  biometricAvailable (step st ev) = biometricAvailable st.
Proof.
  destruct (step_cases st ev) as [(H & _) | [(_ & _ & ->) | (_ & ->)]]; done.
Qed.

Lemma run_biometricAvailable (evs : list event) (st : state) :
  biometricAvailable (run st evs) = biometricAvailable st.
Proof.
  revert st. induction evs as [|ev evs IH]; intros st; [done|].
  cbn. fold (run (step st ev) evs). by rewrite IH, step_biometricAvailable.
Qed.

Lemma mount_trace (w : platform) (st : state) : trace (mount w st) = trace st.
Proof.
  unfold mount. run_M. destruct w as [[b|]|]; cbn; by case_match.
Qed.

Lemma verifyPin_no_ceremony (pinValue : string) (e : env) (st : state) :
  count is_ceremony (trace (exec (verifyPin pinValue e) st))
  = count is_ceremony (trace st).
Proof.
  run_M.
  destruct (select_net e); cbn; [|frame_solve..].
  destruct (List.filter (matches userEmail) (table st)) as [|r [|]]; cbn;
    [frame_solve| |frame_solve].
  destruct (pin_hash r) as [h|]; cbn; [|frame_solve].
  destruct (bcrypt_compare pinValue h); cbn.
  - destruct (update_net e); cbn; frame_solve.
  - destruct (has_input (pin st) 0); cbn; frame_solve.
Qed.

Lemma handlePinChange_no_ceremony (index : nat) (value : string) (e : env) (st : state) :
  count is_ceremony (trace (exec (handlePinChange index value e) st))
  = count is_ceremony (trace st).
Proof.
  destruct (value_cases value) as [Hok | [Hok | Hrej]].
  3: { unfold exec. by rewrite handlePinChange_rejected. }
  all: unfold exec, handlePinChange, mbind, M_bind;
    (rewrite handlePinChange_sync_accepted by tauto); cbn zeta;
    destruct (every_nonempty _ && _);
    destruct (negb _ && _ && _);
    cbv beta iota;
    first [ done
          | match goal with
            | |- context [verifyPin ?p ?e' ?s] =>
                pose proof (verifyPin_no_ceremony p e' s) as Hv
            end; unfold exec in Hv; by rewrite Hv ].
Qed.

(** While the biometric option is hidden, no event starts a ceremony. *)
Lemma step_no_ceremony (st : state) (ev : event) :
  biometricAvailable st = false ->
  count is_ceremony (trace (step st ev)) = count is_ceremony (trace st).
Proof.
  intros Hoff.
  destruct ev as [index value e|index key|e| | |]; cbn [step].
  - case_match; [apply handlePinChange_no_ceremony | done].
  - case_match; [|done]. run_M. by repeat case_match.
  - by rewrite Hoff, andb_false_r.
  - by case_match.
  - case_decide; [|done]. cbn [trace log]. rewrite count_app. by rewrite Nat.add_0_r.
  - done.
Qed.

Lemma run_no_ceremony (evs : list event) (st : state) :
  biometricAvailable st = false ->
  count is_ceremony (trace (run st evs)) = count is_ceremony (trace st).
Proof.
  revert st. induction evs as [|ev evs IH]; intros st Hoff; [done|].
  cbn. fold (run (step st ev) evs).
  rewrite IH by (by rewrite step_biometricAvailable).
  by apply step_no_ceremony.
Qed.

(** C7. When the platform has no authenticator API, or its capability probe
    answers false, no session ever renders the biometric option, whatever the
    credential table holds, and no session asks the platform for a
    ceremony. *)
Theorem C7_biometric_hidden (w : platform) (t : list cred_row) (evs : list event) :
  w = None \/ w = Some (Resolves false) ->
  biometric_button (render (session w t evs)) = None
  /\ count is_ceremony (trace (session w t evs)) = 0.
Proof.
  intros Hw.
  assert (Hoff : biometricAvailable (mount w (init t)) = false)
    by (by destruct Hw as [-> | ->]).
  unfold session, render. cbn [biometric_button]. split.
  - by rewrite run_biometricAvailable, Hoff.
  - rewrite run_no_ceremony by done. by rewrite mount_trace.
Qed.

Lemma step_callbacks_accounted (st : state) (ev : event) :
  callbacks_accounted st -> callbacks_accounted (step st ev).
Proof.
  unfold callbacks_accounted. intros [Hset Hrun].
  destruct (step_cases st ev)
    as [(_ & _ & Hon & k & _ & Hs & Hg) | [(_ & Hpend & ->) | (_ & ->)]].
  - lia.
  - unfold pending in Hpend. cbn [trace log]. rewrite !count_app.
    unfold count in *. cbn. lia.
  - done.
Qed.

Lemma run_callbacks_accounted (evs : list event) (st : state) :
  callbacks_accounted st -> callbacks_accounted (run st evs).
Proof.
  revert st. induction evs as [|ev evs IH]; intros st H; [done|].
  cbn. apply IH. by apply step_callbacks_accounted.
Qed.

(** C5. In every session each grant sets exactly one timer for the
    success callback, the callback is never run more often than grants have
    been announced, and one event announces at most one grant.  The gate keeps
    no granted state: nothing bounds the number of grants in a session. *)
Theorem C5_one_callback_per_grant (w : platform) (t : list cred_row) (evs : list event) :
  let s := session w t evs in
  count is_SetTimeout (trace s) = count is_grant (trace s)
  /\ count is_OnSuccess (trace s) <= count is_grant (trace s)
  /\ forall ev, count is_grant (trace (step s ev)) <= count is_grant (trace s) + 1.
Proof.
  cbn zeta.
  assert (Hacc : callbacks_accounted (session w t evs)).
  { apply run_callbacks_accounted. unfold callbacks_accounted.
    rewrite mount_trace. cbn. lia. }
  destruct Hacc as [Hset Hrun]. repeat split; [done..|].
  intros ev.
  destruct (step_cases (session w t evs) ev)
    as [(_ & _ & _ & k & Hk & _ & ->) | [(_ & _ & ->) | (_ & ->)]].
  - lia.
  - cbn [trace log]. rewrite count_app. unfold count. cbn. lia.
  - cbn [trace with_mounted]. lia.
Qed.

(** ** C8: which ceremony the biometric flow runs *)

Lemma btoa_nonempty (buf : list Byte.byte) :
  buf <> [] -> btoa (fromCharCode buf) <> "".
Proof.
  intros Hbuf. unfold btoa, fromCharCode.
  rewrite list_ascii_of_string_of_list_ascii.
  destruct buf as [|a [|b [|c r]]]; [done|..]; by cbn [map b64_encode].
Qed.

Lemma filter_update (fields : payload) (t : list cred_row) :
  List.filter (matches userEmail)
    (map (fun r => if matches userEmail r then apply_payload fields r else r) t)
  = map (apply_payload fields) (List.filter (matches userEmail) t).
Proof.
  induction t as [|r t IH]; [done|]. cbn.
  destruct (matches userEmail r) eqn:Hr.
  - assert (matches userEmail (apply_payload fields r) = true) as ->
      by (by destruct fields).
    cbn. by rewrite IH.
  - by rewrite Hr.
Qed.

(** C8. Every invocation of the biometric flow, whatever the world answers.
    The platform is asked for a new credential, once, when the lookup is
    answered and finds no credential id on file, and also when the lookup
    resolves with an error, whatever is on file.  It is asked for an
    assertion, once, when the lookup is answered with an id on file that
    [atob] decodes.  In every other case it is asked for nothing, and it is
    never asked for both.  An invocation that does not register writes
    nothing to the table.  When the registration runs, its ceremony yields a
    credential and the write is delivered to the user's record, that record
    afterwards holds the new credential's id and public key, both non-empty,
    and the next answered lookup finds the id on file. *)
Theorem C8_biometric_flow (st : state) (e : env) :
  let after := exec (handleBiometricAuth e) st in
  let registers :=
    match select_net e, on_file st with
    | Delivered, None | Failed, _ => true
    | _, _ => false
    end in
  let asserts :=
    match select_net e, on_file st with
    | Delivered, Some credentialId =>
        match atob credentialId with Some _ => true | None => false end
    | _, _ => false
    end in
  count is_create (trace after) =
    count is_create (trace st) + (if registers then 1 else 0)
  /\ count is_get (trace after) =
       count is_get (trace st) + (if asserts then 1 else 0)
  /\ (registers = false -> table after = table st)
  /\ (registers = true ->
      forall c r,
        create_result e = Resolves (Some c) ->
        update_net e = Delivered ->
        id c <> "" ->
        attestationObject c <> [] ->
        List.filter (matches userEmail) (table st) = [r] ->
        exists r',
          List.filter (matches userEmail) (table after) = [r']
          /\ biometric_credential_id r' = Some (id c)
          /\ (exists k, biometric_public_key r' = Some k /\ k <> "")
          /\ on_file after = Some (id c)).
Proof.
  cbn zeta. unfold exec. rewrite handleBiometricAuth_run. cbn zeta.
  fold (on_file st).
  assert (Hregister :
    let st0 := log biometric_lookup (with_error "" (with_loading true st)) in
    let after := snd (registerBiometric e st0) in
    count is_create (trace after) = count is_create (trace st) + 1
    /\ count is_get (trace after) = count is_get (trace st) + 0
    /\ forall c r,
         create_result e = Resolves (Some c) ->
         update_net e = Delivered ->
         id c <> "" ->
         attestationObject c <> [] ->
         List.filter (matches userEmail) (table st) = [r] ->
         exists r',
           List.filter (matches userEmail) (table after) = [r']
           /\ biometric_credential_id r' = Some (id c)
           /\ (exists k, biometric_public_key r' = Some k /\ k <> "")
           /\ on_file after = Some (id c)).
  { cbn zeta. rewrite registerBiometric_run. cbn zeta. split_and!.
    - destruct (create_result e) as [[c|]|]; [destruct (update_net e)|..];
        cbn; unfold count; rewrite ?List.filter_app, ?length_app; cbn; lia.
    - destruct (create_result e) as [[c|]|]; [destruct (update_net e)|..];
        cbn; unfold count; rewrite ?List.filter_app, ?length_app; cbn; lia.
    - intros c r -> -> Hid Hatt Hrow.
      unfold on_file. cbn [snd table with_loading with_error log with_table].
      rewrite filter_update, Hrow. cbn.
      eexists. split; [done|]. cbn. split; [done|]. split.
      + eexists. split; [done|]. by apply btoa_nonempty.
      + by destruct (String.eqb_spec (id c) ""). }
  cbn zeta in Hregister. destruct Hregister as (Hc & Hg & Hstored).
  destruct (select_net e).
  - destruct (on_file st) as [i|].
    + rewrite authenticateBiometric_run. cbn zeta.
      destruct (atob i); [destruct (get_result e) as [[a|]|]|];
        cbn; unfold count; rewrite ?List.filter_app, ?length_app; cbn;
        split_and!; (lia || done).
    + split_and!; done.
  - split_and!; done.
  - cbn; unfold count; rewrite ?List.filter_app, ?length_app; cbn.
    split_and!; (lia || done).
Qed.

(** ** C10: the stored public key *)

Lemma filter_forget (t : list cred_row) :
  List.filter (matches userEmail) (map forget_public_key t)
  = map forget_public_key (List.filter (matches userEmail) t).
Proof.
  induction t as [|r t IH]; [done|]. cbn [map List.filter].
  change (matches userEmail (forget_public_key r)) with (matches userEmail r).
  destruct (matches userEmail r); cbn [map]; by rewrite IH.
Qed.

Lemma on_file_forget (st : state) : on_file (forget st) = on_file st.
Proof.
  unfold on_file, forget. cbn [table with_table].
  rewrite filter_forget.
  by destruct (List.filter (matches userEmail) (table st)) as [|r [|]].
Qed.

Lemma state_ext (s s' : state) :
  pin s = pin s' -> error s = error s' -> loading s = loading s' ->
  biometricAvailable s = biometricAvailable s' -> focused s = focused s' ->
  table s = table s' -> trace s = trace s' -> mounted s = mounted s' ->
  s = s'.
Proof. destruct s, s'; cbn; congruence. Qed.

Lemma forget_fields (st1 st2 : state) :
  forget st1 = forget st2 ->
  pin st1 = pin st2 /\ error st1 = error st2 /\ loading st1 = loading st2
  /\ biometricAvailable st1 = biometricAvailable st2
  /\ focused st1 = focused st2 /\ trace st1 = trace st2
  /\ mounted st1 = mounted st2.
Proof. destruct st1, st2. cbn. intros [= -> -> -> -> -> _ -> ->]. done. Qed.

(** C10. On the assertion path the stored public key plays no part: two
    states that differ only in stored public keys give the same result, the
    same component state and the same effects, and leave their tables as they
    were; what is done depends on the stored credential id and on what the
    platform answers, a grant being announced exactly when the platform
    returns a non-null assertion. *)
Theorem C10_public_key_unused (st1 st2 : state) (e : env) (credentialId : string) :
  forget st1 = forget st2 ->
  select_net e = Delivered ->
  on_file st1 = Some credentialId ->
  let r1 := handleBiometricAuth e st1 in
  let r2 := handleBiometricAuth e st2 in
  fst r1 = fst r2
  /\ forget (snd r1) = forget (snd r2)
  /\ table (snd r1) = table st1
  /\ table (snd r2) = table st2
  /\ trace (snd r1) =
       trace st1 ++ biometric_lookup :: assertion_effects credentialId e.
Proof.
  intros Hsame Hsel Hfile.
  assert (Hfile2 : on_file st2 = Some credentialId)
    by (by rewrite <- on_file_forget, <- Hsame, on_file_forget).
  cbn zeta. rewrite !handleBiometricAuth_run, Hsel. cbn zeta.
  fold (on_file st1) (on_file st2). rewrite Hfile, Hfile2.
  rewrite !authenticateBiometric_run. unfold assertion_effects. cbn zeta.
  apply forget_fields in Hsame as Hf.
  destruct Hf as (Hpin & Herr & Hload & Hbio & Hfoc & Htr & Hmnt).
  assert (Htab : map forget_public_key (table st1) = map forget_public_key (table st2))
    by (by apply (f_equal table) in Hsame).
  clear Hsame Hfile Hfile2.
  destruct (atob credentialId); [destruct (get_result e) as [[a|]|]|];
    cbn [fst snd]; (split; [reflexivity|]);
    (split;
     [ apply state_ext;
       cbn [forget pin error loading biometricAvailable focused table trace
            mounted with_table with_loading with_error log];
       congruence |]);
    cbn [table trace with_loading with_error log];
    rewrite <- ?app_assoc; repeat split; reflexivity.
Qed.

(** ** The entry state of a session *)

Lemma six_inputs_has_input (p : list slot) (i : nat) :
  six_inputs p -> i < 6 -> has_input p i = true.
Proof.
  intros [Hlen Htext] Hi. unfold has_input.
  destruct p as [|x0 [|x1 [|x2 [|x3 [|x4 [|x5 [|]]]]]]]; try done.
  destruct x0, x1, x2, x3, x4, x5; try done.
  do 6 (destruct i as [|i]; [done|]). lia.
Qed.

(** On six inputs the test of [handlePinChange] says that every position
    holds a non-empty string. *)
Lemma every_nonempty_six (p : list slot) :
  six_inputs p ->
  every_nonempty p = true <->
  forall i, i < 6 -> exists s, p !! i = Some (Str s) /\ s <> "".
Proof.
  intros [Hlen Htext].
  destruct p as [|x0 [|x1 [|x2 [|x3 [|x4 [|x5 [|]]]]]]]; try done.
  destruct x0 as [| |s0], x1 as [| |s1], x2 as [| |s2], x3 as [| |s3],
    x4 as [| |s4], x5 as [| |s5]; try done.
  unfold every_nonempty. cbn [forallb nonempty]. split.
  - intros H i Hi.
    repeat (apply andb_prop in H as [?%negb_true_iff%String.eqb_neq H]).
    do 6 (destruct i as [|i]; [by eexists|]). lia.
  - intros H.
    destruct (H 0) as (? & [= <-] & N0%String.eqb_neq); [lia|].
    destruct (H 1) as (? & [= <-] & N1%String.eqb_neq); [lia|].
    destruct (H 2) as (? & [= <-] & N2%String.eqb_neq); [lia|].
    destruct (H 3) as (? & [= <-] & N3%String.eqb_neq); [lia|].
    destruct (H 4) as (? & [= <-] & N4%String.eqb_neq); [lia|].
    destruct (H 5) as (? & [= <-] & N5%String.eqb_neq); [lia|].
    by rewrite N0, N1, N2, N3, N4, N5.
Qed.

Lemma has_input_lt (p : list slot) (i : nat) :
  has_input p i = true -> i < length p.
Proof.
  unfold has_input. intros H. apply lookup_lt_is_Some.
  destruct (p !! i); [by eexists | done].
Qed.

Lemma spread_text (p : list slot) : forallb is_text p = true -> spread p = p.
Proof.
  unfold spread.
  induction p as [|x p IH]; [done|]. cbn. intros [Hx Hp]%andb_prop.
  rewrite IH by done. by destruct x.
Qed.

Lemma forallb_insert (p : list slot) (i : nat) (v : string) :
  forallb is_text p = true -> forallb is_text (<[i := Str v]> p) = true.
Proof.
  revert i. induction p as [|x p IH]; intros i; [done|].
  cbn. intros [Hx Hp]%andb_prop.
  destruct i as [|i]; cbn; [done|]. by rewrite Hx, IH.
Qed.

Lemma assign_six_inputs (p : list slot) (i : nat) (v : string) :
  six_inputs p -> has_input p i = true -> six_inputs (assign (spread p) i v).
Proof.
  intros [Hlen Htext] Hi%has_input_lt.
  rewrite spread_text by done. unfold assign.
  case_decide; [|lia]. split.
  - by rewrite length_insert.
  - by apply forallb_insert.
Qed.

Lemma verifyPin_pin (pinValue : string) (e : env) (st : state) :
  pin (exec (verifyPin pinValue e) st) = pin st
  \/ pin (exec (verifyPin pinValue e) st) = empty_pin.
Proof.
  run_M.
  destruct (select_net e); cbn; [|by left..].
  destruct (List.filter (matches userEmail) (table st)) as [|r [|]]; cbn;
    [by left| |by left].
  destruct (pin_hash r) as [h|]; cbn; [|by left].
  destruct (bcrypt_compare pinValue h); cbn.
  - destruct (update_net e); cbn; by left.
  - destruct (has_input (pin st) 0); cbn; by right.
Qed.

Lemma handleBiometricAuth_pin (e : env) (st : state) :
  pin (exec (handleBiometricAuth e) st) = pin st.
Proof.
  unfold exec. rewrite handleBiometricAuth_run. cbn zeta.
  destruct (select_net e); [destruct (credential_on_file _)| |];
    rewrite ?authenticateBiometric_run, ?registerBiometric_run; cbn zeta;
    repeat case_match; done.
Qed.

Lemma step_six_inputs (st : state) (ev : event) :
  six_inputs (pin st) -> six_inputs (pin (step st ev)).
Proof.
  intros Hsix.
  destruct ev as [index value e|index key|e| | |]; cbn.
  - destruct (mounted st && has_input (pin st) index && negb (loading st)) eqn:Hg;
      [|done].
    apply andb_prop in Hg as [[_ Hin]%andb_prop _].
    destruct (value_cases value) as [Hok | [Hok | Hrej]].
    3: { unfold exec. by rewrite handlePinChange_rejected. }
    all: unfold exec, handlePinChange, mbind, M_bind;
      (rewrite handlePinChange_sync_accepted by tauto); cbn zeta;
      set (st1 := if negb _ && _ && _ then _ else _);
      assert (Hst1 : six_inputs (pin st1))
        by (subst st1; case_match; cbn; by apply assign_six_inputs);
      destruct (every_nonempty _ && (index =? 5)%nat); cbv beta iota;
      [|exact Hst1];
      match goal with
      | |- context [verifyPin ?p ?e' ?s] =>
          destruct (verifyPin_pin p e' s) as [Hv | Hv]
      end; unfold exec in Hv; rewrite Hv; done.
  - case_match; [|done]. run_M. by repeat case_match.
  - case_match; [|done]. by rewrite handleBiometricAuth_pin.
  - by case_match.
  - by case_decide.
  - done.
Qed.

Lemma session_six_inputs (w : platform) (t : list cred_row) (evs : list event) :
  six_inputs (pin (session w t evs)).
Proof.
  unfold session.
  assert (H0 : six_inputs (pin (mount w (init t)))).
  { unfold mount. run_M. by destruct w as [[b|]|]. }
  revert H0. generalize (mount w (init t)).
  induction evs as [|ev evs IH]; intros st H; [done|].
  cbn. apply IH. by apply step_six_inputs.
Qed.


(** ** Entering six digits in order *)

(** A digit typed into one of the first five positions. *)
Lemma step_digit (st : state) (index : nat) (value : string) (e : env) :
  mounted st = true -> loading st = false -> six_inputs (pin st) ->
  index < 5 -> test_digit value = true ->
  let st' := step st (Change index value e) in
  mounted st' = true /\ loading st' = false /\ trace st' = trace st
  /\ pin st' = <[index := Str value]> (pin st).
Proof.
  intros Hm Hl Hsix Hi Hd.
  assert (Hne : String.eqb value "" = false) by (by destruct value).
  cbn zeta. cbn [step].
  rewrite Hm, Hl, (six_inputs_has_input _ index) by (done || lia).
  cbn [andb negb].
  unfold exec, handlePinChange, mbind, M_bind.
  rewrite handlePinChange_sync_accepted by (by right). cbn zeta.
  rewrite Hne, (six_inputs_has_input _ (index + 1)) by (done || lia).
  destruct (Nat.ltb_spec index 5); [|lia].
  destruct (Nat.eqb_spec index 5); [lia|].
  rewrite andb_false_r. cbn [negb andb snd].
  unfold mret, M_ret.
  cbn [snd mounted loading trace pin with_focused with_error with_pin].
  destruct Hsix as [Hlen Htext].
  rewrite spread_text by done. unfold assign.
  case_decide; [done | lia].
Qed.

Lemma append_empty (s : string) : (s ++ "")%string = s.
Proof.
  induction s as [|c s IH]; [done|].
  change (String c (s ++ "")%string = String c s). by rewrite IH.
Qed.

(** A digit typed into the last position when the other five are filled. *)
Lemma step_last (st : state) (v0 v1 v2 v3 v4 v5 : string) (e : env) :
  mounted st = true -> loading st = false ->
  pin st = [Str v0; Str v1; Str v2; Str v3; Str v4; Str ""] ->
  Forall (fun v => test_digit v = true) [v0; v1; v2; v3; v4; v5] ->
  step st (Change 5 v5 e) =
    exec (verifyPin (v0 ++ v1 ++ v2 ++ v3 ++ v4 ++ v5)%string e)
      (with_error ""
         (with_pin [Str v0; Str v1; Str v2; Str v3; Str v4; Str v5] st)).
Proof.
  intros Hm Hl Hp Hall.
  assert (Hne : forall v, test_digit v = true -> nonempty (Str v) = true)
    by (by intros [|? [|]]).
  apply Forall_cons in Hall as [N0%Hne Hall].
  apply Forall_cons in Hall as [N1%Hne Hall].
  apply Forall_cons in Hall as [N2%Hne Hall].
  apply Forall_cons in Hall as [N3%Hne Hall].
  apply Forall_cons in Hall as [N4%Hne Hall].
  apply Forall_cons in Hall as [H5 _].
  pose proof (Hne _ H5) as N5.
  cbn [step]. rewrite Hm, Hl, Hp. cbn [has_input lookup list_lookup andb negb].
  unfold exec, handlePinChange, mbind, M_bind.
  rewrite handlePinChange_sync_accepted by (by right). cbn zeta.
  rewrite Hp. unfold assign.
  destruct (decide (5 < length (spread [Str v0; Str v1; Str v2; Str v3; Str v4; Str ""])))
    as [_|Hge]; [|cbn in Hge; lia].
  cbn [spread map list_insert insert every_nonempty forallb join Nat.ltb Nat.leb
       Nat.eqb].
  rewrite N0, N1, N2, N3, N4, N5. cbn [andb].
  rewrite andb_false_r, append_empty. reflexivity.
Qed.

(** X15. Six digits typed into the six positions in order make exactly one
    call of [verifyPin], at the sixth keystroke and not before, and the value
    submitted is the six digits in the order typed. *)
Lemma in_order_entry (w : platform) (t : list cred_row)
    (v0 v1 v2 v3 v4 v5 : string) (e0 e1 e2 e3 e4 e5 : env) :
  Forall (fun v => test_digit v = true) [v0; v1; v2; v3; v4; v5] ->
  let evs := [Change 0 v0 e0; Change 1 v1 e1; Change 2 v2 e2;
              Change 3 v3 e3; Change 4 v4 e4; Change 5 v5 e5] in
  (forall k, k < 6 -> verification_calls (session w t (take k evs)) = 0)
  /\ verification_calls (session w t evs) = 1
  /\ exists st, session w t evs =
       exec (verifyPin (v0 ++ v1 ++ v2 ++ v3 ++ v4 ++ v5)%string e5) st.
Proof.
  intros Hall. pose proof Hall as Hall'.
  apply Forall_cons in Hall' as [H0 Hall']. apply Forall_cons in Hall' as [H1 Hall'].
  apply Forall_cons in Hall' as [H2 Hall']. apply Forall_cons in Hall' as [H3 Hall'].
  apply Forall_cons in Hall' as [H4 _].
  cbn zeta. unfold session, run. cbn [foldl].
  assert (Hs0 : mounted (mount w (init t)) = true
                /\ loading (mount w (init t)) = false
                /\ trace (mount w (init t)) = []
                /\ pin (mount w (init t)) = empty_pin).
  { unfold mount. run_M. by destruct w as [[b|]|]. }
  generalize dependent (mount w (init t)). intros s0 (Hm0 & Hl0 & Ht0 & Hp0).
  destruct (step_digit s0 0 v0 e0) as (Hm1 & Hl1 & Ht1 & Hp1);
    [done | done | by rewrite Hp0 | lia | done |].
  remember (step s0 (Change 0 v0 e0)) as s1 eqn:E1.
  rewrite Hp0 in Hp1. cbn in Hp1. rewrite Ht0 in Ht1.
  destruct (step_digit s1 1 v1 e1) as (Hm2 & Hl2 & Ht2 & Hp2);
    [done | done | by rewrite Hp1 | lia | done |].
  remember (step s1 (Change 1 v1 e1)) as s2 eqn:E2.
  rewrite Hp1 in Hp2. cbn in Hp2. rewrite Ht1 in Ht2.
  destruct (step_digit s2 2 v2 e2) as (Hm3 & Hl3 & Ht3 & Hp3);
    [done | done | by rewrite Hp2 | lia | done |].
  remember (step s2 (Change 2 v2 e2)) as s3 eqn:E3.
  rewrite Hp2 in Hp3. cbn in Hp3. rewrite Ht2 in Ht3.
  destruct (step_digit s3 3 v3 e3) as (Hm4 & Hl4 & Ht4 & Hp4);
    [done | done | by rewrite Hp3 | lia | done |].
  remember (step s3 (Change 3 v3 e3)) as s4 eqn:E4.
  rewrite Hp3 in Hp4. cbn in Hp4. rewrite Ht3 in Ht4.
  destruct (step_digit s4 4 v4 e4) as (Hm5 & Hl5 & Ht5 & Hp5);
    [done | done | by rewrite Hp4 | lia | done |].
  remember (step s4 (Change 4 v4 e4)) as s5 eqn:E5.
  rewrite Hp4 in Hp5. cbn in Hp5. rewrite Ht4 in Ht5.
  rewrite (step_last s5 v0 v1 v2 v3 v4 v5 e5) by done.
  split; [|split].
  - intros k Hk. unfold verification_calls.
    do 6 (destruct k as [|k];
          [cbn [take foldl]; rewrite <- ?E1, <- ?E2, <- ?E3, <- ?E4, <- ?E5;
           by rewrite ?Ht0, ?Ht1, ?Ht2, ?Ht3, ?Ht4, ?Ht5 |]).
    lia.
  - rewrite verifyPin_one_call. unfold verification_calls. cbn [trace with_error with_pin].
    by rewrite Ht5.
  - by eexists.
Qed.

(** * Further properties of the gate *)

(** ** [verifyPin], in direct style *)

Lemma verifyPin_run (pinValue : string) (e : env) (st : state) :
  verifyPin pinValue e st =
    let st0 := log (Select "pin_hash" userEmail)
                 (with_error "" (with_loading true st)) in
    let caught s :=
      with_loading false
        (with_error "Authentication error"
           (log (ConsoleError "PIN verification error:") s)) in
    let not_found :=
      with_loading false (with_error "Access credentials not found" st0) in
    match select_net e with
    | Delivered =>
        match List.filter (matches userEmail) (table st) with
        | [r] =>
            match pin_hash r with
            | Some h =>
                if bcrypt_compare pinValue h then
                  let fields := AuditFields (now e) 1 in
                  let st1 := log (Update fields userEmail) st0 in
                  let granted s :=
                    with_loading false
                      (log SetTimeout (log (MessageSuccess "Access Granted") s)) in
                  match update_net e with
                  | Delivered =>
                      (Done tt,
                       granted
                         (with_table
                            (map (fun r => if matches userEmail r
                                           then apply_payload fields r else r)
                                 (table st1)) st1))
                  | Failed => (Done tt, granted st1)
                  | Rejected => (Done tt, caught st1)
                  end
                else
                  let st1 :=
                    with_pin empty_pin
                      (with_error "Invalid PIN. Access Denied." st0) in
                  (Done tt, with_loading false st1)
            | None => (Done tt, caught st0)
            end
        | _ => (Done tt, not_found)
        end
    | Failed => (Done tt, not_found)
    | Rejected => (Done tt, caught st0)
    end.
Proof.
  run_M.
  destruct (select_net e); cbn; try done.
  destruct (List.filter (matches userEmail) (table st)) as [|r [|]]; cbn;
    try done.
  destruct (pin_hash r) as [h|]; cbn; try done.
  destruct (bcrypt_compare pinValue h); cbn; [|done].
  by destruct (update_net e).
Qed.

(** Counting in the trace a flow leaves. *)
Ltac tally :=
  cbn [fst snd trace log with_pin with_error with_loading with_focused
       with_table with_biometricAvailable with_mounted] in *;
  unfold count in *;
  rewrite ?List.filter_app, ?length_app in *;
  cbn [List.filter length is_grant is_SetTimeout is_OnSuccess is_audit_update
       is_biometric_update is_create is_get is_ceremony is_pin_lookup
       is_console_error biometric_lookup orb String.eqb Ascii.eqb Bool.eqb] in *;
  try lia.

(** ** Who is granted access by PIN *)

(** X1. With a stored hash generated from [p], an answered lookup and an
    audit write that does not reject, a submitted PIN is granted exactly when
    it is [p]; any other PIN is denied with the invalid-PIN message and
    nothing but the lookup is issued. *)
Theorem verifyPin_grants_iff (st : state) (e : env) (h p q : string) :
  generated_from h p ->
  stored_hash st h ->
  select_net e = Delivered ->
  update_net e <> Rejected ->
  let after := exec (verifyPin q e) st in
  (count is_grant (trace after) = count is_grant (trace st) + 1 <-> q = p)
  /\ (q <> p ->
      error after = "Invalid PIN. Access Denied."
      /\ trace after = trace st ++ [Select "pin_hash" userEmail]).
Proof.
  intros Hgen (r & Hrows & Hhash) Hsel Hupd. cbn zeta.
  unfold exec. rewrite verifyPin_run, Hsel, Hrows, Hhash. cbn zeta.
  destruct (bcrypt_compare q h) eqn:Hq.
  - apply Hgen in Hq as ->.
    destruct (update_net e); [| |done]; cbn [snd]; (split; [|done]);
      split; [done| |done|]; intros _; tally.
  - assert (Hne : q <> p) by (intros ->; by rewrite (proj2 (Hgen p) eq_refl) in Hq).
    cbn [snd]. split.
    + split; [|done]. destruct (has_input (pin st) 0); tally.
    + intros _. by destruct (has_input (pin st) 0).
Qed.

(** X2. Whatever the world answers, [verifyPin] announces a grant, or issues
    an audit update, only if the lookup was answered with exactly one record
    of the user whose stored hash [bcrypt.compare] accepts for the submitted
    PIN. *)
Theorem verifyPin_grant_sound (st : state) (e : env) (pinValue : string) :
  let after := exec (verifyPin pinValue e) st in
  count is_grant (trace after) <> count is_grant (trace st)
  \/ count is_audit_update (trace after) <> count is_audit_update (trace st) ->
  select_net e = Delivered
  /\ exists r h,
       List.filter (matches userEmail) (table st) = [r]
       /\ pin_hash r = Some h
       /\ bcrypt_compare pinValue h = true.
Proof.
  cbn zeta. unfold exec. rewrite verifyPin_run. cbn zeta.
  destruct (select_net e); [| intros [H|H]; exfalso; revert H; tally..].
  destruct (List.filter (matches userEmail) (table st)) as [|r [|]] eqn:Hrows;
    [intros [H|H]; exfalso; revert H; tally | | intros [H|H]; exfalso; revert H; tally].
  destruct (pin_hash r) as [h|] eqn:Hhash;
    [|intros [H|H]; exfalso; revert H; tally].
  destruct (bcrypt_compare pinValue h) eqn:Hcmp.
  - intros _. split; [done|]. by exists r, h.
  - intros [H|H]; exfalso; revert H; cbn [snd];
      destruct (has_input (pin st) 0); tally.
Qed.

(** ** The gate is always left interactive *)

Lemma verifyPin_loading (pinValue : string) (e : env) (st : state) :
  loading (exec (verifyPin pinValue e) st) = false.
Proof.
  unfold exec. rewrite verifyPin_run. cbn zeta.
  repeat case_match; reflexivity.
Qed.

Lemma handleBiometricAuth_loading (e : env) (st : state) :
  loading (exec (handleBiometricAuth e) st) = false.
Proof.
  unfold exec. rewrite handleBiometricAuth_run. cbn zeta.
  destruct (select_net e); [destruct (credential_on_file _)| |];
    rewrite ?authenticateBiometric_run, ?registerBiometric_run; cbn zeta;
    repeat case_match; reflexivity.
Qed.

Lemma handlePinChange_loading (index : nat) (value : string) (e : env) (st : state) :
  loading st = false -> loading (exec (handlePinChange index value e) st) = false.
Proof.
  intros Hl.
  destruct (value_cases value) as [Hok | [Hok | Hrej]].
  3: { unfold exec. by rewrite handlePinChange_rejected. }
  all: unfold exec, handlePinChange, mbind, M_bind;
    (rewrite handlePinChange_sync_accepted by tauto); cbn zeta;
    destruct (every_nonempty _ && _);
    destruct (negb _ && _ && _);
    cbv beta iota;
    first [ exact Hl | apply verifyPin_loading ].
Qed.

Lemma step_loading (st : state) (ev : event) :
  loading st = false -> loading (step st ev) = false.
Proof.
  intros Hl.
  destruct ev as [index value e|index key|e| | |]; cbn [step].
  - case_match; [by apply handlePinChange_loading | done].
  - case_match; [|done]. run_M. by repeat case_match.
  - case_match; [apply handleBiometricAuth_loading | done].
  - by case_match.
  - by case_decide.
  - done.
Qed.

Lemma session_loading (w : platform) (t : list cred_row) (evs : list event) :
  loading (session w t evs) = false.
Proof.
  unfold session.
  assert (H0 : loading (mount w (init t)) = false).
  { unfold mount. run_M. by destruct w as [[b|]|]. }
  revert H0. generalize (mount w (init t)).
  induction evs as [|ev evs IH]; intros st H; [done|].
  cbn. apply IH. by apply step_loading.
Qed.

(** X3. After every event of every session, whatever the world answered, the
    gate is interactive again: [loading] is false, so every rendered input is
    enabled and the biometric button, when there is one, is not in its
    loading state. *)
Theorem session_interactive (w : platform) (t : list cred_row) (evs : list event) :
  let v := render (session w t evs) in
  loading (session w t evs) = false
  /\ (forall i x b, inputs v !! i = Some (Some (x, b)) -> b = false)
  /\ biometric_button v <> Some true.
Proof.
  cbn zeta. pose proof (session_loading w t evs) as Hl.
  split; [done|]. unfold render. cbn [inputs biometric_button]. rewrite Hl.
  split.
  - intros i x b Hi. apply list_lookup_fmap_Some in Hi as (y & ? & Hy).
    destruct y; congruence.
  - by case_match.
Qed.

(** ** What the six inputs can hold *)

Lemma entry_ok_six_inputs (p : list slot) : entry_ok p -> six_inputs p.
Proof.
  intros [Hlen Hok]. split; [done|].
  clear Hlen. induction p as [|x p IH]; [done|].
  cbn in *. apply andb_prop in Hok as [Hx Hp].
  rewrite IH by done. by destruct x.
Qed.

Lemma forallb_insert_ok (p : list slot) (i : nat) (x : slot) :
  digit_or_empty x = true ->
  forallb digit_or_empty p = true ->
  forallb digit_or_empty (<[i := x]> p) = true.
Proof.
  intros Hx. revert i. induction p as [|y p IH]; intros i; [done|].
  cbn. intros [Hy Hp]%andb_prop.
  destruct i as [|i]; cbn; [by rewrite Hx, Hp | by rewrite Hy, IH].
Qed.

Lemma assign_entry_ok (p : list slot) (i : nat) (v : string) :
  entry_ok p -> has_input p i = true ->
  v = "" \/ test_digit v = true ->
  entry_ok (assign (spread p) i v).
Proof.
  intros Hok Hi%has_input_lt Hv.
  pose proof (entry_ok_six_inputs _ Hok) as [_ Htext].
  destruct Hok as [Hlen Hd].
  rewrite spread_text by done. unfold assign.
  case_decide; [|lia]. split.
  - by rewrite length_insert.
  - apply forallb_insert_ok; [|done].
    destruct Hv as [-> | Hv]; cbn; [done|]. rewrite Hv. apply orb_true_r.
Qed.

Lemma step_entry_ok (st : state) (ev : event) :
  entry_ok (pin st) -> entry_ok (pin (step st ev)).
Proof.
  intros Hok.
  destruct ev as [index value e|index key|e| | |]; cbn [step].
  - destruct (mounted st && has_input (pin st) index && negb (loading st)) eqn:Hg;
      [|done].
    apply andb_prop in Hg as [[_ Hin]%andb_prop _].
    destruct (value_cases value) as [Hv | [Hv | Hrej]].
    3: { unfold exec. by rewrite handlePinChange_rejected. }
    all: unfold exec, handlePinChange, mbind, M_bind;
      (rewrite handlePinChange_sync_accepted by tauto); cbn zeta;
      set (st1 := if negb _ && _ && _ then _ else _);
      assert (Hst1 : entry_ok (pin st1))
        by (subst st1; case_match; cbn; apply assign_entry_ok; tauto);
      destruct (every_nonempty _ && (index =? 5)%nat); cbv beta iota;
      [|exact Hst1];
      match goal with
      | |- context [verifyPin ?p ?e' ?s] =>
          destruct (verifyPin_pin p e' s) as [Hv' | Hv']
      end; unfold exec in Hv'; rewrite Hv'; done.
  - case_match; [|done]. run_M. by repeat case_match.
  - case_match; [|done]. by rewrite handleBiometricAuth_pin.
  - by case_match.
  - by case_decide.
  - done.
Qed.

Lemma run_entry_ok (st : state) (evs : list event) :
  entry_ok (pin st) -> entry_ok (pin (run st evs)).
Proof.
  revert st. induction evs as [|ev evs IH]; intros st H; [done|].
  cbn. apply IH. by apply step_entry_ok.
Qed.

Lemma mount_entry_ok (w : platform) (t : list cred_row) :
  entry_ok (pin (mount w (init t))).
Proof. unfold mount. run_M. by destruct w as [[b|]|]. Qed.

(** X4. In every session each of the six positions holds the empty string
    or exactly one decimal digit. *)
Theorem session_entry_ok (w : platform) (t : list cred_row) (evs : list event) :
  entry_ok (pin (session w t evs)).
Proof. unfold session. apply run_entry_ok, mount_entry_ok. Qed.

Lemma test_digit_inv (value : string) :
  test_digit value = true -> exists c, value = String c "" /\ is_digit c = true.
Proof. destruct value as [|c [|]]; try done. by exists c. Qed.

Lemma filled_slot (x : slot) :
  digit_or_empty x = true -> nonempty x = true ->
  exists c, x = Str (String c "") /\ is_digit c = true.
Proof.
  destruct x as [| |s]; try done. cbn.
  destruct (String.eqb s ""); [done|]. cbn. intros Hd _.
  apply test_digit_inv in Hd as (c & -> & Hc). by exists c.
Qed.

Lemma filled_entry_join (p : list slot) :
  entry_ok p -> every_nonempty p = true -> six_digits (join p).
Proof.
  intros [Hlen Hok] Hall. unfold every_nonempty in Hall.
  destruct p as [|x0 [|x1 [|x2 [|x3 [|x4 [|x5 [|]]]]]]]; try done.
  cbn [forallb] in Hok, Hall.
  repeat match goal with
  | H : _ && _ = true |- _ => apply andb_prop in H as [? H]
  end.
  destruct (filled_slot x0) as (c0 & -> & ?); [done..|].
  destruct (filled_slot x1) as (c1 & -> & ?); [done..|].
  destruct (filled_slot x2) as (c2 & -> & ?); [done..|].
  destruct (filled_slot x3) as (c3 & -> & ?); [done..|].
  destruct (filled_slot x4) as (c4 & -> & ?); [done..|].
  destruct (filled_slot x5) as (c5 & -> & ?); [done..|].
  split; [done|]. cbn. repeat constructor; done.
Qed.

(** X5. In every session, whenever a keystroke on a rendered input makes
    [handlePinChange] call [verifyPin], the submitted value is a string of
    exactly six decimal digits: the six positions read in order. *)
Theorem session_submits_six_digits (w : platform) (t : list cred_row)
    (evs : list event) (index : nat) (value pinValue : string) :
  let s := session w t evs in
  has_input (pin s) index = true ->
  fst (handlePinChange_sync index value s) = Done (Some pinValue) ->
  six_digits pinValue
  /\ pinValue = join (pin (exec (handlePinChange_sync index value) s)).
Proof.
  cbn zeta. intros Hin Hcall.
  pose proof (run_entry_ok _ evs (mount_entry_ok w t)) as Hok.
  fold (session w t evs) in Hok.
  destruct (value_cases value) as [Hv | [Hv | Hrej]].
  3: { unfold handlePinChange_sync in Hcall.
       destruct Hrej as [Hl | [Hl Hn]].
       - by destruct (decide (1 < String.length value)).
       - destruct (decide (1 < String.length value)); [done|].
         rewrite Hn in Hcall. by destruct value. }
  all: unfold exec; rewrite handlePinChange_sync_accepted in * by tauto;
    cbn zeta in *; cbn [fst snd] in *;
    destruct (every_nonempty _ && _) eqn:Hgo; [|done];
    apply andb_prop in Hgo as [Hall _];
    injection Hcall as <-;
    (split; [apply filled_entry_join; [apply assign_entry_ok; tauto | done]|]);
    by destruct (negb _ && _ && _).
Qed.

(** ** One keystroke, one position *)

(** X6. On six inputs, a keystroke that is accepted (a digit, or the empty
    string of a deletion) at a rendered position leaves every other position
    as it was, removes the alert, and touches neither the table nor the
    trace before verification starts. *)
Theorem keystroke_is_local (st : state) (index : nat) (value : string) :
  six_inputs (pin st) ->
  has_input (pin st) index = true ->
  value = "" \/ test_digit value = true ->
  let entered := exec (handlePinChange_sync index value) st in
  (forall j, j <> index -> pin entered !! j = pin st !! j)
  /\ length (pin entered) = 6
  /\ alert (render entered) = None
  /\ table entered = table st
  /\ trace entered = trace st.
Proof.
  intros [Hlen Htext] Hin%has_input_lt Hv. cbn zeta.
  unfold exec. rewrite handlePinChange_sync_accepted by done. cbn zeta.
  rewrite spread_text by done. unfold assign.
  destruct (decide (index < length (pin st))); [|lia].
  destruct (negb _ && _ && _); cbn; rewrite length_insert;
    (split; [intros j Hj; by apply list_lookup_insert_ne|]); done.
Qed.

(** ** Backspace *)

(** X7. On six inputs, [handleKeyDown] moves focus to the previous position
    exactly when the key is Backspace, the position is empty and it is not
    the first one; in every other case, and always at the first position, it
    changes nothing.  It never changes the digits. *)
Theorem handleKeyDown_backspace (st : state) (index : nat) (key : string) :
  six_inputs (pin st) ->
  let after := exec (handleKeyDown index key) st in
  (key = "Backspace" /\ pin st !! index = Some (Str "") /\ 0 < index ->
     after = with_focused (index - 1) st)
  /\ (key <> "Backspace" \/ pin st !! index <> Some (Str "") \/ index = 0 ->
      after = st)
  /\ pin after = pin st.
Proof.
  intros Hsix. cbn zeta.
  unfold exec, handleKeyDown, focus, gets, modify, mbind, M_bind, mret, M_ret.
  cbn [snd]. split; [|split].
  - intros (-> & Hempty & Hpos).
    rewrite Hempty, bool_decide_eq_true_2 by done.
    destruct (Nat.ltb_spec 0 index); [|lia]. cbn [String.eqb Ascii.eqb Bool.eqb andb].
    assert (index < 6).
    { destruct Hsix as [<- _]. apply lookup_lt_is_Some. by eexists. }
    by rewrite (six_inputs_has_input _ (index - 1)) by (done || lia).
  - intros Hno.
    destruct (String.eqb_spec key "Backspace") as [->|]; [|done].
    destruct (bool_decide_reflect (pin st !! index = Some (Str ""))); [|done].
    destruct (Nat.ltb_spec 0 index); [|done].
    destruct Hno as [? | [? | ?]]; [done | done | lia].
  - by repeat case_match.
Qed.

(** ** When the biometric option is there *)

(** X8. In every session the biometric option is rendered exactly when the
    platform has the authenticator API and its probe resolved to true; it is
    then an enabled button.  A probe that rejects leaves it hidden. *)
Theorem biometric_option_iff (w : platform) (t : list cred_row) (evs : list event) :
  biometric_button (render (session w t evs)) =
    match w with
    | Some (Resolves true) => Some false
    | _ => None
    end.
Proof.
  unfold render. cbn [biometric_button].
  rewrite session_loading. unfold session. rewrite run_biometricAvailable.
  by destruct w as [[[]|]|].
Qed.

(** ** What the flows do to the table *)

Lemma table_kept_refl (t : list cred_row) : table_kept t t.
Proof. done. Qed.

Lemma table_kept_trans (t1 t2 t3 : list cred_row) :
  table_kept t1 t2 -> table_kept t2 t3 -> table_kept t1 t3.
Proof. unfold table_kept. intros (-> & -> & ->) (-> & -> & ->). done. Qed.

Lemma updated_kept (p : payload) (t : list cred_row) :
  table_kept t (updated p t).
Proof.
  unfold table_kept, updated, other_users.
  induction t as [|r t (IH1 & IH2 & IH3)]; [done|].
  cbn [map List.filter].
  destruct (matches userEmail r) eqn:Hr.
  - assert (matches userEmail (apply_payload p r) = true) as ->
      by (by destruct p).
    cbn [negb]. rewrite IH1, IH2, IH3. by destruct p.
  - rewrite Hr. cbn [negb]. by rewrite IH1, IH2, IH3.
Qed.

Lemma verifyPin_table (pinValue : string) (e : env) (st : state) :
  table (exec (verifyPin pinValue e) st) = table st
  \/ table (exec (verifyPin pinValue e) st)
     = updated (AuditFields (now e) 1) (table st).
Proof.
  unfold exec. rewrite verifyPin_run. cbn zeta.
  repeat case_match; cbn; (by left) || (by right).
Qed.

Lemma handlePinChange_table (index : nat) (value : string) (e : env) (st : state) :
  table (exec (handlePinChange index value e) st) = table st
  \/ table (exec (handlePinChange index value e) st)
     = updated (AuditFields (now e) 1) (table st).
Proof.
  destruct (value_cases value) as [Hok | [Hok | Hrej]].
  3: { unfold exec. rewrite handlePinChange_rejected by done. by left. }
  all: unfold exec, handlePinChange, mbind, M_bind;
    (rewrite handlePinChange_sync_accepted by tauto); cbn zeta;
    destruct (every_nonempty _ && _);
    destruct (negb _ && _ && _);
    cbv beta iota;
    first [ by left
          | match goal with
            | |- context [verifyPin ?p ?e' ?s] =>
                exact (verifyPin_table p e' s)
            end ].
Qed.

Lemma handleBiometricAuth_table (e : env) (st : state) :
  table (exec (handleBiometricAuth e) st) = table st
  \/ exists c,
       create_result e = Resolves (Some c)
       /\ table (exec (handleBiometricAuth e) st)
          = updated (BiometricFields (id c)
                       (btoa (fromCharCode (attestationObject c)))) (table st).
Proof.
  unfold exec. rewrite handleBiometricAuth_run. cbn zeta.
  destruct (select_net e); [destruct (credential_on_file _)| |];
    rewrite ?authenticateBiometric_run, ?registerBiometric_run; cbn zeta;
    repeat case_match; cbn; first [by left | right; by eexists].
Qed.

Lemma step_table_kept (st : state) (ev : event) :
  table_kept (table st) (table (step st ev)).
Proof.
  destruct ev as [index value e|index key|e| | |]; cbn [step].
  - case_match; [|done].
    destruct (handlePinChange_table index value e st) as [-> | ->];
      [done | apply updated_kept].
  - case_match; [|done]. run_M. by repeat case_match.
  - case_match; [|done].
    destruct (handleBiometricAuth_table e st) as [-> | (c & _ & ->)];
      [done | apply updated_kept].
  - by case_match.
  - by case_decide.
  - done.
Qed.

(** X9. In every session the table keeps its records in number and order,
    with their identifiers and PIN hashes, and the records of other users are
    left exactly as they were: the gate only ever rewrites the audit and
    biometric fields of the user's own record. *)
Theorem session_table_kept (w : platform) (t : list cred_row) (evs : list event) :
  table_kept t (table (session w t evs)).
Proof.
  unfold session.
  assert (H0 : table_kept t (table (mount w (init t)))).
  { unfold mount. run_M. by destruct w as [[b|]|]. }
  revert H0. generalize (mount w (init t)).
  induction evs as [|ev evs IH]; intros st H; [done|].
  cbn. apply IH. eapply table_kept_trans; [done | apply step_table_kept].
Qed.

Lemma updated_audit_keeps_biometric (t : list cred_row) (ts : string) (x : N) :
  map biometric_fields (updated (AuditFields ts x) t) = map biometric_fields t.
Proof.
  unfold updated. induction t as [|r t IH]; [done|].
  cbn [map]. rewrite IH. by destruct (matches userEmail r).
Qed.

Lemma updated_biometric_keeps_audit (t : list cred_row) (i k : string) :
  map audit_fields (updated (BiometricFields i k) t) = map audit_fields t.
Proof.
  unfold updated. induction t as [|r t IH]; [done|].
  cbn [map]. rewrite IH. by destruct (matches userEmail r).
Qed.

Lemma handleBiometricAuth_no_audit (e : env) (st : state) :
  count is_audit_update (trace (exec (handleBiometricAuth e) st))
  = count is_audit_update (trace st).
Proof.
  unfold exec. rewrite handleBiometricAuth_run. cbn zeta.
  destruct (select_net e); [destruct (credential_on_file _)| |];
    rewrite ?authenticateBiometric_run, ?registerBiometric_run; cbn zeta;
    repeat case_match; tally.
Qed.

Lemma handlePinChange_no_biometric_update (index : nat) (value : string)
    (e : env) (st : state) :
  count is_biometric_update (trace (exec (handlePinChange index value e) st))
  = count is_biometric_update (trace st).
Proof.
  destruct (value_cases value) as [Hok | [Hok | Hrej]].
  3: { unfold exec. by rewrite handlePinChange_rejected. }
  all: unfold exec, handlePinChange, mbind, M_bind;
    (rewrite handlePinChange_sync_accepted by tauto); cbn zeta;
    destruct (every_nonempty _ && _);
    destruct (negb _ && _ && _);
    cbv beta iota; try done;
    rewrite verifyPin_run; cbn zeta; repeat case_match; tally.
Qed.

(** X10. The two flows keep to their own fields.  A keystroke, with the PIN
    verification it may start, never issues a biometric update and leaves the
    stored credential id and public key of every record alone; the biometric
    flow, also when it grants access, never issues an audit update and leaves
    the last-access time and the access count of every record alone. *)
Theorem flows_keep_to_their_fields (st : state) (e : env) (index : nat) (value : string) :
  let pin_flow := exec (handlePinChange index value e) st in
  let biometric_flow := exec (handleBiometricAuth e) st in
  (count is_biometric_update (trace pin_flow)
     = count is_biometric_update (trace st)
   /\ map biometric_fields (table pin_flow) = map biometric_fields (table st))
  /\ (count is_audit_update (trace biometric_flow)
        = count is_audit_update (trace st)
      /\ map audit_fields (table biometric_flow) = map audit_fields (table st)).
Proof.
  cbn zeta. split; split.
  - apply handlePinChange_no_biometric_update.
  - destruct (handlePinChange_table index value e st) as [-> | ->];
      [done | apply updated_audit_keeps_biometric].
  - apply handleBiometricAuth_no_audit.
  - destruct (handleBiometricAuth_table e st) as [-> | (c & _ & ->)];
      [done | apply updated_biometric_keeps_audit].
Qed.

(** ** A lookup that fails *)

(** X11. A biometric lookup that resolves with an error in its result is
    read as "no credential on file", whatever the table holds: the flow runs
    the registration, asking the platform for a new credential, and when that
    ceremony yields a credential and the write is delivered the user's record
    is overwritten with the new credential id and public key. *)
Theorem failed_lookup_registers_again (st : state) (e : env) :
  select_net e = Failed ->
  let st0 := log biometric_lookup (with_error "" (with_loading true st)) in
  let after := exec (handleBiometricAuth e) st in
  after = exec (registerBiometric e) st0
  /\ count is_create (trace after) = count is_create (trace st) + 1
  /\ count is_get (trace after) = count is_get (trace st)
  /\ forall c r,
       create_result e = Resolves (Some c) ->
       update_net e = Delivered ->
       List.filter (matches userEmail) (table st) = [r] ->
       List.filter (matches userEmail) (table after)
       = [apply_payload
            (BiometricFields (id c) (btoa (fromCharCode (attestationObject c)))) r].
Proof.
  intros Hsel. cbn zeta. unfold exec.
  rewrite handleBiometricAuth_run, Hsel. cbn zeta.
  split; [done|]. rewrite registerBiometric_run. cbn zeta.
  split; [|split].
  - destruct (create_result e) as [[c|]|]; [destruct (update_net e)|..]; tally.
  - destruct (create_result e) as [[c|]|]; [destruct (update_net e)|..]; tally.
  - intros c r -> -> Hrow.
    cbn [snd table with_loading with_error log with_table].
    by rewrite filter_update, Hrow.
Qed.

(** ** Credential ids that do not decode *)

Lemma strip_padding_head (x : ascii) (l : list ascii) :
  x <> "="%char -> strip_padding (x :: l) = x :: l.
Proof. destruct x as [[] [] [] [] [] [] [] []]; done. Qed.

Lemma strip_padding_one (x : ascii) (l : list ascii) :
  x <> "="%char -> strip_padding ("="%char :: x :: l) = x :: l.
Proof. destruct x as [[] [] [] [] [] [] [] []]; done. Qed.

Lemma elem_of_strip_padding (c : ascii) (l : list ascii) :
  c <> "="%char -> c ∈ l -> c ∈ strip_padding l.
Proof.
  intros Hc Hin.
  destruct l as [|x l]; [done|].
  destruct (decide (x = "="%char)) as [->|Hx]; [|by rewrite strip_padding_head].
  apply elem_of_cons in Hin as [?|Hin]; [done|].
  destruct l as [|y l]; [by apply elem_of_nil in Hin|].
  destruct (decide (y = "="%char)) as [->|Hy]; [|by rewrite strip_padding_one].
  apply elem_of_cons in Hin as [?|Hin]; done.
Qed.

(** [atob] throws on any string holding a character that is neither in the
    base64 alphabet, nor white space, nor the padding character. *)
Lemma atob_outside_alphabet (s : string) (c : ascii) :
  c ∈ list_ascii_of_string s ->
  b64_value c = None ->
  is_ascii_whitespace c = false ->
  c <> "="%char ->
  atob s = None.
Proof.
  intros Hin Hval Hws Hpad. unfold atob.
  set (cs := filter _ _).
  assert (Hcs : c ∈ cs).
  { subst cs. apply list_elem_of_filter. split; [|done]. by rewrite Hws. }
  set (cs' := if decide (length cs mod 4 = 0) then _ else cs).
  assert (Hcs' : c ∈ cs').
  { subst cs'. case_decide; [|done].
    apply list_elem_of_In. rewrite <- in_rev.
    apply list_elem_of_In, elem_of_strip_padding; [done|].
    apply list_elem_of_In. rewrite <- in_rev. by apply list_elem_of_In. }
  case_decide; [done|].
  rewrite (mapM_None_2 b64_value cs'); [done|].
  apply Exists_exists. by exists c.
Qed.

(** X12. A stored credential id that holds a character of the URL-safe
    alphabet, "-" or "_", makes [authenticateBiometric] fail before the
    platform is asked: nothing but a console error is issued, the message
    "Biometric verification failed" is shown, and no callback is
    scheduled, whatever assertion the platform would have returned. *)
Theorem url_safe_id_never_reaches_platform (st : state) (e : env)
    (credentialId : string) (c : ascii) :
  c ∈ list_ascii_of_string credentialId ->
  c = "-"%char \/ c = "_"%char ->
  exec (authenticateBiometric credentialId e) st
  = with_loading false
      (with_error "Biometric verification failed"
         (log (ConsoleError "Biometric authentication error:") st)).
Proof.
  intros Hin Hc. unfold exec. rewrite authenticateBiometric_run. cbn zeta.
  rewrite (atob_outside_alphabet credentialId c); [done|done|..];
    by destruct Hc as [-> | ->].
Qed.

(** ** A registration that does not complete *)

(** X13. When the platform's [create] rejects (the user cancels, or the
    ceremony times out) or resolves to null, the registration writes nothing
    to the table, issues no update and schedules no callback; an error
    message appears only in the first case. *)
Theorem registration_not_completed (st : state) (e : env) :
  create_result e = Rejects \/ create_result e = Resolves None ->
  let after := exec (registerBiometric e) st in
  table after = table st
  /\ count is_biometric_update (trace after) = count is_biometric_update (trace st)
  /\ count is_SetTimeout (trace after) = count is_SetTimeout (trace st)
  /\ loading after = false
  /\ error after =
       match create_result e with
       | Rejects => "Failed to register biometric"
       | _ => error st
       end.
Proof.
  intros Hc. cbn zeta. unfold exec. rewrite registerBiometric_run. cbn zeta.
  destruct Hc as [-> | ->]; cbn [snd]; repeat split; tally.
Qed.

(** ** Base64: decoding what was encoded *)

Lemma list_ind3 {A : Type} (P : list A -> Prop) :
  P [] -> (forall a, P [a]) -> (forall a b, P [a; b]) ->
  (forall a b c r, P r -> P (a :: b :: c :: r)) ->
  forall l, P l.
Proof.
  intros H0 H1 H2 H3 l.
  assert (H : P l /\ (forall a, P (a :: l)) /\ (forall a b, P (a :: b :: l))).
  { induction l as [|x l (IH0 & IH1 & IH2)]; [by auto|].
    split; [apply IH1|]. split; [intros a; apply IH2|].
    intros a b. by apply H3. }
  apply H.
Qed.

Lemma encode_chars (l : list N) :
  list_ascii_of_string (b64_encode l) = map b64_char (sextets l) ++ padding l.
Proof.
  induction l as [|a|a b|a b c r IH] using list_ind3; try done.
  cbn [b64_encode sextets padding map list_ascii_of_string app].
  by rewrite IH.
Qed.

Lemma sextets_lt (l : list N) :
  Forall (fun n => n < 256)%N l -> Forall (fun n => n < 64)%N (sextets l).
Proof.
  induction l as [|a|a b|a b c r IH] using list_ind3; intros Hl; cbn [sextets].
  - constructor.
  - apply Forall_cons in Hl as [Ha _].
    repeat constructor; [apply N.Div0.div_lt_upper_bound; lia|].
    pose proof (N.mod_upper_bound a 4). lia.
  - apply Forall_cons in Hl as [Ha Hl]. apply Forall_cons in Hl as [Hb _].
    assert (a / 4 < 64)%N by (apply N.Div0.div_lt_upper_bound; lia).
    assert (b / 16 < 16)%N by (apply N.Div0.div_lt_upper_bound; lia).
    pose proof (N.mod_upper_bound a 4). pose proof (N.mod_upper_bound b 16).
    repeat constructor; lia.
  - apply Forall_cons in Hl as [Ha Hl]. apply Forall_cons in Hl as [Hb Hl].
    apply Forall_cons in Hl as [Hc Hl].
    assert (a / 4 < 64)%N by (apply N.Div0.div_lt_upper_bound; lia).
    assert (b / 16 < 16)%N by (apply N.Div0.div_lt_upper_bound; lia).
    assert (c / 64 < 4)%N by (apply N.Div0.div_lt_upper_bound; lia).
    pose proof (N.mod_upper_bound a 4). pose proof (N.mod_upper_bound b 16).
    pose proof (N.mod_upper_bound c 64).
    repeat (apply Forall_cons; split); try lia. by apply IH.
Qed.

Lemma b64_char_value (n : N) :
  (n < 64)%N ->
  b64_value (b64_char n) = Some n
  /\ is_ascii_whitespace (b64_char n) = false
  /\ b64_char n <> "="%char.
Proof.
  intros Hn. destruct n as [|p]; [by vm_compute|].
  do 6 (try destruct p as [p|p|]); try lia; by vm_compute.
Qed.

Lemma decode_sextets (l : list N) :
  Forall (fun n => n < 256)%N l -> b64_decode (sextets l) = l.
Proof.
  assert (Hq : forall a k, (0 < k)%N -> (a / k * k + a mod k = a)%N).
  { intros a k Hk. rewrite N.mul_comm. symmetry. by apply N.div_mod'. }
  assert (Hd : forall x y k, (0 < k)%N -> (y < k)%N -> ((x * k + y) / k = x)%N).
  { intros x y k Hk Hy. rewrite N.div_add_l by lia. rewrite N.div_small by done. lia. }
  assert (Hm : forall x y k, (0 < k)%N -> (y < k)%N -> ((x * k + y) mod k = y)%N).
  { intros x y k Hk Hy. rewrite N.add_comm, N.Div0.mod_add. by apply N.mod_small. }
  induction l as [|a|a b|a b c r IH] using list_ind3; intros Hl;
    cbn [sextets b64_decode].
  - done.
  - rewrite N.div_mul by lia. f_equal. apply Hq. lia.
  - apply Forall_cons in Hl as [Ha Hl]. apply Forall_cons in Hl as [Hb _].
    assert (b / 16 < 16)%N by (apply N.Div0.div_lt_upper_bound; lia).
    rewrite (Hd (a mod 4) (b / 16) 16)%N by lia.
    rewrite (Hm (a mod 4) (b / 16) 16)%N by lia.
    rewrite N.div_mul by lia.
    f_equal; [apply Hq; lia|]. f_equal. apply Hq. lia.
  - apply Forall_cons in Hl as [Ha Hl]. apply Forall_cons in Hl as [Hb Hl].
    apply Forall_cons in Hl as [Hc Hl].
    assert (b / 16 < 16)%N by (apply N.Div0.div_lt_upper_bound; lia).
    assert (c / 64 < 4)%N by (apply N.Div0.div_lt_upper_bound; lia).
    pose proof (N.mod_upper_bound c 64).
    rewrite (Hd (a mod 4) (b / 16) 16)%N by lia.
    rewrite (Hm (a mod 4) (b / 16) 16)%N by lia.
    rewrite (Hd (b mod 16) (c / 64) 4)%N by lia.
    rewrite (Hm (b mod 16) (c / 64) 4)%N by lia.
    rewrite IH by done.
    f_equal; [apply Hq; lia|]. f_equal; [apply Hq; lia|].
    f_equal. apply Hq. lia.
Qed.

Lemma sextets_length (l : list N) :
  exists k,
    length (sextets l) + length (padding l) = 4 * k
    /\ (length (sextets l) = 4 * k
        \/ length (sextets l) + 2 = 4 * k
        \/ length (sextets l) + 1 = 4 * k).
Proof.
  induction l as [|a|a b|a b c r (k & IH1 & IH2)] using list_ind3.
  - exists 0. cbn. lia.
  - exists 1. cbn. lia.
  - exists 1. cbn. lia.
  - exists (S k). cbn [sextets padding length]. lia.
Qed.

Lemma padding_cases (l : list N) :
  padding l = [] \/ padding l = ["="%char] \/ padding l = ["="%char; "="%char].
Proof using Type.
  clear userEmail bcrypt_compare.
  induction l using list_ind3; cbn; tauto.
Qed.

Lemma strip_padding_body (body pad : list ascii) :
  Forall (fun c => c <> "="%char) body ->
  pad = [] \/ pad = ["="%char] \/ pad = ["="%char; "="%char] ->
  rev (strip_padding (rev (body ++ pad))) = body.
Proof.
  intros Hbody Hpad.
  assert (Hrev : Forall (fun c => c <> "="%char) (rev body)).
  { apply Forall_forall. intros c Hc%list_elem_of_In%in_rev%list_elem_of_In.
    by eapply Forall_forall in Hbody. }
  rewrite rev_app_distr.
  destruct Hpad as [-> | [-> | ->]]; cbn [rev app].
  - destruct (rev body) as [|x r] eqn:Hr.
    + by rewrite <- (rev_involutive body), Hr.
    + apply Forall_cons in Hrev as [Hx _].
      by rewrite strip_padding_head, <- Hr, rev_involutive.
  - destruct (rev body) as [|x r] eqn:Hr.
    + by rewrite <- (rev_involutive body), Hr.
    + apply Forall_cons in Hrev as [Hx _].
      by rewrite strip_padding_one, <- Hr, rev_involutive.
  - cbn [strip_padding]. apply rev_involutive.
Qed.

Lemma filter_no_whitespace (l : list ascii) :
  Forall (fun c => is_ascii_whitespace c = false) l ->
  filter (fun c => negb (is_ascii_whitespace c)) l = l.
Proof.
  induction 1 as [|c l Hc _ IH]; [done|].
  rewrite filter_cons_True by (by rewrite Hc). by rewrite IH.
Qed.

(** Decoding an encoding gives the bytes back. *)
Lemma atob_b64_encode (l : list N) :
  Forall (fun n => n < 256)%N l ->
  atob (b64_encode l) = Some (string_of_list_ascii (map ascii_of_N l)).
Proof using Type.
  clear userEmail bcrypt_compare.
  intros Hl. unfold atob. rewrite encode_chars.
  pose proof (sextets_lt l Hl) as Hsx.
  assert (Hbody : Forall (fun c => is_ascii_whitespace c = false
                                   /\ c <> "="%char)
                    (map b64_char (sextets l))).
  { apply Forall_fmap. eapply Forall_impl; [exact Hsx|].
    intros n Hn. cbn. by destruct (b64_char_value n Hn) as (_ & ? & ?). }
  rewrite filter_no_whitespace.
  2: { apply Forall_app. split.
       - eapply Forall_impl; [exact Hbody|]. by intros c [? _].
       - destruct (padding_cases l) as [-> | [-> | ->]]; by repeat constructor. }
  destruct (sextets_length l) as (k & Hk & Hk').
  rewrite length_app, length_map.
  destruct (decide ((length (sextets l) + length (padding l)) mod 4 = 0))
    as [_|Hne].
  2: { exfalso. apply Hne. rewrite Hk, Nat.mul_comm. apply Nat.Div0.mod_mul. }
  rewrite strip_padding_body.
  2: { eapply Forall_impl; [exact Hbody|]. by intros c [_ ?]. }
  2: apply padding_cases.
  rewrite length_map.
  destruct (decide (length (sextets l) mod 4 = 1)) as [Hone|_].
  { exfalso. revert Hone.
    destruct Hk' as [-> | [Hk' | Hk']].
    - rewrite Nat.mul_comm, Nat.Div0.mod_mul. done.
    - destruct k as [|k]; [lia|].
      replace (length (sextets l)) with (2 + k * 4) by lia.
      rewrite Nat.Div0.mod_add. done.
    - destruct k as [|k]; [lia|].
      replace (length (sextets l)) with (3 + k * 4) by lia.
      rewrite Nat.Div0.mod_add. done. }
  rewrite (mapM_fmap_Forall_Some b64_value b64_char).
  2: { eapply Forall_impl; [exact Hsx|].
       intros n Hn. by destruct (b64_char_value n Hn) as (? & _). }
  by rewrite decode_sextets.
Qed.

Lemma atob_btoa (s : string) : atob (btoa s) = Some s.
Proof using Type.
  unfold btoa. rewrite atob_b64_encode.
  - rewrite map_map. f_equal.
    rewrite <- (string_of_list_ascii_of_string s) at 2. f_equal.
    rewrite <- (map_id (list_ascii_of_string s)) at 2.
    apply map_ext. intros c. apply ascii_N_embedding.
  - apply Forall_fmap, Forall_forall. intros c _. apply N_ascii_bounded.
Qed.

(** X14. The public key a completed registration stores is the base64
    encoding of the attestation object without loss: when the ceremony yields
    a credential and the write is delivered to the user's record, decoding
    the stored public key with [atob] gives back exactly the bytes of the
    attestation object, and the stored credential id is [credential.id]
    unchanged. *)
Theorem stored_public_key_decodes (st : state) (e : env) (c : credential) (r : cred_row) :
  create_result e = Resolves (Some c) ->
  update_net e = Delivered ->
  List.filter (matches userEmail) (table st) = [r] ->
  exists r' k,
    List.filter (matches userEmail) (table (exec (registerBiometric e) st)) = [r']
    /\ biometric_credential_id r' = Some (id c)
    /\ biometric_public_key r' = Some k
    /\ atob k = Some (fromCharCode (attestationObject c)).
Proof.
  intros Hc Hu Hrow. unfold exec.
  rewrite registerBiometric_run, Hc, Hu. cbn zeta.
  cbn [snd table with_loading with_error log with_table].
  rewrite filter_update, Hrow. cbn [map].
  eexists _, _. split; [done|]. cbn. split; [done|]. split; [done|].
  apply atob_btoa.
Qed.

(** ** Attempt after attempt *)

Lemma step_digit_table (st : state) (index : nat) (value : string) (e : env) :
  index < 5 -> test_digit value = true ->
  table (step st (Change index value e)) = table st.
Proof.
  intros Hi Hd. cbn [step]. case_match; [|done].
  unfold exec, handlePinChange, mbind, M_bind.
  rewrite handlePinChange_sync_accepted by (by right). cbn zeta.
  destruct (Nat.eqb_spec index 5); [lia|]. rewrite andb_false_r.
  by destruct (negb _ && _ && _).
Qed.

Lemma run_app (st : state) (l1 l2 : list event) :
  run st (l1 ++ l2) = run (run st l1) l2.
Proof. unfold run. apply foldl_app. Qed.

(** Six digits typed in order into an idle gate: what reaches [verifyPin]. *)
Lemma round_run (st : state) (vs : list string) (e : env) :
  idle st -> six_keys vs ->
  exists s,
    run st (typed vs e) = exec (verifyPin (join (map Str vs)) e) s
    /\ table s = table st /\ trace s = trace st /\ mounted s = true
    /\ has_input (pin s) 0 = true.
Proof.
  intros (Hm0 & Hl0 & Hp0) [Hlen Hall].
  destruct vs as [|v0 [|v1 [|v2 [|v3 [|v4 [|v5 [|]]]]]]]; try done.
  pose proof Hall as Hall'.
  apply Forall_cons in Hall' as [H0 Hall']. apply Forall_cons in Hall' as [H1 Hall'].
  apply Forall_cons in Hall' as [H2 Hall']. apply Forall_cons in Hall' as [H3 Hall'].
  apply Forall_cons in Hall' as [H4 _].
  unfold typed, run. cbn [imap foldl compose].
  destruct (step_digit st 0 v0 e) as (Hm1 & Hl1 & Ht1 & Hp1);
    [done | done | by rewrite Hp0 | lia | done |].
  pose proof (step_digit_table st 0 v0 e ltac:(lia) H0) as Hb1.
  remember (step st (Change 0 v0 e)) as s1 eqn:E1.
  rewrite Hp0 in Hp1. cbn in Hp1.
  destruct (step_digit s1 1 v1 e) as (Hm2 & Hl2 & Ht2 & Hp2);
    [done | done | by rewrite Hp1 | lia | done |].
  pose proof (step_digit_table s1 1 v1 e ltac:(lia) H1) as Hb2.
  remember (step s1 (Change 1 v1 e)) as s2 eqn:E2.
  rewrite Hp1 in Hp2. cbn in Hp2.
  destruct (step_digit s2 2 v2 e) as (Hm3 & Hl3 & Ht3 & Hp3);
    [done | done | by rewrite Hp2 | lia | done |].
  pose proof (step_digit_table s2 2 v2 e ltac:(lia) H2) as Hb3.
  remember (step s2 (Change 2 v2 e)) as s3 eqn:E3.
  rewrite Hp2 in Hp3. cbn in Hp3.
  destruct (step_digit s3 3 v3 e) as (Hm4 & Hl4 & Ht4 & Hp4);
    [done | done | by rewrite Hp3 | lia | done |].
  pose proof (step_digit_table s3 3 v3 e ltac:(lia) H3) as Hb4.
  remember (step s3 (Change 3 v3 e)) as s4 eqn:E4.
  rewrite Hp3 in Hp4. cbn in Hp4.
  destruct (step_digit s4 4 v4 e) as (Hm5 & Hl5 & Ht5 & Hp5);
    [done | done | by rewrite Hp4 | lia | done |].
  pose proof (step_digit_table s4 4 v4 e ltac:(lia) H4) as Hb5.
  remember (step s4 (Change 4 v4 e)) as s5 eqn:E5.
  rewrite Hp4 in Hp5. cbn in Hp5.
  rewrite (step_last s5 v0 v1 v2 v3 v4 v5 e) by done.
  eexists. split.
  - cbn [map join]. by rewrite append_empty.
  - cbn [table trace mounted pin with_error with_pin has_input lookup
         list_lookup]. repeat split; congruence.
Qed.

Lemma wrong_round (st : state) (vs : list string) (e : env) (h : string) :
  idle st -> stored_hash st h -> six_keys vs ->
  select_net e = Delivered ->
  bcrypt_compare (join (map Str vs)) h = false ->
  let st' := run st (typed vs e) in
  idle st' /\ table st' = table st
  /\ count is_grant (trace st') = count is_grant (trace st)
  /\ count is_SetTimeout (trace st') = count is_SetTimeout (trace st)
  /\ alert (render st') = Some ("Access Denied", "Invalid PIN. Access Denied.").
Proof.
  intros Hidle (r & Hrows & Hhash) Hkeys Hsel Hcmp. cbn zeta.
  destruct (round_run st vs e Hidle Hkeys) as (s & -> & Htab & Htr & Hm & Hin).
  unfold exec. rewrite verifyPin_run, Hsel, Htab, Hrows, Hhash, Hcmp.
  cbn zeta. cbn [snd]. unfold idle, render.
  cbn [mounted loading pin table trace error alert with_loading with_focused
       with_pin with_error log].
  rewrite Htr. repeat split; try done; tally.
Qed.

Lemma right_round (st : state) (vs : list string) (e : env) (h : string) :
  idle st -> stored_hash st h -> six_keys vs ->
  select_net e = Delivered -> update_net e <> Rejected ->
  bcrypt_compare (join (map Str vs)) h = true ->
  let st' := run st (typed vs e) in
  count is_grant (trace st') = count is_grant (trace st) + 1
  /\ count is_SetTimeout (trace st') = count is_SetTimeout (trace st) + 1
  /\ alert (render st') = None.
Proof.
  intros Hidle (r & Hrows & Hhash) Hkeys Hsel Hupd Hcmp. cbn zeta.
  destruct (round_run st vs e Hidle Hkeys) as (s & -> & Htab & Htr & Hm & Hin).
  unfold exec. rewrite verifyPin_run, Hsel, Htab, Hrows, Hhash, Hcmp.
  cbn zeta. unfold render.
  destruct (update_net e); [| |done];
    cbn [snd alert error trace with_loading log with_table with_error];
    rewrite Htr; repeat split; tally.
Qed.

(** X16. There is no lockout: after any number of complete wrong attempts,
    each six digits typed in order and each denied, six digits that match the
    stored hash are still granted, with one grant and one callback timer in
    the whole session. *)
Theorem no_lockout (w : platform) (t : list cred_row) (e : env) (h : string)
    (attempts : list (list string)) (correct : list string) :
  stored_hash (init t) h ->
  select_net e = Delivered ->
  update_net e <> Rejected ->
  Forall (fun vs => six_keys vs /\ bcrypt_compare (join (map Str vs)) h = false)
    attempts ->
  six_keys correct ->
  bcrypt_compare (join (map Str correct)) h = true ->
  let s := session w t (concat (map (fun vs => typed vs e) attempts)
                        ++ typed correct e) in
  count is_grant (trace s) = 1
  /\ count is_SetTimeout (trace s) = 1
  /\ alert (render s) = None.
Proof.
  intros Hstored Hsel Hupd Hwrong Hkeys Hcmp. cbn zeta.
  unfold session. rewrite run_app.
  assert (H0 : idle (mount w (init t))
               /\ table (mount w (init t)) = t
               /\ count is_grant (trace (mount w (init t))) = 0
               /\ count is_SetTimeout (trace (mount w (init t))) = 0).
  { unfold mount. run_M. by destruct w as [[b|]|]. }
  revert H0. generalize (mount w (init t)). intros st.
  induction Hwrong as [|vs attempts [Hvs Hno] _ IH] in st |- *;
    intros (Hidle & Htab & Hg & Hs).
  - cbn [map concat run foldl].
    destruct (right_round st correct e h) as (Hg' & Hs' & Ha); try done.
    { destruct Hstored as (r & ? & ?). exists r. by rewrite Htab. }
    rewrite Hg', Hs', Hg, Hs. done.
  - cbn [map concat]. rewrite run_app.
    destruct (wrong_round st vs e h) as (Hidle' & Htab' & Hg' & Hs' & _); try done.
    { destruct Hstored as (r & ? & ?). exists r. by rewrite Htab. }
    apply IH. repeat split; try apply Hidle'; congruence.
Qed.

(** ** Lookups that find no single record, or do not answer *)

(** X17. When the PIN lookup finds no record of the user, finds more than
    one, or resolves with an error, the submitted PIN is never compared: for
    every PIN the gate ends in the same state, showing "Access credentials
    not found", with the lookup as the only request, the entered digits and
    the table left as they were. *)
Theorem no_single_record_never_matches (st : state) (e : env) (pinValue : string) :
  (select_net e = Delivered
   /\ length (List.filter (matches userEmail) (table st)) <> 1)
  \/ select_net e = Failed ->
  let after := exec (verifyPin pinValue e) st in
  after = exec (verifyPin "" e) st
  /\ alert (render after) = Some ("Access Denied", "Access credentials not found")
  /\ trace after = trace st ++ [Select "pin_hash" userEmail]
  /\ pin after = pin st
  /\ table after = table st.
Proof.
  intros H. cbn zeta. unfold exec. rewrite !verifyPin_run. cbn zeta.
  destruct H as [[-> Hlen] | ->].
  - destruct (List.filter (matches userEmail) (table st)) as [|r [|]];
      [|cbn in Hlen; lia|]; done.
  - done.
Qed.

(** X18. When the promise of the PIN lookup rejects, [verifyPin] logs the
    error, shows "Authentication error", and does nothing else: no audit
    update, no grant, no timer, and the entered digits stay in the inputs. *)
Theorem verifyPin_lookup_rejects (st : state) (e : env) (pinValue : string) :
  select_net e = Rejected ->
  let after := exec (verifyPin pinValue e) st in
  trace after =
    trace st ++ [Select "pin_hash" userEmail;
                 ConsoleError "PIN verification error:"]
  /\ alert (render after) = Some ("Access Denied", "Authentication error")
  /\ pin after = pin st
  /\ table after = table st
  /\ loading after = false.
Proof.
  intros Hsel. cbn zeta. unfold exec. rewrite verifyPin_run, Hsel. cbn zeta.
  cbn. by rewrite <- app_assoc.
Qed.

(** X19. When the promise of the biometric lookup rejects, the flow asks the
    platform for nothing and writes nothing: it logs the error, shows
    "Biometric authentication failed" and leaves the gate interactive. *)
Theorem biometric_lookup_rejects (st : state) (e : env) :
  select_net e = Rejected ->
  let after := exec (handleBiometricAuth e) st in
  trace after =
    trace st ++ [biometric_lookup; ConsoleError "Biometric auth error:"]
  /\ alert (render after)
     = Some ("Access Denied", "Biometric authentication failed")
  /\ table after = table st
  /\ loading after = false.
Proof.
  intros Hsel. cbn zeta. unfold exec. rewrite handleBiometricAuth_run, Hsel.
  cbn. by rewrite <- app_assoc.
Qed.

End CEOPinAuth.

(** * Properties of the other parts *)

(** ** The document viewer *)

Section DocumentImageViewerProperties.

Import DocumentImageViewer.

Lemma handleZoomIn_level (st : state) :
  zoom_level (zoom st) -> zoom_level (zoom (handleZoomIn st)).
Proof.
  intros [Hr [k Hk]]. cbn. split; [lia|].
  destruct (Z.min_spec (zoom st + 25) 200) as [[_ ->] | [_ ->]].
  - exists (k + 1)%Z. lia.
  - by exists 8%Z.
Qed.

Lemma handleZoomOut_level (st : state) :
  zoom_level (zoom st) -> zoom_level (zoom (handleZoomOut st)).
Proof.
  intros [Hr [k Hk]]. cbn. split; [lia|].
  destruct (Z.max_spec (zoom st - 25) 50) as [[_ ->] | [_ ->]].
  - by exists 2%Z.
  - exists (k - 1)%Z. lia.
Qed.

Lemma handleRotate_turn (st : state) :
  quarter_turn (rotation st) -> quarter_turn (rotation (handleRotate st)).
Proof.
  unfold quarter_turn. cbn. intros [-> | [-> | [-> | ->]]]; cbn; tauto.
Qed.

Lemma level_100 : zoom_level 100.
Proof. split; [lia | by exists 4%Z]. Qed.

Lemma step_kept (documents : list document) (st : state) (ev : event) :
  kept documents st -> kept documents (step documents st ev).
Proof.
  intros H. unfold step.
  destruct (uploadedDocs documents) as [|d0 ds] eqn:Hup; [done|]. clear Hup.
  pose proof H as (Hz & Hr & Hnone & Hsel & Hfull).
  destruct ev as [| | | | | |d|d|].
  - done.
  - done.
  - unfold controls_rendered.
    destruct (viewMode st), (selectedDoc st) eqn:Hs; try done.
    unfold kept. split_and!; try done; [by apply handleZoomOut_level | cbn; by rewrite Hs..].
  - unfold controls_rendered.
    destruct (viewMode st), (selectedDoc st) eqn:Hs; try done.
    unfold kept. split_and!; try done; [by apply handleZoomIn_level | cbn; by rewrite Hs..].
  - unfold controls_rendered.
    destruct (viewMode st), (selectedDoc st) eqn:Hs; try done.
    unfold kept. split_and!; try done; [by apply handleRotate_turn | cbn; by rewrite Hs..].
  - unfold controls_rendered.
    destruct (viewMode st), (selectedDoc st) eqn:Hs; try done.
    unfold kept. split_and!; try done; [apply level_100 | by left | cbn; by rewrite Hs..].
  - destruct (viewMode st); [done|].
    unfold in_uploaded. case_bool_decide as Hd; [|done].
    unfold kept. split_and!; cbn; try done;
      [apply level_100 | by left | by intros ? [= <-]].
  - destruct (viewMode st); [|done].
    unfold in_uploaded. case_bool_decide as Hd; [|done].
    unfold kept. split_and!; cbn; try done. by intros ? [= <-].
  - unfold kept. split_and!; done.
Qed.

(** X20. Whatever is clicked, in whatever order, the zoom stays one of the
    levels 50, 75, ..., 200 and the rotation one of 0, 90, 180 and 270; as
    long as no document was picked in the selector both are still 100 and 0
    (the controls are not rendered before); and the picked document and the
    one shown full screen are uploaded ones. *)
Theorem viewer_keeps_levels (documents : list document) (evs : list event) :
  let st := run documents initial evs in
  zoom_level (zoom st) /\ quarter_turn (rotation st)
  /\ (selectedDoc st = None -> zoom st = 100%Z /\ rotation st = 0%Z)
  /\ (forall d, selectedDoc st = Some d -> d ∈ uploadedDocs documents)
  /\ (forall d, fullscreenDoc st = Some d -> d ∈ uploadedDocs documents).
Proof.
  cbn zeta. change (kept documents (run documents initial evs)).
  assert (H0 : kept documents initial).
  { split_and!; try done; [apply level_100 | by left]. }
  revert H0. generalize initial.
  induction evs as [|ev evs IH]; intros st H; [done|].
  cbn. apply IH. by apply step_kept.
Qed.

Lemma state_eq (a b : state) :
  viewMode a = viewMode b -> selectedDoc a = selectedDoc b -> zoom a = zoom b ->
  rotation a = rotation b -> fullscreenDoc a = fullscreenDoc b -> a = b.
Proof. destruct a, b. cbn. by intros -> -> -> -> ->. Qed.

(** X21. On a zoom level and a quarter turn: four turns bring the rotation
    back; zooming out undoes zooming in below 200, where zooming in does
    nothing; zooming in undoes zooming out above 50, where zooming out does
    nothing. *)
Theorem zoom_and_rotation_compose (st : state) :
  zoom_level (zoom st) -> quarter_turn (rotation st) ->
  handleRotate (handleRotate (handleRotate (handleRotate st))) = st
  /\ ((zoom st < 200)%Z -> handleZoomOut (handleZoomIn st) = st)
  /\ (zoom st = 200%Z -> handleZoomIn st = st)
  /\ ((50 < zoom st)%Z -> handleZoomIn (handleZoomOut st) = st)
  /\ (zoom st = 50%Z -> handleZoomOut st = st).
Proof.
  intros [Hr [k Hk]] Hq. split_and!.
  - apply state_eq; try done. cbn.
    destruct Hq as [-> | [-> | [-> | ->]]]; done.
  - intros Hlt. apply state_eq; try done. cbn. lia.
  - intros Heq. apply state_eq; try done. cbn. lia.
  - intros Hlt. apply state_eq; try done. cbn. lia.
  - intros Heq. apply state_eq; try done. cbn. lia.
Qed.

End DocumentImageViewerProperties.

(** ** The equity dashboard *)

Lemma not_OPTIONS (method : string) :
  method <> "OPTIONS" -> String.eqb method "OPTIONS" = false.
Proof. intros H. by apply String.eqb_neq. Qed.

Section EquityDashboardProperties.

Import Async EquityDashboard.

Context {value : Type}.

Lemma elem_of_distinct {A : Type} `{EqDecision A} (seen l : list A) (x : A) :
  x ∈ distinct seen l <-> x ∈ l /\ x ∉ seen.
Proof.
  revert seen. induction l as [|y l IH]; intros seen; cbn.
  - rewrite elem_of_nil. tauto.
  - case_decide as Hy.
    + rewrite IH, elem_of_cons. split; [tauto|].
      intros [[-> | Hx] Hn]; [done | tauto].
    + rewrite !elem_of_cons, IH, elem_of_cons.
      destruct (decide (x = y)) as [-> | Hne]; [tauto|]. tauto.
Qed.

Lemma NoDup_distinct {A : Type} `{EqDecision A} (seen l : list A) :
  NoDup (distinct seen l).
Proof.
  revert seen. induction l as [|y l IH]; intros seen; cbn; [constructor|].
  case_decide; [apply IH|]. constructor; [|apply IH].
  rewrite elem_of_distinct, elem_of_cons. tauto.
Qed.

Lemma elem_of_filter_Boolean (l : list (option string)) (s : string) :
  s ∈ filter_Boolean l <-> s <> "" /\ Some s ∈ l.
Proof.
  unfold filter_Boolean. rewrite list_elem_of_omap. split.
  - intros ([t|] & Hin & Ht); [|done].
    destruct (String.eqb_spec t ""); [done|]. by simplify_eq.
  - intros [Hne Hin]. exists (Some s). split; [done|].
    by destruct (String.eqb_spec s "").
Qed.

Lemma NoDup_filter_Boolean (l : list (option string)) :
  NoDup l -> NoDup (filter_Boolean l).
Proof.
  induction 1 as [|x l Hx Hl IH]; [constructor|].
  unfold filter_Boolean in *. cbn.
  destruct x as [s|]; [|done].
  destruct (String.eqb_spec s ""); [done|]. cbn.
  constructor; [|done].
  fold (filter_Boolean l). rewrite elem_of_filter_Boolean. tauto.
Qed.

(** The ids the employees are asked for. *)
Lemma employeeIds_spec (l : list (option string)) (s : string) :
  s ∈ filter_Boolean (from_Set l) <-> s <> "" /\ Some s ∈ l.
Proof.
  rewrite elem_of_filter_Boolean. unfold from_Set.
  rewrite elem_of_distinct, elem_of_nil. tauto.
Qed.

Lemma foldl_insert_lookup (l : list (@employee)) (acc : gmap string employee)
    (k : string) :
  foldl (fun acc e => <[id e := e]> acc) acc l !! k =
    match last (List.filter (fun e => String.eqb (id e) k) l) with
    | Some e => Some e
    | None => acc !! k
    end.
Proof.
  revert acc. induction l as [|e l IH]; intros acc; [done|].
  cbn [foldl List.filter]. rewrite IH.
  destruct (String.eqb_spec (id e) k) as [Heq | Hne].
  - destruct (List.filter _ l) as [|e' l'] eqn:Hf.
    + cbn. by rewrite <- Heq, lookup_insert_eq.
    + rewrite last_cons_cons.
      destruct (last (e' :: l')) eqn:Hl; [done|]. by apply last_None in Hl.
  - destruct (last _); [done|]. by rewrite lookup_insert_ne.
Qed.

Lemma filter_in_filter (ids : list string) (k : string) (t : list (@employee)) :
  List.filter (fun e => String.eqb (id e) k)
    (List.filter (fun e => bool_decide (id e ∈ ids)) t) =
  if bool_decide (k ∈ ids) then List.filter (fun e => String.eqb (id e) k) t
  else [].
Proof.
  induction t as [|e t IH]; [by case_bool_decide|].
  cbn [List.filter].
  destruct (String.eqb_spec (id e) k) as [Heq | Hne].
  - rewrite Heq. destruct (bool_decide (k ∈ ids)); [|done].
    cbn [List.filter]. by rewrite Heq, String.eqb_refl, IH.
  - destruct (bool_decide (id e ∈ ids)); [|done].
    cbn [List.filter]. by destruct (String.eqb_spec (id e) k).
Qed.

(** What a lookup in the index of the queried employees gives. *)
Lemma field_of_index (w : @world value) (ids : list string)
    (field : employee -> option string) (i : option string) :
  field_of
    (index_by_id (List.filter (fun e => bool_decide (id e ∈ ids)) (employees_table w)))
    field i =
  if bool_decide (property_key i ∈ ids)
  then or_empty (employee_with w i ≫= field) else "".
Proof.
  unfold field_of, index_by_id, employee_with.
  rewrite foldl_insert_lookup, filter_in_filter.
  case_bool_decide; [|done].
  by destruct (last _).
Qed.

Ltac io_run :=
  unfold started, handler, select_equity, select_employees, catch, mbind,
    io_bind, perform, awaits, throws, mret, io_ret;
  cbn -[filter_Boolean from_Set index_by_id shareholder_of].

(** The run of the handler when the equity rows are served. *)
Lemma handler_served (method : string) (w : @world value) (e : env) :
  method <> "OPTIONS" -> equity_reply e = Served ->
  let rows := employee_equity_table w in
  let ids := filter_Boolean (from_Set (map employee_id rows)) in
  started (handler method w e) =
    match ids with
    | [] =>
        (Returns {| status := 200;
                    content := Shareholders (map (shareholder_of ∅) rows) |},
         [SelectEquity])
    | _ :: _ =>
        (match employees_reply e with
         | Served =>
             Returns
               {| status := 200;
                  content :=
                    Shareholders
                      (map (shareholder_of
                              (index_by_id
                                 (List.filter (fun x => bool_decide (id x ∈ ids))
                                    (employees_table w)))) rows) |}
         | Refused _ =>
             Returns {| status := 500; content := Failure "[object Object]" |}
         | Dropped text =>
             Returns {| status := 500; content := Failure text |}
         end,
         [SelectEquity; SelectEmployees ids])
    end.
Proof.
  intros Hm%not_OPTIONS Hs. cbn zeta. unfold started, handler.
  rewrite Hm, Hs. io_run.
  destruct (filter_Boolean _) as [|i ids];
    cbn -[filter_Boolean from_Set index_by_id shareholder_of]; [done|].
  by destruct (employees_reply e).
Qed.

(** X22. When the equity rows are served, the employees are asked for once
    at most, and for ids that are distinct and are exactly the non-empty
    employee ids of the rows; with no such id the employees are not asked for
    at all. *)
Theorem employees_asked_for_named_ids (method : string) (w : @world value)
    (e : env) :
  method <> "OPTIONS" -> equity_reply e = Served ->
  exists ids,
    NoDup ids
    /\ (forall s, s ∈ ids <->
          s <> "" /\ Some s ∈ map employee_id (employee_equity_table w))
    /\ snd (started (handler method w e)) =
         SelectEquity :: match ids with
                         | [] => []
                         | _ :: _ => [SelectEmployees ids]
                         end.
Proof.
  intros Hm Hs. rewrite (handler_served method w e Hm Hs). cbn zeta.
  exists (filter_Boolean (from_Set (map employee_id (employee_equity_table w)))).
  split_and!.
  - apply NoDup_filter_Boolean, NoDup_distinct.
  - apply employeeIds_spec.
  - by destruct (filter_Boolean _).
Qed.

(** X23. When both tables are served, the response is 200 with one
    shareholder for each equity row, in the rows' order: it carries the row's
    employee id and, as its only grant, the row's four columns.  For a row
    that names an employee the four employee fields are those of the employee
    with that id, a missing employee and a [null] field giving the empty
    string; for a row that names none they are empty, as long as no row has
    the id ["null"]. *)
Theorem shareholders_joined (method : string) (w : @world value) (e : env) :
  method <> "OPTIONS" -> equity_reply e = Served -> employees_reply e = Served ->
  exists shareholders,
    fst (started (handler method w e)) =
      Returns {| status := 200; content := Shareholders shareholders |}
    /\ length shareholders = length (employee_equity_table w)
    /\ forall k r s,
         employee_equity_table w !! k = Some r -> shareholders !! k = Some s ->
         holder_id s = employee_id r
         /\ employee_equity s = [columns r]
         /\ (names_employee (employee_id r) = true ->
             holder_first_name s = or_empty (employee_with w (employee_id r) ≫= first_name)
             /\ holder_last_name s = or_empty (employee_with w (employee_id r) ≫= last_name)
             /\ holder_position s = or_empty (employee_with w (employee_id r) ≫= position)
             /\ holder_email s = or_empty (employee_with w (employee_id r) ≫= email))
         /\ (names_employee (employee_id r) = false ->
             Some "null" ∉ map employee_id (employee_equity_table w) ->
             anonymous s).
Proof.
  intros Hm Hs Hs'. rewrite (handler_served method w e Hm Hs). cbn zeta.
  set (rows := employee_equity_table w).
  set (ids := filter_Boolean (from_Set (map employee_id rows))).
  assert (Hfield : forall field i,
    field_of (match ids with
              | [] => ∅
              | _ :: _ => index_by_id
                            (List.filter (fun x => bool_decide (id x ∈ ids))
                               (employees_table w))
              end) field i =
    if bool_decide (property_key i ∈ ids)
    then or_empty (employee_with w i ≫= field) else "").
  { intros field i. destruct ids as [|i0 ids'] eqn:Hids.
    - rewrite bool_decide_eq_false_2 by apply not_elem_of_nil.
      unfold field_of. by rewrite lookup_empty.
    - apply field_of_index. }
  exists (map (shareholder_of match ids with
                              | [] => ∅
                              | _ :: _ => index_by_id
                                            (List.filter
                                               (fun x => bool_decide (id x ∈ ids))
                                               (employees_table w))
                              end) rows).
  split_and!.
  - destruct ids; [done|]. by rewrite Hs'.
  - by rewrite length_map.
  - intros k r s Hr Hk. rewrite list_lookup_fmap, Hr in Hk.
    injection Hk as <-. cbn [holder_id employee_equity shareholder_of].
    split_and!; [done | done | |].
    + intros Hn. destruct (employee_id r) as [i|] eqn:Hi; [|done].
      cbn in Hn. apply negb_true_iff in Hn.
      assert (Hin : property_key (Some i) ∈ ids).
      { apply employeeIds_spec. change (property_key (Some i)) with i. split.
        - intros ->. by cbn in Hn.
        - rewrite <- Hi. apply list_elem_of_fmap_2.
          by eapply list_elem_of_lookup_2. }
      cbn [holder_first_name holder_last_name holder_position holder_email
           shareholder_of].
      rewrite !Hfield, !Hi, !bool_decide_eq_true_2 by done. done.
    + intros Hn Hnull.
      assert (Hout : property_key (employee_id r) ∉ ids).
      { intros [Hne Hin]%employeeIds_spec.
        destruct (employee_id r) as [i|]; [|done].
        cbn in Hn, Hne. apply negb_false_iff in Hn.
        by destruct (String.eqb_spec i ""). }
      unfold anonymous.
      cbn [holder_first_name holder_last_name holder_position holder_email
           shareholder_of].
      rewrite !Hfield, !bool_decide_eq_false_2 by done. done.
Qed.

(** X24. A query that does not answer from the tables gives 500, the
    first query always, the second when some row names an employee.  The body
    then carries what [String(e)] makes of the error: for an error that came
    in the query's result the text "[object Object]", whatever the error
    said, and for a rejected promise the text its reason prints as.  When no
    row names an employee the response is 200 whatever would have become of
    the second query, and no shareholder has a name. *)
Theorem dashboard_failures (method : string) (w : @world value) (e : env) :
  method <> "OPTIONS" ->
  let named := existsb names_employee (map employee_id (employee_equity_table w)) in
  let answered := fst (started (handler method w e)) in
  let failed text := Returns {| status := 500; content := Failure text |} in
  (forall message, equity_reply e = Refused message ->
     answered = failed "[object Object]")
  /\ (forall text, equity_reply e = Dropped text -> answered = failed text)
  /\ (equity_reply e = Served -> named = true ->
      (forall message, employees_reply e = Refused message ->
         answered = failed "[object Object]")
      /\ (forall text, employees_reply e = Dropped text -> answered = failed text))
  /\ (equity_reply e = Served -> named = false ->
        exists shareholders,
          answered = Returns {| status := 200; content := Shareholders shareholders |}
          /\ Forall anonymous shareholders).
Proof.
  intros Hm. cbn zeta.
  assert (Hnamed :
    existsb names_employee (map employee_id (employee_equity_table w)) = true
    <-> filter_Boolean (from_Set (map employee_id (employee_equity_table w))) <> []).
  { rewrite existsb_exists. split.
    - intros (i & Hin%list_elem_of_In & Hn) Hnil.
      destruct i as [s|]; [|done]. cbn in Hn. apply negb_true_iff in Hn.
      assert (Hs : s ∈ filter_Boolean
                     (from_Set (map employee_id (employee_equity_table w)))).
      { apply employeeIds_spec. split; [|done]. intros ->. by cbn in Hn. }
      rewrite Hnil in Hs. by apply elem_of_nil in Hs.
    - intros Hne. destruct (filter_Boolean _) as [|s l] eqn:Hf; [done|].
      assert (Hs : s ∈ filter_Boolean
                     (from_Set (map employee_id (employee_equity_table w))))
        by (rewrite Hf; left).
      apply employeeIds_spec in Hs as [Hs Hin]. exists (Some s). split.
      + by apply list_elem_of_In.
      + cbn. by destruct (String.eqb_spec s ""). }
  split_and!.
  - intros message Ht. unfold started, handler.
    rewrite (not_OPTIONS _ Hm), Ht. by io_run.
  - intros text Ht. unfold started, handler.
    rewrite (not_OPTIONS _ Hm), Ht. by io_run.
  - intros Hs Hn. rewrite (handler_served method w e Hm Hs). cbn zeta.
    apply Hnamed in Hn. destruct (filter_Boolean _); [done|]. cbn.
    split; intros ? ->; done.
  - intros Hs Hn. rewrite (handler_served method w e Hm Hs). cbn zeta.
    destruct (filter_Boolean _) as [|s l] eqn:Hf.
    + eexists. split; [done|]. apply Forall_fmap, Forall_true.
      intros r. unfold anonymous, shareholder_of, field_of. cbn.
      by rewrite lookup_empty.
    + assert (Hne : existsb names_employee
                      (map employee_id (employee_equity_table w)) = true)
        by (by apply Hnamed).
      congruence.
Qed.

End EquityDashboardProperties.

(** ** Creating an executive user *)

Section CreateExecutiveUserProperties.

Import Async CreateExecutiveUser.

Lemma length_slice (s : string) (from to : nat) :
  String.length (slice s from to) = (to - from) `min` (String.length s - from).
Proof.
  unfold slice. generalize (to - from) as m. revert from.
  induction s as [|c s IH]; intros from m.
  - destruct from, m; cbn; lia.
  - destruct from as [|from].
    + destruct m as [|m]; [done|]. cbn. specialize (IH 0 m).
      rewrite Nat.sub_0_r in IH. rewrite IH. lia.
    + cbn. apply IH.
Qed.

Lemma length_append (a b : string) :
  String.length (a ++ b) = String.length a + String.length b.
Proof.
  induction a as [|c a IH]; [done|].
  change (S (String.length (a ++ b)) = S (String.length a + String.length b)).
  by rewrite IH.
Qed.

Ltac io_run :=
  unfold started, handler, catch, mbind, io_bind, perform, awaits, throws,
    mret, io_ret;
  cbn.

(** X25. A request other than the preflight is always answered: with 200
    and the ids and the temporary password, exactly when the body parses,
    [createUser] resolves with a user and the insert resolves with a row;
    with 500 and a message otherwise. *)
Theorem executive_created_iff (method : string) (e : env) :
  method <> "OPTIONS" ->
  (exists resp, fst (started (handler method e)) = Returns resp
     /\ ((status resp = 200%Z /\ exists u x p, content resp = Success u x p)
         \/ (status resp = 500%Z /\ exists m, content resp = Failure m)))
  /\ forall userId execUserId password,
       fst (started (handler method e)) =
         Returns {| status := 200; content := Success userId execUserId password |}
       <-> (exists r, json e = Fulfils r)
           /\ createUser_result e = Fulfils (AuthData (Some userId))
           /\ insert_result e = Fulfils (ExecUser execUserId)
           /\ password = tempPassword e.
Proof.
  intros Hm%not_OPTIONS. unfold started, handler. rewrite Hm.
  destruct (json e) as [r|m0] eqn:Hj;
    [destruct (createUser_result e) as [[m1|[u|]]|m1] eqn:Hc;
       [| destruct (insert_result e) as [[m2|x]|m2] eqn:Hi;
            [destruct (deleteUser_result e) as [[]|m3] eqn:Hd | |] | |] |];
    io_run; rewrite ?Hj, ?Hc, ?Hi, ?Hd; cbn.
  all: split; [eexists; split; [reflexivity|]; cbn; eauto 8|].
  all: intros userId execUserId password; split;
    [intros [= <- <- <-] || intros [=]
    |intros ((r' & Hr') & Hc' & Hi' & ->); try done].
  all: try (split_and!; eauto; done).
  by simplify_eq.
Qed.

(** X26. The auth user is deleted again exactly when it was created and the
    insert into [exec_users] resolved with an error; an insert whose promise
    rejects leaves the created user in place.  After a deletion the response
    carries the insert's error message, unless the deletion's promise
    rejects: then it carries that rejection's. *)
Theorem cleanup_iff_insert_error (method : string) (e : env) (user_id : string) :
  (DeleteUser user_id ∈ snd (started (handler method e))
   <-> method <> "OPTIONS"
       /\ (exists r, json e = Fulfils r)
       /\ createUser_result e = Fulfils (AuthData (Some user_id))
       /\ exists m, insert_result e = Fulfils (ExecError m))
  /\ (DeleteUser user_id ∈ snd (started (handler method e)) ->
      forall m, insert_result e = Fulfils (ExecError m) ->
      fst (started (handler method e)) =
        Returns {| status := 500;
                   content := Failure match deleteUser_result e with
                                      | Fulfils _ => m
                                      | RejectsWith m' => m'
                                      end |}).
Proof.
  unfold started, handler.
  destruct (String.eqb_spec method "OPTIONS") as [->|Hm].
  { cbn. split; [|by intros ?%elem_of_nil].
    split; [by intros ?%elem_of_nil | by intros [? _]]. }
  destruct (json e) as [r|m0] eqn:Hj;
    [destruct (createUser_result e) as [[m1|[u|]]|m1] eqn:Hc;
       [| destruct (insert_result e) as [[m2|x]|m2] eqn:Hi;
            [destruct (deleteUser_result e) as [[]|m3] eqn:Hd | |] | |] |];
    io_run; rewrite ?Hj, ?Hc, ?Hi, ?Hd; cbn.
  all: split;
    [split;
      [rewrite ?elem_of_cons, elem_of_nil; intros H;
       repeat (destruct H as [H|H]; try done); simplify_eq; eauto 8
      |intros (_ & (r' & Hr') & Hc' & (m' & Hi')); simplify_eq;
       rewrite ?elem_of_cons; eauto 8]
    |intros Hin m' Hm'; rewrite ?elem_of_cons, elem_of_nil in Hin;
     repeat (destruct Hin as [Hin|Hin]; try done); by simplify_eq].
Qed.

(** X27. The password given to [createUser] is at most eight characters of
    the random number's base-36 text after its first two, followed by
    [A1!]: between three and eleven characters, and only three when the text is
    no longer than two. *)
Theorem temp_password_length (method : string) (e : env) (x : effect)
    (password : string) :
  x ∈ snd (started (handler method e)) ->
  password_of x = Some password ->
  password = (slice (random36 e) 2 10 ++ "A1!")%string
  /\ String.length password = 3 + 8 `min` (String.length (random36 e) - 2).
Proof.
  intros Hin Hp.
  assert (Hpw : password = tempPassword e).
  { revert Hin. unfold started, handler.
    destruct (String.eqb method "OPTIONS"); [by intros ?%elem_of_nil|].
    destruct (json e) as [r|m0] eqn:Hj;
      [destruct (createUser_result e) as [[m1|[u|]]|m1] eqn:Hc;
         [| destruct (insert_result e) as [[m2|y]|m2] eqn:Hi;
              [destruct (deleteUser_result e) as [[]|m3] eqn:Hd | |] | |] |];
      io_run; rewrite ?Hj, ?Hc, ?Hi, ?Hd; cbn;
      rewrite ?elem_of_cons, elem_of_nil; intros H;
      repeat (destruct H as [H|H]; try done); subst x; cbn in Hp;
      congruence. }
  subst password. unfold tempPassword. split; [done|].
  rewrite length_append, length_slice. cbn. lia.
Qed.

End CreateExecutiveUserProperties.

(** ** Hiring *)

Section PersonnelManagerProperties.

Import Async PersonnelManager.

Lemma prefix_app (p s : string) :
  String.prefix p s = true <-> exists post, s = (p ++ post)%string.
Proof.
  revert s. induction p as [|c p IH]; intros s.
  - split; [by exists s | by destruct s].
  - destruct s as [|c' s]; cbn.
    + split; [done | by intros [? ?]].
    + destruct (Ascii.ascii_dec c c') as [<- | Hne].
      * rewrite IH. split; intros [post H]; exists post.
        -- by rewrite H.
        -- by injection H.
      * split; [done|]. intros [post H]. by injection H.
Qed.

Lemma includes_app (s p : string) :
  includes s p = true <-> exists pre post, s = (pre ++ p ++ post)%string.
Proof.
  induction s as [|c s IH].
  - cbn [includes]. rewrite orb_false_r, prefix_app. split.
    + intros [post H]. by exists "", post.
    + intros (pre & post & H). destruct pre; cbn in H; [by exists post|done].
  - cbn [includes]. rewrite orb_true_iff, prefix_app, IH. split.
    + intros [[post H] | (pre & post & H)].
      * by exists "", post.
      * exists (String c pre), post. by rewrite H.
    + intros ([|c' pre] & post & H).
      * left. by exists post.
      * right. exists pre, post. by injection H.
Qed.

Lemma append_assoc (a b c : string) : ((a ++ b) ++ c = a ++ b ++ c)%string.
Proof.
  induction a as [|x a IH]; [done|].
  change (String x ((a ++ b) ++ c) = String x (a ++ b ++ c))%string.
  by rewrite IH.
Qed.

Lemma includes_trans (s a b : string) :
  includes s a = true -> includes a b = true -> includes s b = true.
Proof.
  rewrite !includes_app. intros (p1 & q1 & ->) (p2 & q2 & ->).
  exists (p1 ++ p2)%string, (q2 ++ q1)%string.
  by rewrite !append_assoc.
Qed.

Ltac io_run :=
  unfold started, handleHire, send_documents, catch, mbind, io_bind, perform,
    awaits, throws, mret, io_ret.

(** X28. The pattern is searched anywhere in the position, also inside a
    word and in any letter case: a position that holds a word with [cto] in
    it, as Director has, is taken for a C-level one, and has the equity offer
    agreement among its required documents. *)
Theorem word_with_cto_is_c_level (position word : string) :
  includes word "cto" = true ->
  includes (toLowerCase position) word = true ->
  isCLevel position = true
  /\ "equity_offer_agreement" ∈ required_documents position.
Proof.
  intros Hw Hp.
  assert (Hc : isCLevel position = true).
  { unfold isCLevel. apply existsb_exists. exists "cto". split.
    - cbn. tauto.
    - by apply (includes_trans _ word). }
  split; [done|]. unfold required_documents. rewrite Hc.
  destruct (isCEO position); set_solver.
Qed.

Ltac hire_cases v e :=
  destruct (isCLevel (position v)) eqn:HC;
  destruct (equity v) as [q|] eqn:Hq;
  cbn [equity_given andb];
  try destruct (negb (Qle_bool q 0)) eqn:Hpos;
  destruct (isCEO (position v)) eqn:HE;
  destruct (board_resolution_sent e) as [[]|?] eqn:H1;
  destruct (offer_letter_sent e) as [[]|?] eqn:H2;
  destruct (equity_agreement_sent e) as [[]|?] eqn:H3;
  destruct (founders_agreement_sent e) as [[]|?] eqn:H4;
  cbn [app fst snd].

(** X29. Once the records are written and with every invocation resolving,
    the equity offer agreement is sent exactly for a C-level position with a
    positive equity, while the toast reports it as sent, and the board
    resolution lists it as required, for every C-level position. *)
Theorem equity_agreement_reported_for_every_c_level (v : values) (e : env) :
  recorded e -> documents_go_out e ->
  let log := snd (started (handleHire v e)) in
  (Invoke "send-equity-offer-agreement" ∈ log
   <-> isCLevel (position v) = true /\ equity_given (equity v) = true)
  /\ (existsb names_equity_agreement log = true <-> isCLevel (position v) = true)
  /\ (forall docs, InsertResolution docs ∈ log ->
        "equity_offer_agreement" ∈ docs <-> isCLevel (position v) = true).
Proof.
  intros ((user & Hu) & (employee_id & rest & Hi) & He & Hh & Hr)
    (D1 & D2 & D3 & D4).
  cbn zeta. io_run. rewrite Hu, Hi, He, Hh, Hr, D1, D2, D3, D4.
  cbn [error data app fst snd].
  unfold required_documents, documentsSent.
  destruct (isCLevel (position v)) eqn:HC;
    destruct (equity v) as [q|] eqn:Hq;
    cbn [equity_given andb];
    try destruct (negb (Qle_bool q 0)) eqn:Hpos;
    destruct (isCEO (position v)) eqn:HE;
    cbn [app fst snd].
  all: split_and!;
    [rewrite ?elem_of_cons, elem_of_nil; split;
       [intros H; repeat (destruct H as [H|H]; try done) | intros [? ?]; try done; tauto]
    |by vm_compute
    |intros docs; rewrite ?elem_of_cons, elem_of_nil; intros H;
     repeat (destruct H as [H|H]; try done); simplify_eq;
     split; intros H'; try done;
     rewrite ?elem_of_cons, ?elem_of_nil in *;
     (tauto || (repeat (destruct H' as [H'|H']; try done)))].
Qed.

(** X30. Once the records are written the hire is reported as a success
    whatever becomes of the documents: there is exactly one success toast and
    no error toast, the dialog is closed, the form reset and the list fetched
    again.  When the first invocation rejects no other document is sent, and
    the toast is the one noting that some documents failed to send. *)
Theorem hire_reported_whatever_documents_do (v : values) (e : env) :
  recorded e ->
  let log := snd (started (handleHire v e)) in
  fst (started (handleHire v e)) = Returns tt
  /\ length (List.filter is_MessageSuccess log) = 1
  /\ List.filter is_MessageError log = []
  /\ (exists written,
        log = written ++ [SetIsModalVisible false; ResetFields; FetchEmployees])
  /\ (forall m, board_resolution_sent e = RejectsWith m ->
        List.filter is_Invoke log = [Invoke "send-board-resolution"]
        /\ MessageSuccess (Hired (first_name v) (last_name v) None) ∈ log).
Proof.
  intros ((user & Hu) & (employee_id & rest & Hi) & He & Hh & Hr).
  cbn zeta. io_run. rewrite Hu, Hi, He, Hh, Hr.
  cbn [error data app fst snd].
  hire_cases v e.
  all: split_and!;
    [done | done | done
    |match goal with
     | |- exists w, ?l = w ++ _ => by exists (take (length l - 3) l)
     end
    |intros m' Hm'; first [done | split; [done | set_solver]]].
Qed.

End PersonnelManagerProperties.

(** * Scenarios *)

Lemma eqb_generated_from (p : string) : generated_from String.eqb p p.
Proof. intros q. apply String.eqb_eq. Qed.

Lemma fresh_record_stored (digits : list string) :
  stored_hash ceo (holding digits [fresh_record]) "123456".
Proof. exists fresh_record. split; reflexivity. Qed.

Lemma C1_pin_scenario_witness :
  let st := holding ["1"; "2"; "3"; "4"; "5"; "6"] [fresh_record] in
  let granted := exec (verifyPin ceo String.eqb "123456" all_well) st in
  let denied := exec (verifyPin ceo String.eqb "000000" all_well) st in
  (trace granted =
     [Select "pin_hash" ceo;
      Update (AuditFields (now all_well) 1) ceo;
      MessageSuccess "Access Granted";
      SetTimeout]
   /\ error granted = "" /\ loading granted = false
   /\ exists r', List.filter (matches ceo) (table granted) = [r']
                 /\ last_access_at r' = Some (now all_well)
                 /\ access_count r' = access_count fresh_record)
  /\ (trace denied = [Select "pin_hash" ceo]
      /\ error denied = "Invalid PIN. Access Denied."
      /\ pin denied = empty_pin
      /\ table denied = [fresh_record]
      /\ loading denied = false).
Proof.
  destruct (C1_pin_scenario ceo String.eqb
              (holding ["1"; "2"; "3"; "4"; "5"; "6"] [fresh_record])
              all_well "123456")
    as [(Htrace & Herror & Hloading & Htable) Hdenied].
  - apply eqb_generated_from.
  - apply fresh_record_stored.
  - reflexivity.
  - discriminate.
  - split; [|exact Hdenied].
    split_and!; [exact Htrace | exact Herror | exact Hloading|].
    apply Htable; reflexivity.
Defined.

(** The access count at the input C1 fails on: a record counting no access,
    the right PIN, the lookup and the update both delivered.  After the grant
    the record has its timestamp and still counts no access. *)
Lemma C1_access_count_not_incremented :
  table (exec (verifyPin ceo String.eqb "123456" all_well)
           (holding ["1"; "2"; "3"; "4"; "5"; "6"] [fresh_record]))
  = [ {| user_email := ceo; pin_hash := Some "123456";
         biometric_credential_id := None; biometric_public_key := None;
         last_access_at := Some (now all_well); access_count := 0 |} ].
Proof. reflexivity. Qed.

Lemma C2_denials_differ_witness :
  let not_found := exec (verifyPin ceo String.eqb "000000" all_well)
                     (holding ["0"; "0"; "0"; "0"; "0"; "0"] []) in
  let invalid := exec (verifyPin ceo String.eqb "000000" all_well)
                   (holding ["0"; "0"; "0"; "0"; "0"; "0"] [fresh_record]) in
  alert (render not_found) = Some ("Access Denied", "Access credentials not found")
  /\ pin not_found = map Str ["0"; "0"; "0"; "0"; "0"; "0"]
  /\ alert (render invalid) = Some ("Access Denied", "Invalid PIN. Access Denied.")
  /\ pin invalid = empty_pin
  /\ alert (render not_found) <> alert (render invalid).
Proof.
  apply (C2_denials_differ ceo String.eqb
           (holding ["0"; "0"; "0"; "0"; "0"; "0"] [])
           (holding ["0"; "0"; "0"; "0"; "0"; "0"] [fresh_record])
           all_well "000000" "123456").
  - reflexivity.
  - reflexivity.
  - apply fresh_record_stored.
  - reflexivity.
Defined.

(** Against C2 as the specification words it: for the same submitted PIN the
    alert shown when no record exists is not the alert shown on a mismatch. *)
Lemma C2_counterexample :
  alert (render (exec (verifyPin ceo String.eqb "000000" all_well)
                   (holding ["0"; "0"; "0"; "0"; "0"; "0"] [])))
  <> alert (render (exec (verifyPin ceo String.eqb "000000" all_well)
                      (holding ["0"; "0"; "0"; "0"; "0"; "0"] [fresh_record]))).
Proof. vm_compute. discriminate. Qed.

Lemma C3_reset_on_mismatch_only_witness :
  let st := holding ["1"; "2"; "3"; "4"; "5"; "6"] [fresh_record] in
  pin (exec (verifyPin ceo String.eqb "000000" all_well) st) = empty_pin
  /\ (pin (exec (verifyPin ceo String.eqb "123456" all_well) st) = pin st
      /\ focused (exec (verifyPin ceo String.eqb "123456" all_well) st) = focused st).
Proof.
  cbv zeta. split.
  - apply (C3_reset_on_mismatch_only ceo String.eqb
             (holding ["1"; "2"; "3"; "4"; "5"; "6"] [fresh_record])
             all_well "000000" "123456");
      [reflexivity | apply fresh_record_stored | reflexivity].
  - apply (C3_reset_on_mismatch_only ceo String.eqb
             (holding ["1"; "2"; "3"; "4"; "5"; "6"] [fresh_record])
             all_well "123456" "123456");
      [reflexivity | apply fresh_record_stored | reflexivity].
Defined.

(** Against C3 as the specification words it: after a successful attempt,
    and after an attempt that finds no record, the six positions still hold
    the entered digits, and in the second case focus has not returned to the
    first position. *)
Lemma C3_counterexample :
  let digits := ["1"; "2"; "3"; "4"; "5"; "6"] in
  let success := exec (verifyPin ceo String.eqb "123456" all_well)
                   (holding digits [fresh_record]) in
  let not_found := exec (verifyPin ceo String.eqb "123456" all_well)
                     (holding digits []) in
  (pin success = map Str digits /\ pin success <> empty_pin)
  /\ (pin not_found = map Str digits /\ pin not_found <> empty_pin
      /\ focused not_found <> Some 0).
Proof. vm_compute. repeat split; discriminate. Qed.

(** Against C4 as the specification words it: six digits entered with the
    first position filled last leave a completed sequence in the inputs and
    no verification call. *)
Lemma C4_counterexample :
  let evs := [Change 1 "2" all_well; Change 2 "3" all_well;
              Change 3 "4" all_well; Change 4 "5" all_well;
              Change 5 "6" all_well; Change 0 "1" all_well] in
  let s := session ceo String.eqb None [fresh_record] evs in
  pin s = map Str ["1"; "2"; "3"; "4"; "5"; "6"]
  /\ every_nonempty (pin s) = true
  /\ verification_calls s = 0.
Proof. vm_compute. repeat split. Qed.

(** Against C5 as the specification words it: PIN edits after a grant lead to
    a second grant, and the success callback is invoked twice in the
    session. *)
Lemma C5_counterexample :
  let s := session ceo String.eqb None [fresh_record] granted_twice in
  count is_grant (trace s) = 2 /\ count is_OnSuccess (trace s) = 2.
Proof. vm_compute. split; reflexivity. Qed.

Lemma C6_audit_write_failure_witness :
  let st := holding ["1"; "2"; "3"; "4"; "5"; "6"] [fresh_record] in
  let ignored := exec (verifyPin ceo String.eqb "123456" audit_fails) st in
  let caught := exec (verifyPin ceo String.eqb "123456" audit_rejects) st in
  (trace ignored =
     [Select "pin_hash" ceo;
      Update (AuditFields (now all_well) 1) ceo;
      MessageSuccess "Access Granted";
      SetTimeout]
   /\ error ignored = "")
  /\ (trace caught =
        [Select "pin_hash" ceo;
         Update (AuditFields (now all_well) 1) ceo;
         ConsoleError "PIN verification error:"]
      /\ error caught = "Authentication error").
Proof.
  cbv zeta. split.
  - apply (C6_audit_write_failure ceo String.eqb
             (holding ["1"; "2"; "3"; "4"; "5"; "6"] [fresh_record])
             audit_fails "123456" "123456");
      [reflexivity | apply fresh_record_stored | reflexivity | reflexivity].
  - apply (C6_audit_write_failure ceo String.eqb
             (holding ["1"; "2"; "3"; "4"; "5"; "6"] [fresh_record])
             audit_rejects "123456" "123456");
      [reflexivity | apply fresh_record_stored | reflexivity | reflexivity].
Defined.

(** Against C6 as the specification words it: an audit write that fails in
    its result is not logged, and one that rejects is surfaced and keeps the
    success callback from being scheduled. *)
Lemma C6_counterexample :
  let st := holding ["1"; "2"; "3"; "4"; "5"; "6"] [fresh_record] in
  let ignored := exec (verifyPin ceo String.eqb "123456" audit_fails) st in
  let caught := exec (verifyPin ceo String.eqb "123456" audit_rejects) st in
  count is_console_error (trace ignored) = 0
  /\ alert (render caught) = Some ("Access Denied", "Authentication error")
  /\ count is_SetTimeout (trace caught) = 0.
Proof. vm_compute. repeat split. Qed.

Lemma C7_biometric_hidden_witness :
  let s := session ceo String.eqb (Some (Resolves false))
             [record_of (Some "AQID") (Some "o2M=")]
             [ClickBiometric all_well; Change 0 "1" all_well] in
  biometric_button (render s) = None /\ count is_ceremony (trace s) = 0.
Proof.
  apply (C7_biometric_hidden ceo String.eqb (Some (Resolves false))).
  right. reflexivity.
Defined.

(** C8 at four invocations.  With nothing on file the flow registers.  With
    the id "AQID" on file and the lookup answered it asks for an assertion.
    With the same id on file and a lookup that resolves with an error it
    registers a second time and the stored credential is replaced.  With the
    id "q83-_w" on file, which [atob] does not decode, the platform is asked
    for nothing. *)
Lemma C8_biometric_flow_witness :
  let first := exec (handleBiometricAuth ceo all_well) (init [fresh_record]) in
  let next := exec (handleBiometricAuth ceo all_well) (init [registered_record]) in
  let failed := exec (handleBiometricAuth ceo lookup_fails) (init [registered_record]) in
  let undecoded := exec (handleBiometricAuth ceo all_well) (init [url_safe_record]) in
  (count is_create (trace first) = 1 /\ count is_get (trace first) = 0
   /\ on_file ceo first = Some "AQID")
  /\ (count is_create (trace next) = 0 /\ count is_get (trace next) = 1
      /\ table next = [registered_record])
  /\ (on_file ceo (init [registered_record]) = Some "AQID"
      /\ count is_create (trace failed) = 1 /\ count is_get (trace failed) = 0
      /\ on_file ceo failed = Some "BAUG")
  /\ (on_file ceo (init [url_safe_record]) = Some "q83-_w"
      /\ count is_create (trace undecoded) = 0
      /\ count is_get (trace undecoded) = 0).
Proof.
  cbv zeta.
  pose proof (C8_biometric_flow ceo (init [fresh_record]) all_well)
    as (Hc1 & Hg1 & _ & Hs1).
  pose proof (C8_biometric_flow ceo (init [registered_record]) all_well)
    as (Hc2 & Hg2 & Ht2 & _).
  pose proof (C8_biometric_flow ceo (init [registered_record]) lookup_fails)
    as (Hc3 & Hg3 & _ & Hs3).
  pose proof (C8_biometric_flow ceo (init [url_safe_record]) all_well)
    as (Hc4 & Hg4 & _ & _).
  destruct (Hs1 eq_refl _ fresh_record eq_refl eq_refl
              ltac:(discriminate) ltac:(discriminate) eq_refl)
    as (? & _ & _ & _ & Hf1).
  destruct (Hs3 eq_refl _ registered_record eq_refl eq_refl
              ltac:(discriminate) ltac:(discriminate) eq_refl)
    as (? & _ & _ & _ & Hf3).
  split_and!;
    [exact Hc1 | exact Hg1 | exact Hf1
    |exact Hc2 | exact Hg2 | exact (Ht2 eq_refl)
    |reflexivity | exact Hc3 | exact Hg3 | exact Hf3
    |reflexivity | exact Hc4 | exact Hg4].
Defined.

Lemma C9_keystroke_witness :
  let st := init [fresh_record] in
  handlePinChange ceo String.eqb 2 "x" all_well st = (Done tt, st)
  /\ handlePinChange ceo String.eqb 2 "12" all_well st = (Done tt, st)
  /\ pin (exec (handlePinChange ceo String.eqb 2 "7" all_well) st) !! 2 = Some (Str "7")
  /\ focused (exec (handlePinChange ceo String.eqb 2 "7" all_well) st) = Some 3.
Proof.
  cbv zeta.
  pose proof (C9_keystroke ceo String.eqb (init [fresh_record]) 2 "x" all_well)
    as [Hx _].
  pose proof (C9_keystroke ceo String.eqb (init [fresh_record]) 2 "12" all_well)
    as [Hlong _].
  pose proof (C9_keystroke ceo String.eqb (init [fresh_record]) 2 "7" all_well)
    as [_ Hdigit].
  destruct (Hdigit eq_refl) as [Hstored Hnext].
  destruct (Hnext ltac:(repeat constructor) eq_refl) as [Hsame Hfocus].
  split; [apply Hx; right; split; reflexivity|].
  split; [apply Hlong; left; repeat constructor|].
  rewrite Hsame. split; [exact Hstored | exact Hfocus].
Defined.

Lemma C10_public_key_unused_witness :
  let st1 := init [record_of (Some "AQID") (Some "o2M=")] in
  let st2 := init [record_of (Some "AQID") (Some "pGQ=")] in
  let r1 := handleBiometricAuth ceo all_well st1 in
  let r2 := handleBiometricAuth ceo all_well st2 in
  st1 <> st2
  /\ fst r1 = fst r2
  /\ forget (snd r1) = forget (snd r2)
  /\ table (snd r1) = table st1
  /\ table (snd r2) = table st2
  /\ trace (snd r1) =
       [biometric_lookup ceo; CredentialsGet (String "001" (String "002" (String "003" "")));
        MessageSuccess "Biometric verified"; SetTimeout].
Proof.
  cbv zeta. split; [discriminate|].
  exact (C10_public_key_unused ceo
           (init [record_of (Some "AQID") (Some "o2M=")])
           (init [record_of (Some "AQID") (Some "pGQ=")])
           all_well "AQID" eq_refl eq_refl eq_refl).
Defined.

(** ** Instances of the further properties *)

Lemma verifyPin_grants_iff_witness :
  let st := holding ["6"; "5"; "4"; "3"; "2"; "1"] [fresh_record] in
  error (exec (verifyPin ceo String.eqb "654321" all_well) st)
  = "Invalid PIN. Access Denied."
  /\ count is_grant (trace (exec (verifyPin ceo String.eqb "123456" all_well) st))
     = count is_grant (trace st) + 1.
Proof.
  cbv zeta. split.
  - apply (verifyPin_grants_iff ceo String.eqb
             (holding ["6"; "5"; "4"; "3"; "2"; "1"] [fresh_record])
             all_well "123456" "123456" "654321");
      [apply eqb_generated_from | apply fresh_record_stored | reflexivity
      | discriminate | discriminate].
  - apply (verifyPin_grants_iff ceo String.eqb
             (holding ["6"; "5"; "4"; "3"; "2"; "1"] [fresh_record])
             all_well "123456" "123456" "123456");
      [apply eqb_generated_from | apply fresh_record_stored | reflexivity
      | discriminate | reflexivity].
Defined.

Lemma verifyPin_grant_sound_witness :
  select_net all_well = Delivered
  /\ exists r h,
       List.filter (matches ceo) [fresh_record] = [r]
       /\ pin_hash r = Some h
       /\ String.eqb "123456" h = true.
Proof.
  apply (verifyPin_grant_sound ceo String.eqb
           (holding ["1"; "2"; "3"; "4"; "5"; "6"] [fresh_record])
           all_well "123456").
  left. vm_compute. discriminate.
Defined.

Lemma session_submits_six_digits_witness :
  six_digits "123456".
Proof.
  apply (session_submits_six_digits ceo String.eqb None [fresh_record]
           [Change 0 "1" all_well; Change 1 "2" all_well; Change 2 "3" all_well;
            Change 3 "4" all_well; Change 4 "5" all_well]
           5 "6" "123456");
    reflexivity.
Defined.

Lemma keystroke_is_local_witness :
  let st := holding ["1"; "2"; ""; ""; ""; ""] [fresh_record] in
  let entered := exec (handlePinChange_sync 2 "3") st in
  (forall j, j <> 2 -> pin entered !! j = pin st !! j)
  /\ length (pin entered) = 6
  /\ alert (render entered) = None
  /\ table entered = table st
  /\ trace entered = trace st.
Proof.
  apply (keystroke_is_local
           (holding ["1"; "2"; ""; ""; ""; ""] [fresh_record]) 2 "3").
  - split; reflexivity.
  - reflexivity.
  - right. reflexivity.
Defined.

Lemma handleKeyDown_backspace_witness :
  let st := holding ["1"; "2"; ""; ""; ""; ""] [fresh_record] in
  exec (handleKeyDown 2 "Backspace") st = with_focused 1 st
  /\ exec (handleKeyDown 1 "Backspace") st = st
  /\ exec (handleKeyDown 0 "Backspace") (init []) = init [].
Proof.
  cbv zeta.
  pose proof (handleKeyDown_backspace
                (holding ["1"; "2"; ""; ""; ""; ""] [fresh_record]) 2 "Backspace"
                (conj eq_refl eq_refl)) as (Hback & _ & _).
  pose proof (handleKeyDown_backspace
                (holding ["1"; "2"; ""; ""; ""; ""] [fresh_record]) 1 "Backspace"
                (conj eq_refl eq_refl)) as (_ & Hfilled & _).
  pose proof (handleKeyDown_backspace (init []) 0 "Backspace"
                (conj eq_refl eq_refl)) as (_ & Hfirst & _).
  split; [|split].
  - apply Hback. repeat split. repeat constructor.
  - apply Hfilled. right. left. discriminate.
  - apply Hfirst. right. right. reflexivity.
Defined.

Lemma failed_lookup_registers_again_witness :
  let after := exec (handleBiometricAuth ceo lookup_fails) (init [registered_record]) in
  on_file ceo (init [registered_record]) = Some "AQID"
  /\ count is_create (trace after) = 1
  /\ List.filter (matches ceo) (table after) = [record_of (Some "BAUG") (Some "Aw==")].
Proof.
  cbv zeta.
  pose proof (failed_lookup_registers_again ceo (init [registered_record])
                lookup_fails eq_refl) as (_ & Hcreate & _ & Hstored).
  split; [reflexivity|]. split; [exact Hcreate|].
  exact (Hstored _ registered_record eq_refl eq_refl eq_refl).
Defined.

Lemma url_safe_id_never_reaches_platform_witness :
  exec (authenticateBiometric "q83-_w" all_well) (init [])
  = with_loading false
      (with_error "Biometric verification failed"
         (log (ConsoleError "Biometric authentication error:") (init []))).
Proof.
  apply (url_safe_id_never_reaches_platform (init []) all_well "q83-_w" "-"%char).
  - apply list_elem_of_In. cbn. tauto.
  - left. reflexivity.
Defined.

Lemma registration_not_completed_witness :
  let after := exec (registerBiometric ceo ceremony_cancelled) (init [fresh_record]) in
  table after = [fresh_record]
  /\ count is_biometric_update (trace after) = 0
  /\ count is_SetTimeout (trace after) = 0
  /\ loading after = false
  /\ error after = "Failed to register biometric".
Proof.
  apply (registration_not_completed ceo (init [fresh_record]) ceremony_cancelled).
  left. reflexivity.
Defined.

Lemma stored_public_key_decodes_witness :
  exists r' k,
    List.filter (matches ceo)
      (table (exec (registerBiometric ceo all_well) (init [fresh_record]))) = [r']
    /\ biometric_credential_id r' = Some "AQID"
    /\ biometric_public_key r' = Some k
    /\ atob k = Some (fromCharCode [Byte.x01; Byte.x02]).
Proof.
  exact (stored_public_key_decodes ceo (init [fresh_record]) all_well _
           fresh_record eq_refl eq_refl eq_refl).
Defined.

Lemma in_order_entry_witness :
  let evs := typed ["1"; "2"; "3"; "4"; "5"; "6"] all_well in
  (forall k, k < 6 ->
     verification_calls (session ceo String.eqb None [fresh_record] (take k evs)) = 0)
  /\ verification_calls (session ceo String.eqb None [fresh_record] evs) = 1
  /\ exists st, session ceo String.eqb None [fresh_record] evs
                = exec (verifyPin ceo String.eqb "123456" all_well) st.
Proof.
  apply (in_order_entry ceo String.eqb None [fresh_record]
           "1" "2" "3" "4" "5" "6"
           all_well all_well all_well all_well all_well all_well).
  repeat constructor.
Defined.

Lemma no_lockout_witness :
  let s := session ceo String.eqb None [fresh_record]
             (typed ["0"; "0"; "0"; "0"; "0"; "0"] all_well
              ++ typed ["1"; "1"; "1"; "1"; "1"; "1"] all_well
              ++ typed ["1"; "2"; "3"; "4"; "5"; "6"] all_well) in
  count is_grant (trace s) = 1
  /\ count is_SetTimeout (trace s) = 1
  /\ alert (render s) = None.
Proof.
  cbv zeta.
  pose proof (no_lockout ceo String.eqb None [fresh_record] all_well "123456"
                [["0"; "0"; "0"; "0"; "0"; "0"]; ["1"; "1"; "1"; "1"; "1"; "1"]]
                ["1"; "2"; "3"; "4"; "5"; "6"]) as H.
  cbn [map concat app] in H. rewrite <- !app_assoc in H.
  apply H.
  - exists fresh_record. split; reflexivity.
  - reflexivity.
  - discriminate.
  - repeat constructor.
  - repeat constructor.
  - reflexivity.
Defined.

Lemma no_single_record_never_matches_witness :
  let after := exec (verifyPin ceo String.eqb "123456" all_well)
                 (init [fresh_record; fresh_record]) in
  after = exec (verifyPin ceo String.eqb "" all_well)
            (init [fresh_record; fresh_record])
  /\ alert (render after) = Some ("Access Denied", "Access credentials not found")
  /\ trace after = [Select "pin_hash" ceo]
  /\ pin after = empty_pin
  /\ table after = [fresh_record; fresh_record].
Proof.
  apply (no_single_record_never_matches ceo String.eqb
           (init [fresh_record; fresh_record]) all_well "123456").
  left. split; [reflexivity | discriminate].
Defined.

Lemma verifyPin_lookup_rejects_witness :
  let after := exec (verifyPin ceo String.eqb "123456" lookup_rejects)
                 (holding ["1"; "2"; "3"; "4"; "5"; "6"] [fresh_record]) in
  trace after = [Select "pin_hash" ceo; ConsoleError "PIN verification error:"]
  /\ alert (render after) = Some ("Access Denied", "Authentication error")
  /\ pin after = map Str ["1"; "2"; "3"; "4"; "5"; "6"]
  /\ table after = [fresh_record]
  /\ loading after = false.
Proof.
  apply (verifyPin_lookup_rejects ceo String.eqb
           (holding ["1"; "2"; "3"; "4"; "5"; "6"] [fresh_record])
           lookup_rejects "123456").
  reflexivity.
Defined.

Lemma biometric_lookup_rejects_witness :
  let after := exec (handleBiometricAuth ceo lookup_rejects) (init [registered_record]) in
  trace after = [biometric_lookup ceo; ConsoleError "Biometric auth error:"]
  /\ alert (render after)
     = Some ("Access Denied", "Biometric authentication failed")
  /\ table after = [registered_record]
  /\ loading after = false.
Proof.
  apply (biometric_lookup_rejects ceo (init [registered_record]) lookup_rejects).
  reflexivity.
Defined.

(** ** Instances for the other parts *)

Section OtherInstances.

Import Async.

Lemma zoom_and_rotation_compose_witness :
  let st := DocumentImageViewer.initial in
  DocumentImageViewer.handleRotate
    (DocumentImageViewer.handleRotate
       (DocumentImageViewer.handleRotate (DocumentImageViewer.handleRotate st))) = st
  /\ DocumentImageViewer.handleZoomOut (DocumentImageViewer.handleZoomIn st) = st.
Proof.
  pose proof (zoom_and_rotation_compose DocumentImageViewer.initial) as H.
  destruct H as (H4 & Hio & _).
  - split; [cbn; lia | by exists 4%Z].
  - by left.
  - split; [exact H4 | apply Hio; cbn; lia].
Defined.

Lemma employees_asked_for_named_ids_witness :
  exists ids,
    NoDup ids
    /\ (forall s, s ∈ ids <->
          s <> ""
          /\ Some s ∈ map EquityDashboard.employee_id
                      (EquityDashboard.employee_equity_table EquityDashboard.ledger))
    /\ snd (started (EquityDashboard.handler "GET" EquityDashboard.ledger
                       EquityDashboard.both_served)) =
         EquityDashboard.SelectEquity
         :: match ids with
            | [] => []
            | _ :: _ => [EquityDashboard.SelectEmployees ids]
            end.
Proof.
  apply (employees_asked_for_named_ids "GET" EquityDashboard.ledger
           EquityDashboard.both_served); [discriminate | reflexivity].
Defined.

Lemma shareholders_joined_witness :
  exists shareholders,
    fst (started (EquityDashboard.handler "GET" EquityDashboard.ledger
                    EquityDashboard.both_served)) =
      Returns {| EquityDashboard.status := 200;
                 EquityDashboard.content :=
                   EquityDashboard.Shareholders shareholders |}
    /\ length shareholders = 4.
Proof.
  destruct (shareholders_joined "GET" EquityDashboard.ledger
              EquityDashboard.both_served) as (l & Hl & Hlen & _);
    [discriminate | reflexivity | reflexivity |].
  exists l. split; [exact Hl | exact Hlen].
Defined.

Lemma dashboard_failures_witness :
  fst (started (EquityDashboard.handler "GET" EquityDashboard.ledger
                  EquityDashboard.employees_refused)) =
    Returns {| EquityDashboard.status := 500;
               EquityDashboard.content :=
                 EquityDashboard.Failure "[object Object]" |}
  /\ fst (started (EquityDashboard.handler "GET" EquityDashboard.ledger
                     EquityDashboard.employees_dropped)) =
       Returns {| EquityDashboard.status := 500;
                  EquityDashboard.content :=
                    EquityDashboard.Failure "TypeError: error sending request" |}.
Proof.
  destruct (dashboard_failures "GET" EquityDashboard.ledger
              EquityDashboard.employees_refused) as (_ & _ & Hrefused & _);
    [discriminate|].
  destruct (dashboard_failures "GET" EquityDashboard.ledger
              EquityDashboard.employees_dropped) as (_ & _ & Hdropped & _);
    [discriminate|].
  split.
  - apply (proj1 (Hrefused eq_refl eq_refl) "permission denied"). reflexivity.
  - apply (proj2 (Hdropped eq_refl eq_refl) "TypeError: error sending request").
    reflexivity.
Defined.

Lemma executive_created_iff_witness :
  fst (started (CreateExecutiveUser.handler "POST" CreateExecutiveUser.goes_through)) =
    Returns {| CreateExecutiveUser.status := 200;
               CreateExecutiveUser.content :=
                 CreateExecutiveUser.Success "user-1" "exec-1" "4fzyo82mA1!" |}.
Proof.
  destruct (executive_created_iff "POST" CreateExecutiveUser.goes_through)
    as [_ H]; [discriminate|].
  apply H. split_and!; [by eexists | reflexivity..].
Defined.

Lemma temp_password_length_witness :
  "A1!" = (slice (CreateExecutiveUser.random36 CreateExecutiveUser.zero_drawn) 2 10
           ++ "A1!")%string
  /\ String.length "A1!" =
       3 + 8 `min` (String.length
                      (CreateExecutiveUser.random36 CreateExecutiveUser.zero_drawn) - 2).
Proof.
  apply (temp_password_length "POST" CreateExecutiveUser.zero_drawn
           (CreateExecutiveUser.CreateUser "ada@example.com" "A1!" "Ada" "King"
              "Chief Technology Officer" "Engineering")).
  - vm_compute. left.
  - reflexivity.
Defined.

Lemma word_with_cto_is_c_level_witness :
  PersonnelManager.isCLevel "Director of Operations" = true
  /\ "equity_offer_agreement"
       ∈ PersonnelManager.required_documents "Director of Operations".
Proof.
  apply (word_with_cto_is_c_level "Director of Operations" "director");
    reflexivity.
Defined.

Lemma equity_agreement_reported_for_every_c_level_witness :
  let log := snd (started (PersonnelManager.handleHire PersonnelManager.a_hire
                             PersonnelManager.all_resolve)) in
  ~ (PersonnelManager.Invoke "send-equity-offer-agreement" ∈ log)
  /\ existsb PersonnelManager.names_equity_agreement log = true.
Proof.
  destruct (equity_agreement_reported_for_every_c_level PersonnelManager.a_hire
              PersonnelManager.all_resolve) as (Hsent & Hnamed & _).
  - split_and!; [by eexists | by do 2 eexists | reflexivity..].
  - split_and!; reflexivity.
  - split.
    + intros [_ H]%Hsent. discriminate H.
    + by apply Hnamed.
Defined.

Lemma hire_reported_whatever_documents_do_witness :
  let log := snd (started (PersonnelManager.handleHire PersonnelManager.a_hire
                             PersonnelManager.mail_down)) in
  List.filter PersonnelManager.is_Invoke log =
    [PersonnelManager.Invoke "send-board-resolution"]
  /\ PersonnelManager.MessageSuccess (PersonnelManager.Hired "Ada" "King" None) ∈ log
  /\ List.filter PersonnelManager.is_MessageError log = [].
Proof.
  destruct (hire_reported_whatever_documents_do PersonnelManager.a_hire
              PersonnelManager.mail_down) as (_ & _ & Hno & _ & Hdown).
  - split_and!; [by eexists | by do 2 eexists | reflexivity..].
  - destruct (Hdown "Failed to send a request") as [Hone Htoast]; [reflexivity|].
    split_and!; [exact Hone | exact Htoast | exact Hno].
Defined.

End OtherInstances.

(** ** Base64 on known values *)

Example btoa_hello : btoa "hello" = "aGVsbG8=".
Proof. reflexivity. Qed.

Example atob_hello : atob "aGVsbG8=" = Some "hello".
Proof. reflexivity. Qed.

Example atob_unpadded : atob "aGVsbG8" = Some "hello".
Proof. reflexivity. Qed.

Example atob_whitespace : atob " aGVs bG8= " = Some "hello".
Proof. reflexivity. Qed.

Example atob_bad_length : atob "aGVsb" = None.
Proof. reflexivity. Qed.

(** A credential id in the URL-safe alphabet does not decode. *)
Example atob_base64url : atob "ab-_" = None.
Proof. reflexivity. Qed.
